(** * flatpak-import: importing OCI images into an OSTree repository

    A shallow embedding of [flatpak-import.py].  Python values that the
    script navigates dynamically (JSON documents, exceptions) are modelled
    by inductive types; the script's effects (the registry directory, the
    OSTree repository, the output and the external commands) are threaded
    through an exception-and-state monad over a [World].

    What the script takes from outside is a [Platform]: the decoding of
    a file as text, the JSON codec, the output of [sha256sum], base64,
    [int], the archive extraction, the merge of a directory into a
    mutable tree and the checksums are its fields; the theorems hold of
    every platform, or of every platform that meets a contract they state
    (the overlay contract of the merge, checksums that are not empty).  A
    platform also says which external operation, in
    the order the script reaches them, raises: this is how an interrupted
    import is followed.  The trace of a world records what was printed and
    which external operations were run. *)

From Stdlib Require Import ZArith Ascii String List.
From stdpp Require Import base tactics option list strings gmap fin_maps.

Set Warnings "-register-all".
Local Open Scope string_scope.
Local Open Scope Z_scope.
Local Open Scope list_scope.

(** ** Python values *)

Module Py.

(** The exceptions the script can meet.  [KeyError] carries the missing
    key, as Python's does. *)
Inductive exn : Type :=
| KeyError (key : string)
| KeyErrorInt (key : Z)
| IndexError
| TypeError
| ValueError
| AttributeError
| OverflowError
| FileNotFoundError
| IsADirectoryError
| NotADirectoryError
| FileExistsError
| JSONDecodeError
| UnicodeDecodeError
| BinasciiError
| CalledProcessError
| GLibError
| Interrupted (what : string).

(** A computation that either raises or returns. *)
Inductive result (A : Type) : Type :=
| Raise (e : exn)
| Return (a : A).
Arguments Raise {A} e.
Arguments Return {A} a.

Definition rbind {A B} (r : result A) (k : A -> result B) : result B :=
  match r with
  | Raise e => Raise e
  | Return a => k a
  end.

(** What [json.load] produces.  A [JObj] lists the items of the resulting
    [dict] in insertion order; [json.load] leaves no repeated key. *)
Inductive json : Type :=
| JNull
| JBool (b : bool)
| JNum (z : Z)
| JStr (s : string)
| JArr (items : list json)
| JObj (items : list (string * json)).

(** Lookup in the items of a [dict]. *)
Fixpoint assoc {V} (k : string) (items : list (string * V)) : option V :=
  match items with
  | [] => None
  | (k', v) :: rest => if decide (k = k') then Some v else assoc k rest
  end.

(** [obj[key]] for a string key. *)
Definition getitem (obj : json) (key : string) : result json :=
  match obj with
  | JObj items =>
      match assoc key items with
      | Some v => Return v
      | None => Raise (KeyError key)
      end
  | _ => Raise TypeError
  end.

(** [obj.get(key)] *)
Definition dict_get (obj : json) (key : string) : result (option json) :=
  match obj with
  | JObj items => Return (assoc key items)
  | _ => Raise AttributeError
  end.

(** [obj.items()] *)
Definition dict_items (obj : json) : result (list (string * json)) :=
  match obj with
  | JObj items => Return items
  | _ => Raise AttributeError
  end.

(** The characters of a string, each as a string of length one. *)
Fixpoint chars (s : string) : list string :=
  match s with
  | EmptyString => []
  | String c r => String c EmptyString :: chars r
  end.

(** [for x in obj] *)
Definition iterate (obj : json) : result (list json) :=
  match obj with
  | JArr items => Return items
  | JObj items => Return (map (fun kv => JStr (fst kv)) items)
  | JStr s => Return (map JStr (chars s))
  | _ => Raise TypeError
  end.

(** [obj[-1]] *)
Definition getitem_last (obj : json) : result json :=
  match obj with
  | JArr items =>
      match last items with
      | Some v => Return v
      | None => Raise IndexError
      end
  | JStr s =>
      match last (chars s) with
      | Some c => Return (JStr c)
      | None => Raise IndexError
      end
  | JObj _ => Raise (KeyErrorInt (-1))
  | _ => Raise TypeError
  end.

(** [s.startswith(p)] *)
Fixpoint startswith (p s : string) : bool :=
  match p, s with
  | EmptyString, _ => true
  | String a p', String b s' => if Ascii.eqb a b then startswith p' s' else false
  | String _ _, EmptyString => false
  end.

(** [s[n:]] *)
Fixpoint slice_from (n : nat) (s : string) : string :=
  match n, s with
  | O, _ => s
  | S n', String _ r => slice_from n' r
  | S _, EmptyString => EmptyString
  end.

(** [s.split(sep, 1)]: at most one cut, at the first separator. *)
Fixpoint cut (sep : ascii) (s : string) : option (string * string) :=
  match s with
  | EmptyString => None
  | String c r =>
      if Ascii.eqb c sep then Some (EmptyString, r)
      else match cut sep r with
           | Some (a, b) => Some (String c a, b)
           | None => None
           end
  end.

Definition split1 (sep : ascii) (s : string) : list string :=
  match cut sep s with
  | Some (a, b) => [a; b]
  | None => [s]
  end.

(** [s.split(sep)]: every separator cuts. *)
Fixpoint split_acc (sep : ascii) (cur : string) (s : string) : list string :=
  match s with
  | EmptyString => [cur]
  | String c r =>
      if Ascii.eqb c sep then cur :: split_acc sep EmptyString r
      else split_acc sep (cur +:+ String c EmptyString) r
  end.

Definition split (sep : ascii) (s : string) : list string :=
  split_acc sep EmptyString s.

(** White space as [str.strip] sees it, among the characters below 128. *)
Definition is_space (c : ascii) : bool :=
  let n := N_of_ascii c in
  ((9 <=? n) && (n <=? 13) || (28 <=? n) && (n <=? 32))%N.

Fixpoint lstrip (s : string) : string :=
  match s with
  | EmptyString => EmptyString
  | String c r => if is_space c then lstrip r else s
  end.

Fixpoint rstrip (s : string) : string :=
  match s with
  | EmptyString => EmptyString
  | String c r =>
      match rstrip r with
      | EmptyString => if is_space c then EmptyString else String c EmptyString
      | r' => String c r'
      end
  end.

(** [s.strip()] *)
Definition strip (s : string) : string := lstrip (rstrip s).

(** [s.split(" ")[0]]; the list [split] gives is never empty. *)
Definition first_field (s : string) : string := hd s (split " " s).

(** Every character is below 128. *)
Definition is_ascii (s : string) : bool :=
  forallb (fun c => (N_of_ascii c <? 128)%N) (list_ascii_of_string s).

(** [a, b = parts] *)
Definition unpack2 (parts : list string) : result (string * string) :=
  match parts with
  | [a; b] => Return (a, b)
  | _ => Raise ValueError
  end.

(** [value.split(":", 1)] where [value] came out of a JSON document:
    only a [str] has the method. *)
Definition json_split1 (value : json) : result (list string) :=
  match value with
  | JStr s => Return (split1 ":" s)
  | _ => Raise AttributeError
  end.

(** Truth value of a [str] or [None]: [if commit:] *)
Definition truthy (v : option string) : bool :=
  match v with
  | Some s => negb (String.eqb s "")
  | None => false
  end.

End Py.
Export Py.

(** ** Paths and the file system *)

Module Fs.

(** An absolute path, as the list of its components; [[]] is [/]. *)
Abbreviation path := (list string).

Inductive node : Type :=
| Dir
| File (data : string).

Abbreviation fsmap := (gmap (list string) node).

(** The components of a relative path written with slashes, as
    [pathlib] parses it: empty components and [.] are dropped.  A
    component [..] is kept as it is written, as [pathlib] keeps it; the
    file system below looks a path up by its components as written and
    follows neither [..] nor symbolic links.  The registry root that
    [main] works with has been through [os.path.abspath], which leaves
    no [..] in it. *)
Definition components (s : string) : list string :=
  filter (fun c => c <> "" /\ c <> ".") (split "/" s).

(** [base.joinpath(s)]: an absolute [s] replaces [base]. *)
Definition joinpath (base : path) (s : string) : path :=
  if startswith "/" s then components s else base ++ components s.

Definition is_dir (fs : fsmap) (p : path) : bool :=
  match p with
  | [] => true
  | _ => match fs !! p with Some Dir => true | _ => false end
  end.

(** [p.exists()] *)
Definition exists_ (fs : fsmap) (p : path) : bool :=
  match p with
  | [] => true
  | _ => match fs !! p with Some _ => true | None => false end
  end.

Definition parent (p : path) : path := removelast p.

(** The error of reaching for a path that is not there, as the kernel
    finds it walking down from the root: [ENOTDIR] when a regular file
    is met on the way, [ENOENT] when a component is missing. *)
Fixpoint absent_error (fs : fsmap) (above : path) (below : list string) : exn :=
  match below with
  | [] => FileNotFoundError
  | c :: below' =>
      match fs !! (above ++ [c]) with
      | Some Dir => absent_error fs (above ++ [c]) below'
      | Some (File _) =>
          match below' with [] => FileNotFoundError | _ => NotADirectoryError end
      | None => FileNotFoundError
      end
  end.

(** [open(p, "w")] followed by writing [data] and closing. *)
Definition write_file (fs : fsmap) (p : path) (data : string) : result fsmap :=
  if is_dir fs p then Raise IsADirectoryError
  else if is_dir fs (parent p) then Return (<[p := File data]> fs)
  else Raise (absent_error fs [] p).

(** [open(p, "r")] followed by reading everything. *)
Definition read_file (fs : fsmap) (p : path) : result string :=
  match p with
  | [] => Raise IsADirectoryError
  | _ => match fs !! p with
         | Some (File data) => Return data
         | Some Dir => Raise IsADirectoryError
         | None => Raise (absent_error fs [] p)
         end
  end.

(** [p.mkdir(parents=True, exist_ok=True)], walking down from the root:
    [above] is the directory reached so far, [below] what is left. *)
Fixpoint mkdirs (fs : fsmap) (above : path) (below : list string) : result fsmap :=
  match below with
  | [] => Return fs
  | c :: below' =>
      let p := above ++ [c] in
      match fs !! p with
      | Some Dir => mkdirs fs p below'
      | Some (File _) =>
          Raise (match below' with [] => FileExistsError | _ => NotADirectoryError end)
      | None => mkdirs (<[p := Dir]> fs) p below'
      end
  end.

Definition mkdir_parents (fs : fsmap) (p : path) : result fsmap :=
  mkdirs fs [] p.

(** [os.rename(src, dst)] for a regular file [src]. *)
Definition rename (fs : fsmap) (src dst : path) : result fsmap :=
  match fs !! src with
  | Some (File data) =>
      if is_dir fs dst then Raise IsADirectoryError
      else if is_dir fs (parent dst) then Return (<[dst := File data]> (delete src fs))
      else Raise (absent_error fs [] dst)
  | Some Dir => Raise IsADirectoryError
  | None => Raise (absent_error fs [] src)
  end.

End Fs.
Export Fs.

(** ** The destination store *)

Module Ostree.

(** A [GVariant] value as far as the script looks into it: a string, or
    any other typed value, kept by its serialized form. *)
Inductive variant : Type :=
| VString (s : string)
| VOpaque (payload : list Byte.byte).

(** The entries of an [a{sv}] dictionary, in the order they were added. *)
Definition vardict : Type := list (string * variant).

(** [GLib.VariantDict.new(d)] fills a hash table from the entries in
    order, so the last entry of a key is the one kept. *)
Fixpoint vardict_lookup (key : string) (d : vardict) : option variant :=
  match d with
  | [] => None
  | (k, v) :: rest =>
      match vardict_lookup key rest with
      | Some v' => Some v'
      | None => if decide (key = k) then Some v else None
      end
  end.

(** [metadata.lookup_value(key, GLib.VariantType("s"))] *)
Definition lookup_string (key : string) (d : vardict) : option string :=
  match vardict_lookup key d with
  | Some (VString s) => Some s
  | _ => None
  end.

(** Truth value of a string variant or [None]: [if alt_id:] *)
Definition variant_truthy (v : option string) : bool := truthy v.

(** A merged file tree, flat: path to content identity. *)
Abbreviation tree := (gmap string string).

Record Commit : Type := mkCommit {
  c_parent : option string;
  c_subject : option string;
  c_body : option string;
  c_metadata : vardict;
  c_root : string;
  c_timestamp : Z;
}.

(** What an open transaction has staged. *)
Record Txn : Type := mkTxn {
  t_refs : gmap string string;
  t_commits : gmap string Commit;
  t_trees : gmap string (gmap string string);
}.

Definition empty_txn : Txn := mkTxn ∅ ∅ ∅.

(** The repository: refs, commit objects and tree objects that are
    visible to readers, and the transaction in progress, if any. *)
Record Repo : Type := mkRepo {
  refs : gmap string string;
  commits : gmap string Commit;
  trees : gmap string (gmap string string);
  txn : option Txn;
}.

Definition empty_repo : Repo := mkRepo ∅ ∅ ∅ None.

(** Modelled from the spec: the destination store is an external library;
    its transaction primitives are taken as section 6 lists them and as
    section 4.4 describes them: writes inside a transaction are staged, a
    commit of the transaction publishes them, an abort drops them. *)
Definition prepare (r : Repo) : result Repo :=
  match txn r with
  | Some _ => Raise GLibError
  | None => Return (mkRepo (refs r) (commits r) (trees r) (Some empty_txn))
  end.

(** Modelled from the spec: a write inside the transaction is staged;
    outside a transaction the library refuses it. *)
Definition stage (f : Txn -> Txn) (r : Repo) : result Repo :=
  match txn r with
  | Some t => Return (mkRepo (refs r) (commits r) (trees r) (Some (f t)))
  | None => Raise GLibError
  end.

Definition stage_tree (id : string) (t : tree) : Repo -> result Repo :=
  stage (fun x => mkTxn (t_refs x) (t_commits x) (<[id := t]> (t_trees x))).

Definition stage_commit (rev : string) (c : Commit) : Repo -> result Repo :=
  stage (fun x => mkTxn (t_refs x) (<[rev := c]> (t_commits x)) (t_trees x)).

Definition stage_ref (ref rev : string) : Repo -> result Repo :=
  stage (fun x => mkTxn (<[ref := rev]> (t_refs x)) (t_commits x) (t_trees x)).

(** Modelled from the spec: committing the transaction makes every staged
    ref, commit and tree visible, at once. *)
Definition publish (r : Repo) : result Repo :=
  match txn r with
  | Some t =>
      Return (mkRepo (t_refs t ∪ refs r) (t_commits t ∪ commits r)
                     (t_trees t ∪ trees r) None)
  | None => Raise GLibError
  end.

(** Modelled from the spec: aborting the transaction drops what was
    staged and leaves what was visible. *)
Definition abort (r : Repo) : Repo :=
  mkRepo (refs r) (commits r) (trees r) None.

(** [repo.resolve_rev(ref, False)] *)
Definition resolve_rev (r : Repo) (ref : string) : result string :=
  match refs r !! ref with
  | Some rev => Return rev
  | None => Raise GLibError
  end.

(** [repo.load_commit(rev)], giving the commit's metadata dictionary. *)
Definition load_commit (r : Repo) (rev : string) : result Commit :=
  match commits r !! rev with
  | Some c => Return c
  | None => Raise GLibError
  end.

End Ostree.
Export Ostree.

(** ** The platform and the world *)

(** The primitives the script takes from its libraries and from the
    commands it runs. *)
Record Platform : Type := mkPlatform {
  (** the text that reading a file opened with [open(path, "r")] gives
      for the bytes of the file, in the encoding of the locale; [None]
      when the bytes do not decode *)
  decode_text : string -> option string;
  (** [json.load] on the text of a file *)
  json_loads : string -> option json;
  (** [json.dump] *)
  json_dumps : json -> string;
  (** what the [sha256sum] command prints for a file, given the name it
      is called with and the contents of the file *)
  sha256sum_stdout : list string -> string -> string;
  (** [base64.b64decode] *)
  b64decode : string -> option (list Byte.byte);
  (** [GLib.Variant.new_from_bytes(GLib.VariantType("v"), b, False).get_variant()] *)
  variant_from_bytes : list Byte.byte -> variant;
  (** [int] on a [str] *)
  int_of_str : string -> option Z;
  (** [tar -x] on the contents of an archive: the extracted file tree *)
  untar : string -> option (gmap string string);
  (** [repo.write_directory_to_mtree]: the merge of a directory into a
      mutable tree *)
  merge_directory : gmap string string -> gmap string string -> option (gmap string string);
  (** content identity of a tree and of a commit *)
  tree_checksum : gmap string string -> string;
  commit_checksum : Commit -> string;
  (** the names [tempfile] picks *)
  temp_name : nat -> string;
  (** what goes wrong outside the script: the n-th call of an external
      operation raises the given exception *)
  fault : nat -> option exn;
}.

(** What the script prints and which external operations it runs. *)
Inductive event : Type :=
| PrintBlobAdded (mtype : string) (size : Z) (digest : string)
| PrintCommitting (rev : string) (ref : json)
| PrintFound (commit img : string)
| PrintImporting (img : string)
| RunTar (archive : list string)
| RepoCreate
| RepoPrepare
| RepoWriteDirectory
| RepoWriteMtree (root : string)
| RepoWriteCommit (rev : string) (c : Commit)
| RepoSetRef (ref rev : string)
| RepoCommit
| RepoAbort
| RunSummary.

Record World : Type := mkWorld {
  w_fs : gmap (list string) node;
  w_repo : Repo;
  w_clock : nat;
  w_trace : list event;
}.

Definition with_fs (w : World) (fs : fsmap) : World :=
  mkWorld fs (w_repo w) (w_clock w) (w_trace w).
Definition with_repo (w : World) (r : Repo) : World :=
  mkWorld (w_fs w) r (w_clock w) (w_trace w).

(** ** The monad of the script *)

Definition M (A : Type) : Type := World -> World * result A.

Definition ret {A} (a : A) : M A := fun w => (w, Return a).
Definition raise {A} (e : exn) : M A := fun w => (w, Raise e).
Definition bind {A B} (m : M A) (k : A -> M B) : M B :=
  fun w =>
    match m w with
    | (w', Return a) => k a w'
    | (w', Raise e) => (w', Raise e)
    end.

Notation "'do' x <- m ; k" := (bind m (fun x => k))
  (at level 10, x name, m at level 100, k at level 200).
Notation "'do' ' p <- m ; k" := (bind m (fun x => match x with p => k end))
  (at level 10, p pattern, m at level 100, k at level 200).

(** A pure step that may raise. *)
Definition lift {A} (r : result A) : M A := fun w => (w, r).

(** [try: body / except: handler; raise] *)
Definition try_except_reraise {A} (body : M A) (handler : M unit) : M A :=
  fun w =>
    match body w with
    | (w', Return a) => (w', Return a)
    | (w', Raise e) =>
        match handler w' with
        | (w'', Return _) => (w'', Raise e)
        | (w'', Raise e') => (w'', Raise e')
        end
    end.

Definition emit (e : event) : M unit :=
  fun w => (mkWorld (w_fs w) (w_repo w) (w_clock w) (w_trace w ++ [e]), Return tt).

Definition get_fs : M fsmap := fun w => (w, Return (w_fs w)).
Definition get_repo : M Repo := fun w => (w, Return (w_repo w)).

(** A file-system step. *)
Definition fs_step (f : fsmap -> result fsmap) : M unit :=
  fun w =>
    match f (w_fs w) with
    | Return fs' => (with_fs w fs', Return tt)
    | Raise e => (w, Raise e)
    end.

(** A repository step. *)
Definition repo_step (f : Repo -> result Repo) : M unit :=
  fun w =>
    match f (w_repo w) with
    | Return r' => (with_repo w r', Return tt)
    | Raise e => (w, Raise e)
    end.

(** ** The script *)

Section Script.

Context (P : Platform).

(** Entering an external operation (a library call that touches the
    store, a command): it is the next call on the platform's list, and
    it raises when the platform says so. *)
Definition external : M unit :=
  fun w =>
    let w' := mkWorld (w_fs w) (w_repo w) (S (w_clock w)) (w_trace w) in
    match fault P (w_clock w) with
    | Some e => (w', Raise e)
    | None => (w', Return tt)
    end.

Definition MEDIA_TYPES : list (string * string) :=
  [ ("layer", "application/vnd.oci.image.layer.v1.tar");
    ("manifest", "application/vnd.oci.image.manifest.v1+json");
    ("config", "application/vnd.oci.image.config.v1+json") ].

(** What is handed to [open] and to commands as a file name: a path, or
    the pair [(fd, name)] that [tempfile.mkstemp] returns. *)
Inductive filearg : Type :=
| PathLike (p : path)
| FdAndName (fd : Z) (name : path).

(** [ret.stdout.strip().split(" ")[0]]: the first field of what the
    command prints for the file. *)
Definition sha256sum_field (p : path) (data : string) : string :=
  first_field (strip (sha256sum_stdout P p data)).

(** [sha256sum(path)] *)
Definition sha256sum (file : filearg) : M string :=
  match file with
  | FdAndName _ _ => raise TypeError
  | PathLike p =>
      do _ <- external;
      do fs <- get_fs;
      match read_file fs p with
      | Return data => ret (sha256sum_field p data)
      | Raise _ => raise CalledProcessError
      end
  end.

(** [with open(file, "w") as f: json.dump(js, f)] *)
Definition open_write (file : filearg) (text : string) : M unit :=
  match file with
  | FdAndName _ _ => raise TypeError
  | PathLike p => fs_step (fun fs => write_file fs p text)
  end.

(** [json.load(f)] for a file opened in text mode, given the bytes of
    the file: reading decodes them, then the text is parsed. *)
Definition json_load (data : string) : result json :=
  match decode_text P data with
  | None => Raise UnicodeDecodeError
  | Some text =>
      match json_loads P text with
      | Some js => Return js
      | None => Raise JSONDecodeError
      end
  end.

(** [with open(path, "r") as f: json.load(f)] *)
Definition open_load (file : option path) : M json :=
  match file with
  | None => raise TypeError
  | Some p =>
      do fs <- get_fs;
      do data <- lift (read_file fs p);
      lift (json_load data)
  end.

(** [tempfile.mkstemp(dir=dir, prefix=prefix)]: creates the file and
    returns the pair of its descriptor and its name. *)
Definition mkstemp (dir : path) (prefix : string) : M (Z * path) :=
  fun w =>
    let name := dir ++ [prefix +:+ temp_name P (w_clock w)] in
    match write_file (w_fs w) name "" with
    | Return fs' =>
        (mkWorld fs' (w_repo w) (S (w_clock w)) (w_trace w), Return (3, name))
    | Raise e => (w, Raise e)
    end.

(** *** class Registry *)

Record Registry : Type := mkRegistry {
  root : path;
  blobs : list (string * path);
}.

(** [Registry.init] *)
Definition Registry_init (root : path) : M unit :=
  let layout := joinpath root "oci-layout" in
  let data := JObj [("imageLayoutVersion", JStr "1.0.0")] in
  open_write (PathLike layout) (json_dumps P data).

(** The loop of [Registry.__init__] over the algorithms. *)
Fixpoint Registry_blob_dirs (blobs_dir : path) (algorithms : list string)
    (blobs : list (string * path)) : M (list (string * path)) :=
  match algorithms with
  | [] => ret blobs
  | algorithm :: rest =>
      let p := joinpath blobs_dir algorithm in
      do _ <- fs_step (fun fs => mkdir_parents fs p);
      Registry_blob_dirs blobs_dir rest (blobs ++ [(algorithm, p)])
  end.

(** [Registry.__init__] *)
Definition Registry_new (root : path) : M Registry :=
  do fs <- get_fs;
  do _ <- (if negb (exists_ fs root) then Registry_init root else ret tt);
  let blobs_dir := joinpath root "blobs" in
  do blobs <- Registry_blob_dirs blobs_dir ["sha256"] [];
  ret (mkRegistry root blobs).

(** [Registry.path_for_blob] *)
Definition path_for_blob (self : Registry) (digest : json) : result (option path) :=
  rbind (json_split1 digest) (fun parts =>
  rbind (unpack2 parts) (fun '(algorithm, want) =>
  match assoc algorithm (blobs self) with
  | None => Return None
  | Some dir => Return (Some (joinpath dir want))
  end)).

(** [Registry.blobs_add_file] *)
Definition blobs_add_file (self : Registry) (file : filearg) (mtype : string)
    (algorithm : string) : M json :=
  match assoc algorithm (blobs self) with
  | None => raise (KeyError algorithm)
  | Some blobs_dir =>
      do digest <- sha256sum file;
      match file with
      | FdAndName _ _ => raise TypeError
      | PathLike p =>
          do fs <- get_fs;
          do data <- lift (read_file fs p);
          let size := Z.of_nat (String.length data) in
          do _ <- fs_step (fun fs => rename fs p (joinpath blobs_dir digest));
          match assoc mtype MEDIA_TYPES with
          | None => raise (KeyError mtype)
          | Some media =>
              let info := JObj [ ("digest", JStr (algorithm +:+ ":" +:+ digest));
                                 ("size", JNum size);
                                 ("mediaType", JStr media) ] in
              do _ <- emit (PrintBlobAdded mtype size digest);
              ret info
          end
      end
  end.

(** [Registry.blobs_add_json] *)
Definition blobs_add_json (self : Registry) (js : json) (mtype : string)
    (algorithm : string) : M json :=
  do js_file <- mkstemp (root self) ".temp-";
  let js_file := FdAndName (fst js_file) (snd js_file) in
  do _ <- open_write js_file (json_dumps P js);
  blobs_add_file self js_file mtype algorithm.

(** [Registry.blobs_get_json] *)
Definition blobs_get_json (self : Registry) (digest : json) : M json :=
  do path <- lift (path_for_blob self digest);
  open_load path.

(** [Registry.__contains__] *)
Definition Registry_contains (self : Registry) (digest : json) : M bool :=
  do path <- lift (path_for_blob self digest);
  match path with
  | None => raise AttributeError
  | Some p => do fs <- get_fs; ret (exists_ fs p)
  end.

(** *** class Index *)

Record Index : Type := mkIndex {
  index_registry : Registry;
  index_data : json;
}.

(** [Index.__init__] *)
Definition Index_new (registry : Registry) : M Index :=
  let path := joinpath (root registry) "index.json" in
  do data <- open_load (Some path);
  ret (mkIndex registry data).

(** *** Calls into the repository *)

(** Arguments crossing into the library: a string, or a string or [None]. *)
Definition as_utf8 (v : json) : result string :=
  match v with
  | JStr s => Return s
  | _ => Raise TypeError
  end.

Definition as_utf8_nullable (v : option json) : result (option string) :=
  match v with
  | None | Some JNull => Return None
  | Some (JStr s) => Return (Some s)
  | Some _ => Raise TypeError
  end.

Definition as_uint64 (z : Z) : result Z :=
  if decide (0 <= z < 2 ^ 64) then Return z else Raise OverflowError.

Definition repo_create : M unit :=
  do _ <- external;
  emit RepoCreate.

Definition prepare_transaction : M unit :=
  do _ <- external;
  do _ <- repo_step prepare;
  emit RepoPrepare.

Definition write_directory_to_mtree (dir mtree : tree) : M tree :=
  do _ <- external;
  match merge_directory P dir mtree with
  | Some merged => do _ <- emit RepoWriteDirectory; ret merged
  | None => raise GLibError
  end.

Definition write_mtree (mtree : tree) : M string :=
  do _ <- external;
  let root := tree_checksum P mtree in
  do _ <- repo_step (stage_tree root mtree);
  do _ <- emit (RepoWriteMtree root);
  ret root.

Definition write_commit_with_time (parent : option json) (subject body : json)
    (metadata : vardict) (root : string) (timestamp : Z) : M string :=
  do parent <- lift (as_utf8_nullable parent);
  do subject <- lift (as_utf8_nullable (Some subject));
  do body <- lift (as_utf8_nullable (Some body));
  do timestamp <- lift (as_uint64 timestamp);
  do _ <- external;
  let c := mkCommit parent subject body metadata root timestamp in
  let rev := commit_checksum P c in
  do _ <- repo_step (stage_commit rev c);
  do _ <- emit (RepoWriteCommit rev c);
  ret rev.

Definition transaction_set_ref (ref : json) (rev : string) : M unit :=
  do ref <- lift (as_utf8 ref);
  do _ <- external;
  do _ <- repo_step (stage_ref ref rev);
  emit (RepoSetRef ref rev).

Definition commit_transaction : M unit :=
  do _ <- external;
  do _ <- repo_step publish;
  emit RepoCommit.

Definition abort_transaction : M unit :=
  fun w =>
    (mkWorld (w_fs w) (abort (w_repo w)) (w_clock w) (w_trace w ++ [RepoAbort]),
     Return tt).

(** *** import_layer *)

(** The [tar] command of [import_layer], run into a fresh directory. *)
Definition run_tar (archive : option path) : M tree :=
  do _ <- external;
  match archive with
  | None => raise TypeError
  | Some p =>
      do _ <- emit (RunTar p);
      do fs <- get_fs;
      match read_file fs p with
      | Raise _ => raise CalledProcessError
      | Return data =>
          match untar P data with
          | Some dir => ret dir
          | None => raise CalledProcessError
          end
      end
  end.

(** [import_layer(repo, mtree, path, modifier)]; the mutable tree that
    Python updates in place is returned. *)
Definition import_layer (mtree : tree) (archive : option path) : M tree :=
  do dir <- run_tar archive;
  write_directory_to_mtree dir mtree.

(** *** import_image *)

Definition METADATA_PREFIX : string := "org.flatpak.commit-metadata.".

(** [base64.b64decode(v)]: a [str] is first encoded as ASCII, which
    raises [ValueError] when it has other characters. *)
Definition py_b64decode (v : json) : result (list Byte.byte) :=
  match v with
  | JStr s =>
      if is_ascii s then
        match b64decode P s with
        | Some bytes => Return bytes
        | None => Raise BinasciiError
        end
      else Raise ValueError
  | _ => Raise TypeError
  end.

(** [int(v)] *)
Definition py_int (v : json) : result Z :=
  match v with
  | JStr s =>
      match int_of_str P s with
      | Some z => Return z
      | None => Raise ValueError
      end
  | JNum z => Return z
  | JBool b => Return (if b then 1 else 0)
  | _ => Raise TypeError
  end.

(** The loop over [labels.items()] that fills the builder. *)
Fixpoint add_label_entries (items : list (string * json)) (builder : vardict)
    : result vardict :=
  match items with
  | [] => Return builder
  | (k, v) :: rest =>
      if negb (startswith METADATA_PREFIX k) then add_label_entries rest builder
      else
        rbind (py_b64decode v) (fun binary =>
        let key := slice_from (String.length METADATA_PREFIX) k in
        let data := variant_from_bytes P binary in
        add_label_entries rest (builder ++ [(key, data)]))
  end.

(** The loop over [manifest["layers"]]. *)
Fixpoint import_layers (registry : Registry) (layers : list json) (mtree : tree)
    : M tree :=
  match layers with
  | [] => ret mtree
  | layer :: rest =>
      do digest <- lift (getitem layer "digest");
      do path <- lift (path_for_blob registry digest);
      do mtree <- import_layer mtree path;
      import_layers registry rest mtree
  end.

(** The body of the [try] of [import_image]. *)
Definition import_image_transaction (registry : Registry) (manifest : json)
    (parent : option json) (subject body : json) (metadata : vardict)
    (timestamp : Z) (ref : json) : M unit :=
  let mtree : tree := ∅ in
  do layers <- lift (getitem manifest "layers");
  do layers <- lift (iterate layers);
  do mtree <- import_layers registry layers mtree;
  do root <- write_mtree mtree;
  do rev <- write_commit_with_time parent subject body metadata root timestamp;
  do _ <- emit (PrintCommitting rev ref);
  do _ <- transaction_set_ref ref rev;
  commit_transaction.

(** The part of [import_image] before the transaction: what it reads
    from the manifest and the config. *)
Record ImageInfo : Type := mkImageInfo {
  i_manifest : json;
  i_ref : json;
  i_parent : option json;
  i_timestamp : Z;
  i_subject : json;
  i_body : json;
  i_metadata : vardict;
}.

Definition import_image_resolve (registry : Registry) (digest : string) : M ImageInfo :=
  do manifest <- blobs_get_json registry (JStr digest);
  do cfgdesc <- lift (getitem manifest "config");
  do cfgdigest <- lift (getitem cfgdesc "digest");
  do config <- blobs_get_json registry cfgdigest;
  do config_config <- lift (getitem config "config");
  do labels <- lift (getitem config_config "Labels");
  do ref <- lift (getitem labels "org.flatpak.ref");
  do parent <- lift (dict_get labels "org.flatpak.parent-commit");
  do timestamp_label <- lift (getitem labels "org.flatpak.timestamp");
  do timestamp <- lift (py_int timestamp_label);
  do subject <- lift (getitem labels "org.flatpak.subject");
  do body <- lift (getitem labels "org.flatpak.body");
  do items <- lift (dict_items labels);
  do builder <- lift (add_label_entries items []);
  do '(_, checksum) <- lift (unpack2 (split1 ":" digest));
  let builder := builder ++ [("xa.alt-id", VString checksum)] in
  do rootfs <- lift (getitem config "rootfs");
  do diff_ids <- lift (getitem rootfs "diff_ids");
  do last_diff_id <- lift (getitem_last diff_ids);
  do parts <- lift (json_split1 last_diff_id);
  do '(_, checksum) <- lift (unpack2 parts);
  let metadata := builder ++ [("xa.diff-id", VString checksum)] in
  ret (mkImageInfo manifest ref parent timestamp subject body metadata).

(** [import_image(registry, repo, digest)] *)
Definition import_image (registry : Registry) (digest : string) : M unit :=
  do i <- import_image_resolve registry digest;
  do _ <- prepare_transaction;
  try_except_reraise
    (import_image_transaction registry (i_manifest i) (i_parent i) (i_subject i)
       (i_body i) (i_metadata i) (i_timestamp i) (i_ref i))
    abort_transaction.

(** *** iter_commits *)

Fixpoint iter_commits_over (r : Repo) (refs : list string) : result (list (string * string)) :=
  match refs with
  | [] => Return []
  | ref :: rest =>
      rbind (resolve_rev r ref) (fun commit_id =>
      rbind (load_commit r commit_id) (fun c =>
      let alt_id := lookup_string "xa.alt-id" (c_metadata c) in
      rbind (iter_commits_over r rest) (fun more =>
      if variant_truthy alt_id
      then Return (("sha256:" +:+ default "" alt_id, commit_id) :: more)
      else Return more)))
  end.

(** [repo.list_refs()]: the names of the refs, in the order the table
    gives them. *)
Definition list_refs (r : Repo) : list string :=
  map fst (map_to_list (refs r)).

Definition iter_commits : M (list (string * string)) :=
  do r <- get_repo;
  lift (iter_commits_over r (list_refs r)).

(** [dict(pairs)]: a later pair replaces an earlier one of the same key. *)
Definition py_dict (pairs : list (string * string)) : gmap string string :=
  fold_left (fun d kv => <[fst kv := snd kv]> d) pairs ∅.

(** *** main *)

(** The loop of [main] over the images. *)
Fixpoint import_images (registry : Registry) (existing : gmap string string)
    (images : list string) : M unit :=
  match images with
  | [] => ret tt
  | img :: rest =>
      let commit := existing !! img in
      if truthy commit then
        do _ <- emit (PrintFound (default "" commit) img);
        import_images registry existing rest
      else
        do _ <- emit (PrintImporting img);
        do _ <- import_image registry img;
        import_images registry existing rest
  end.

(** [subprocess.run(["ostree", "summary", "--repo", args.repo, "-u"])] *)
Definition run_summary : M unit :=
  do _ <- external;
  emit RunSummary.

(** [filter(len, images)] *)
Definition nonempty_lines (images : list string) : list string :=
  filter (fun s => String.length s <> 0%nat) images.

(** [main], after the arguments are parsed and the list of images is
    read into [pkgs]. *)
Definition main (registry_root : path) (pkgs : string) : M unit :=
  let images := split "010" pkgs in
  do _ <- repo_create;
  do registry <- Registry_new registry_root;
  do pairs <- iter_commits;
  let existing := py_dict pairs in
  do _ <- import_images registry existing (nonempty_lines images);
  run_summary.

End Script.

(** ** Notions used in the statements *)

(** A hash written in lower-case hexadecimal, as [sha256sum] prints it. *)
Definition hex_digit (c : ascii) : bool :=
  existsb (Ascii.eqb c) (list_ascii_of_string "0123456789abcdef").

Fixpoint all_hex (s : string) : bool :=
  match s with
  | EmptyString => true
  | String c r => hex_digit c && all_hex r
  end.

Definition is_hex_hash (s : string) : Prop := s <> "" /\ all_hex s = true.

(** No occurrence of a character in a string. *)
Fixpoint free_of (sep : ascii) (s : string) : bool :=
  match s with
  | EmptyString => true
  | String c r => negb (Ascii.eqb c sep) && free_of sep r
  end.

(** What a reader of the repository can see: everything but the
    transaction in progress. *)
Definition visible (r : Repo) : gmap string string * gmap string Commit * gmap string (gmap string string) :=
  (refs r, commits r, trees r).

(** The events added between two worlds. *)
Definition added (w w' : World) (evs : list event) : Prop :=
  w_trace w' = w_trace w ++ evs.

(** Preservation of a relation between the world before and after. *)
Definition preserves {A} (R : World -> World -> Prop) (m : M A) : Prop :=
  forall w w' r, m w = (w', r) -> R w w'.

Definition preserves_on_raise {A} (R : World -> World -> Prop) (m : M A) : Prop :=
  forall w w' e, m w = (w', Raise e) -> R w w'.

(** The relations followed through the script. *)
Definition same_fs (w w' : World) : Prop := w_fs w' = w_fs w.
Definition same_repo (w w' : World) : Prop := w_repo w' = w_repo w.
Definition same_visible (w w' : World) : Prop :=
  visible (w_repo w') = visible (w_repo w).
Definition adds (Q : event -> Prop) (w w' : World) : Prop :=
  exists evs, added w w' evs /\ Forall Q evs.

(** The events of the steps between the opening and the end of a
    transaction. *)
Definition in_transaction (e : event) : bool :=
  match e with
  | RunTar _ | RepoWriteDirectory | RepoWriteMtree _ | RepoWriteCommit _ _
  | PrintCommitting _ _ | RepoSetRef _ _ => true
  | _ => false
  end.

(** The events of [import_image]. *)
Definition import_event (e : event) : bool :=
  match e with
  | RepoPrepare | RepoCommit | RepoAbort => true
  | _ => in_transaction e
  end.

Definition is_summary (e : event) : bool :=
  match e with
  | RunSummary => true
  | _ => false
  end.

(** The key and the revision that a ref contributes to the index. *)
Definition indexed (r : Repo) (ref key rev : string) : Prop :=
  exists c alt,
    refs r !! ref = Some rev /\ commits r !! rev = Some c /\
    lookup_string "xa.alt-id" (c_metadata c) = Some alt /\ alt <> "" /\
    key = "sha256:" +:+ alt.

(** Every ref points at a commit that can be loaded. *)
Definition loadable (r : Repo) (names : list string) : Prop :=
  forall ref, In ref names ->
    exists rev c, refs r !! ref = Some rev /\ commits r !! rev = Some c.

(** Everything [main] does before the summary. *)
Definition main_imports (P : Platform) (registry_root : path) (pkgs : string) : M unit :=
  do _ <- repo_create P;
  do registry <- Registry_new P registry_root;
  do pairs <- iter_commits;
  import_images P registry (py_dict pairs) (nonempty_lines (split "010" pkgs)).





(** The blob directory that [Registry.__init__] sets up under a root. *)
Definition blob_dir_of (root : path) : path :=
  joinpath (joinpath root "blobs") "sha256".

(** The registry keeps blobs for sha256 only, as [Registry.__init__]
    sets it up. *)
Definition sha256_only (registry : Registry) : Prop :=
  forall algorithm dir, assoc algorithm (blobs registry) = Some dir -> algorithm = "sha256".

(** How many events of a kind a trace has. *)
Definition count (f : event -> bool) (evs : list event) : nat :=
  length (List.filter f evs).

(** The entry of a path in the latest of the layers that has it. *)
Fixpoint latest (dirs : list (gmap string string)) (p : string) : option string :=
  match dirs with
  | [] => None
  | d :: rest =>
      match latest rest p with
      | Some e => Some e
      | None => d !! p
      end
  end.

(** The manifest, the config and the labels of an image in the registry. *)
Definition image_config (P : Platform) (registry : Registry) (w : World)
    (digest : string) (manifest config : json) (labels : list (string * json)) : Prop :=
  blobs_get_json P registry (JStr digest) w = (w, Return manifest) /\
  (exists cfgdesc cfgdigest,
     getitem manifest "config" = Return cfgdesc /\
     getitem cfgdesc "digest" = Return cfgdigest /\
     blobs_get_json P registry cfgdigest w = (w, Return config)) /\
  (exists config_config,
     getitem config "config" = Return config_config /\
     getitem config_config "Labels" = Return (JObj labels)).

(** The metadata entry a commit-metadata label gives: the key is the
    label's name after the prefix, the value is the payload held in the
    base64-decoded bytes. *)
Definition metadata_entry_of (P : Platform) (label : string * json)
    (entry : string * variant) : Prop :=
  exists s bytes,
    snd label = JStr s /\
    is_ascii s = true /\
    b64decode P s = Some bytes /\
    entry = (slice_from (String.length METADATA_PREFIX) (fst label),
             variant_from_bytes P bytes).

Definition is_metadata_label (label : string * json) : bool :=
  startswith METADATA_PREFIX (fst label).

(** The labels [import_image] requires, in the order it reads them. *)
Definition required_labels : list string :=
  [ "org.flatpak.ref"; "org.flatpak.timestamp"; "org.flatpak.subject";
    "org.flatpak.body" ].

Definition missing_labels (labels : list (string * json)) : list string :=
  List.filter (fun k => match assoc k labels with None => true | Some _ => false end)
    required_labels.

(** The exception of an import whose labels lack [key], the first of
    the required labels that is missing: the [KeyError] of the lookup,
    unless the timestamp is read before [key] and does not convert, in
    which case [int] has raised first. *)
Definition missing_label_error (P : Platform) (labels : list (string * json))
    (key : string) : exn :=
  if decide (key = "org.flatpak.ref") then KeyError key
  else match assoc "org.flatpak.timestamp" labels with
       | None => KeyError key
       | Some ts =>
           match py_int P ts with
           | Raise e => e
           | Return _ => KeyError key
           end
       end.

(** The timestamp label, when there is one, converts to an integer. *)
Definition timestamp_converts (P : Platform) (labels : list (string * json)) : Prop :=
  forall v, assoc "org.flatpak.timestamp" labels = Some v ->
            exists z, py_int P v = Return z.

(** The directory a layer of the manifest extracts to. *)
Definition layer_dir (P : Platform) (registry : Registry) (fs : gmap (list string) node)
    (layer : json) (dir : gmap string string) : Prop :=
  exists digest p data,
    getitem layer "digest" = Return digest /\
    path_for_blob registry digest = Return (Some p) /\
    read_file fs p = Return data /\
    untar P data = Some dir.

(** The merges of the directories, first to last, into a tree. *)
Fixpoint merge_all (P : Platform) (dirs : list (gmap string string))
    (mtree : gmap string string) : option (gmap string string) :=
  match dirs with
  | [] => Some mtree
  | dir :: rest =>
      match merge_directory P dir mtree with
      | Some merged => merge_all P rest merged
      | None => None
      end
  end.

(** The commit that [import_image] writes for an image and a tree. *)
Definition commit_of (P : Platform) (i : ImageInfo) (mtree : gmap string string)
    (c : Commit) : Prop :=
  exists parent subject body,
    as_utf8_nullable (i_parent i) = Return parent /\
    as_utf8_nullable (Some (i_subject i)) = Return subject /\
    as_utf8_nullable (Some (i_body i)) = Return body /\
    0 <= i_timestamp i < 2 ^ 64 /\
    c = mkCommit parent subject body (i_metadata i) (tree_checksum P mtree)
          (i_timestamp i).

(** The repository after a commit [c] with tree [mtree] is published
    under [ref]. *)
Definition published (P : Platform) (r : Repo) (ref : string) (c : Commit)
    (mtree : gmap string string) : Repo :=
  mkRepo (<[ref := commit_checksum P c]> (refs r))
         (<[commit_checksum P c := c]> (commits r))
         (<[c_root c := mtree]> (trees r))
         None.

(** The events of a successful import. *)
Definition import_trace (P : Platform) (layer_evs : list event) (ref : json)
    (ref_name : string) (c : Commit) : list event :=
  RepoPrepare :: layer_evs ++
  [ RepoWriteMtree (c_root c); RepoWriteCommit (commit_checksum P c) c;
    PrintCommitting (commit_checksum P c) ref;
    RepoSetRef ref_name (commit_checksum P c); RepoCommit ].

Definition layer_event (e : event) : bool :=
  match e with
  | RunTar _ | RepoWriteDirectory => true
  | _ => false
  end.

(** The contract of the library's merge of a directory into a mutable
    tree: an entry of the directory replaces the entry of the same path,
    every other entry stays. *)
Definition overlay_contract (P : Platform) : Prop :=
  forall dir mtree merged,
    merge_directory P dir mtree = Some merged ->
    forall p, merged !! p = match dir !! p with Some e => Some e | None => mtree !! p end.

(** The repository only grows and no transaction is left open: every
    ref and every commit that was there is still there. *)
Definition keeps_refs (w w' : World) : Prop :=
  txn (w_repo w) = None ->
  txn (w_repo w') = None /\
  (forall ref, is_Some (refs (w_repo w) !! ref) -> is_Some (refs (w_repo w') !! ref)) /\
  (forall rev, is_Some (commits (w_repo w) !! rev) ->
               is_Some (commits (w_repo w') !! rev)).

(** The archive of a layer of the manifest. *)
Definition layer_archive (registry : Registry) (layer : json) (p : path) : Prop :=
  exists digest,
    getitem layer "digest" = Return digest /\
    path_for_blob registry digest = Return (Some p).

(** What [import_image] does for the layers: each archive is extracted,
    then merged. *)
Definition layers_trace (archives : list path) : list event :=
  flat_map (fun p => [RunTar p; RepoWriteDirectory]) archives.

(** Between two worlds nothing of the file system is changed or
    removed; what is new is a directory on the way to [target]. *)
Definition only_adds_dirs (target : path) (w w' : World) : Prop :=
  forall q, w_fs w' !! q = w_fs w !! q \/
            (w_fs w !! q = None /\ w_fs w' !! q = Some Dir /\ q `prefix_of` target).

(** No transaction is open and every ref points at a commit that is
    there: the state in which [iter_commits] can read the index. *)
Definition refs_loadable (r : Repo) : Prop :=
  txn r = None /\
  forall ref rev, refs r !! ref = Some rev -> is_Some (commits r !! rev).

Definition keeps_loadable (w w' : World) : Prop :=
  refs_loadable (w_repo w) -> refs_loadable (w_repo w').








(** ** A small platform to run the script on *)

Module Demo.

Definition manifest_a : json :=
  JObj [ ("config", JObj [("digest", JStr "sha256:c0")]);
         ("layers", JArr [ JObj [("digest", JStr "sha256:1a")];
                           JObj [("digest", JStr "sha256:1b")] ]) ].

Definition labels_a : list (string * json) :=
  [ ("org.flatpak.ref", JStr "app/org.example.App/x86_64/stable");
    ("org.flatpak.timestamp", JStr "1700000000");
    ("org.flatpak.subject", JStr "Export");
    ("org.flatpak.body", JStr "Body");
    ("org.flatpak.commit-metadata.xa.foo", JStr "YmFy") ].

Definition config_of (labels : list (string * json)) : json :=
  JObj [ ("config", JObj [("Labels", JObj labels)]);
         ("rootfs", JObj [("diff_ids", JArr [JStr "sha256:d1"; JStr "sha256:d2"])]) ].

Definition labels_no_subject : list (string * json) :=
  [ ("org.flatpak.ref", JStr "app/org.example.App/x86_64/stable");
    ("org.flatpak.timestamp", JStr "1700000000");
    ("org.flatpak.body", JStr "Body") ].

Definition labels_bad_timestamp : list (string * json) :=
  [ ("org.flatpak.ref", JStr "app/org.example.App/x86_64/stable");
    ("org.flatpak.timestamp", JStr "soon") ].

Definition documents : list (string * json) :=
  [ ("manifest a", manifest_a);
    ("config a", config_of labels_a);
    ("manifest b", JObj [ ("config", JObj [("digest", JStr "sha256:c1")]);
                          ("layers", JArr []) ]);
    ("config b", config_of labels_no_subject);
    ("manifest c", JObj [ ("config", JObj [("digest", JStr "sha256:c2")]);
                          ("layers", JArr []) ]);
    ("config c", config_of labels_bad_timestamp) ].

Definition layer1 : gmap string string :=
  <["etc/motd" := "hello"]> (<["bin/app" := "v1"]> ∅).
Definition layer2 : gmap string string :=
  <["bin/app" := "v2"]> ∅.

Definition archives : list (string * gmap string string) :=
  [ ("archive 1", layer1); ("archive 2", layer2) ].

Definition bar : list Byte.byte := [Byte.x62; Byte.x61; Byte.x72].

Definition show_commit (c : Commit) : string :=
  "rev-" +:+ c_root c +:+ "-" +:+ default "" (lookup_string "xa.alt-id" (c_metadata c)).

Definition show_tree (t : gmap string string) : string :=
  foldr (fun kv acc => fst kv +:+ "=" +:+ snd kv +:+ ";" +:+ acc) "" (map_to_list t).

Definition platform (fault : nat -> option exn) : Platform :=
  {| decode_text := fun data => if is_ascii data then Some data else None;
     json_loads := fun text => assoc text documents;
     json_dumps := fun _ => "{}";
     sha256sum_stdout :=
       fun name data =>
         let file := default "-" (last name) in
         (if free_of "092" file then "" else String "092" "")
         +:+ "00  " +:+ file +:+ String "010" "";
     b64decode := fun s => if String.eqb s "YmFy" then Some bar else None;
     variant_from_bytes := VOpaque;
     int_of_str := fun s => if String.eqb s "1700000000" then Some 1700000000 else None;
     untar := fun data => assoc data archives;
     merge_directory := fun dir mtree => Some (dir ∪ mtree);
     tree_checksum := show_tree;
     commit_checksum := show_commit;
     temp_name := fun _ => "x";
     fault := fault |}.

Definition no_fault : nat -> option exn := fun _ => None.

(** The n-th external operation is interrupted. *)
Definition fault_at (n : nat) : nat -> option exn :=
  fun k => if Nat.eqb k n then Some (Interrupted "signal") else None.

Definition registry_root : path := ["srv"; "registry"].
Definition blob_dir : path := ["srv"; "registry"; "blobs"; "sha256"].

Definition registry : Registry :=
  mkRegistry registry_root [("sha256", blob_dir)].

Definition blob (hash text : string) (fs : gmap (list string) node) : gmap (list string) node :=
  <[blob_dir ++ [hash] := File text]> fs.

Definition fs : gmap (list string) node :=
  blob "aa" "manifest a" (blob "c0" "config a"
  (blob "bb" "manifest b" (blob "c1" "config b"
  (blob "cc" "manifest c" (blob "c2" "config c"
  (blob "1a" "archive 1" (blob "1b" "archive 2"
  (<[blob_dir := Dir]> (<[["srv"; "registry"; "blobs"] := Dir]>
  (<[["srv"; "registry"] := Dir]> (<[["srv"] := Dir]> ∅))))))))))).

Definition world : World := mkWorld fs empty_repo 0 [].

Definition P0 : Platform := platform no_fault.
Definition aa : string := "sha256:aa".

End Demo.

(** More images, and files waiting to be added to the registry, for the
    runs of the later sections. *)
Module Demo2.

Definition labels_bad_metadata : list (string * json) :=
  [ ("org.flatpak.ref", JStr "app/org.example.App/x86_64/stable");
    ("org.flatpak.timestamp", JStr "1700000000");
    ("org.flatpak.subject", JStr "Export");
    ("org.flatpak.body", JStr "Body");
    ("org.flatpak.commit-metadata.xa.bad", JStr "not base64") ].

Definition config_no_diff_ids : json :=
  JObj [ ("config", JObj [("Labels", JObj Demo.labels_a)]);
         ("rootfs", JObj [("diff_ids", JArr [])]) ].

Definition manifest_d : json :=
  JObj [ ("config", JObj [("digest", JStr "sha256:c0")]);
         ("layers", JArr [ JObj [("digest", JStr "sha256:1c")] ]) ].
Definition manifest_e : json :=
  JObj [ ("config", JObj [("digest", JStr "sha256:c4")]); ("layers", JArr []) ].
Definition manifest_f : json :=
  JObj [ ("config", JObj [("digest", JStr "sha256:c5")]); ("layers", JArr []) ].

(** An image with the config, and so the ref, of the image [sha256:aa]. *)
Definition manifest_g : json :=
  JObj [ ("config", JObj [("digest", JStr "sha256:c0")]);
         ("layers", JArr [ JObj [("digest", JStr "sha256:1a")] ]) ].

Definition documents : list (string * json) :=
  Demo.documents ++
  [ ("manifest d", manifest_d);
    ("manifest e", manifest_e);
    ("config e", config_no_diff_ids);
    ("manifest f", manifest_f);
    ("config f", Demo.config_of labels_bad_metadata);
    ("manifest g", manifest_g) ].

Definition platform : Platform :=
  {| decode_text := decode_text Demo.P0;
     json_loads := fun text => assoc text documents;
     json_dumps := json_dumps Demo.P0;
     sha256sum_stdout := sha256sum_stdout Demo.P0;
     b64decode := b64decode Demo.P0;
     variant_from_bytes := variant_from_bytes Demo.P0;
     int_of_str := int_of_str Demo.P0;
     untar := untar Demo.P0;
     merge_directory := merge_directory Demo.P0;
     tree_checksum := tree_checksum Demo.P0;
     commit_checksum := commit_checksum Demo.P0;
     temp_name := temp_name Demo.P0;
     fault := Demo.no_fault |}.

Definition incoming : path := ["srv"; "incoming"].
Definition one_tar : path := ["srv"; "incoming"; "one.tar"].
Definition two_tar : path := ["srv"; "incoming"; "two.tar"].

(** A file with a backslash in its name. *)
Definition odd_tar : path := ["srv"; "incoming"; "odd\name.tar"].

(** Bytes that are not text. *)
Definition not_text : string := String "255" (String "254" "").

Definition fs : gmap (list string) node :=
  Demo.blob "dd" "manifest d" (Demo.blob "ee" "manifest e" (Demo.blob "c4" "config e"
  (Demo.blob "ff" "manifest f" (Demo.blob "c5" "config f"
  (Demo.blob "ab" "manifest g" (Demo.blob "ba" not_text
  (<[one_tar := File "archive 1"]> (<[two_tar := File "archive 1"]>
  (<[odd_tar := File "archive 1"]>
  (<[incoming := Dir]> Demo.fs)))))))))).

Definition world : World := mkWorld fs empty_repo 0 [].

(** The descriptor of the layer archive once it is in the registry. *)
Definition layer_info : json :=
  JObj [ ("digest", JStr "sha256:00"); ("size", JNum 9);
         ("mediaType", JStr "application/vnd.oci.image.layer.v1.tar") ].

(** The descriptor of an archive whose name has a backslash: the line
    that [sha256sum] prints for it starts with one. *)
Definition odd_layer_info : json :=
  JObj [ ("digest", JStr ("sha256:" +:+ String "092" "00")); ("size", JNum 9);
         ("mediaType", JStr "application/vnd.oci.image.layer.v1.tar") ].

(** The revision of the commit that the import of [sha256:aa] writes. *)
Definition rev_aa : string := "rev-etc/motd=hello;bin/app=v2;-aa".

End Demo2.

(** ** Reasoning about the monad *)

Lemma bind_Return {A B} (m : M A) (k : A -> M B) w w' b :
  bind m k w = (w', Return b) ->
  exists a w1, m w = (w1, Return a) /\ k a w1 = (w', Return b).
Proof.
  unfold bind. destruct (m w) as [w1 [e|a]]; intros H.
  - discriminate.
  - eauto.
Qed.

Lemma bind_Raise {A B} (m : M A) (k : A -> M B) w w' e :
  bind m k w = (w', Raise e) ->
  m w = (w', Raise e) \/
  exists a w1, m w = (w1, Return a) /\ k a w1 = (w', Raise e).
Proof.
  unfold bind. destruct (m w) as [w1 [e1|a]]; intros H.
  - left. congruence.
  - right. eauto.
Qed.

Lemma bind_step {A B} (m : M A) (k : A -> M B) w w1 a :
  m w = (w1, Return a) -> bind m k w = k a w1.
Proof. unfold bind. intros ->. reflexivity. Qed.

Lemma bind_lift {A B} (r : result A) (k : A -> M B) w a :
  r = Return a -> bind (lift r) k w = k a w.
Proof. intros ->. reflexivity. Qed.

Lemma lift_Return {A} (r : result A) w w' a :
  lift r w = (w', Return a) -> w' = w /\ r = Return a.
Proof. unfold lift. intros H. by simplify_eq. Qed.

Lemma rbind_Return {A B} (r : result A) (k : A -> result B) b :
  rbind r k = Return b -> exists a, r = Return a /\ k a = Return b.
Proof. destruct r; simpl; [discriminate | eauto]. Qed.

(** Successful runs are taken apart one bind at a time: [inv_step] names
    the value, the world and the equation of the first step; [inv_pure]
    does the same for a pure step, which leaves the world alone. *)
Tactic Notation "inv_step" hyp(H) "as" ident(x) ident(w1) ident(E) :=
  apply bind_Return in H as (x & w1 & E & H).

Tactic Notation "inv_pure" hyp(H) "as" ident(x) ident(E) :=
  let w1 := fresh "w" in
  let H1 := fresh "Hstep" in
  apply bind_Return in H as (x & w1 & H1 & H);
  apply lift_Return in H1 as [-> E].

Section Preserves.

Context (R : World -> World -> Prop).
Context (R_refl : forall w, R w w).
Context (R_trans : forall w1 w2 w3, R w1 w2 -> R w2 w3 -> R w1 w3).

Lemma preserves_ret {A} (a : A) : preserves R (ret a).
Proof using R_refl. intros w w' r H. unfold ret in H. by simplify_eq. Qed.

Lemma preserves_raise {A} e : preserves R (@raise A e).
Proof using R_refl. intros w w' r H. unfold raise in H. by simplify_eq. Qed.

Lemma preserves_lift {A} (x : result A) : preserves R (lift x).
Proof using R_refl. intros w w' r H. unfold lift in H. by simplify_eq. Qed.

Lemma preserves_get_fs : preserves R get_fs.
Proof using R_refl. intros w w' r H. unfold get_fs in H. by simplify_eq. Qed.

Lemma preserves_get_repo : preserves R get_repo.
Proof using R_refl. intros w w' r H. unfold get_repo in H. by simplify_eq. Qed.

Lemma preserves_bind {A B} (m : M A) (k : A -> M B) :
  preserves R m -> (forall a, preserves R (k a)) -> preserves R (bind m k).
Proof using R_trans.
  intros Hm Hk w w' r H. unfold bind in H.
  destruct (m w) as [w1 [e|a]] eqn:E.
  - simplify_eq. eapply Hm, E.
  - eapply R_trans; [eapply Hm, E | eapply Hk, H].
Qed.

Lemma preserves_try {A} (body : M A) (handler : M unit) :
  preserves R body -> preserves R handler ->
  preserves R (try_except_reraise body handler).
Proof using R_trans.
  intros Hb Hh w w' r H. unfold try_except_reraise in H.
  destruct (body w) as [w1 [e|a]] eqn:E.
  - destruct (handler w1) as [w2 [e'|u]] eqn:E'; simplify_eq;
      (eapply R_trans; [eapply Hb, E | eapply Hh, E']).
  - simplify_eq. eapply Hb, E.
Qed.

Lemma preserves_weaken {A} (m : M A) : preserves R m -> preserves_on_raise R m.
Proof. intros H w w' e. apply H. Qed.

Lemma preserves_on_raise_bind {A B} (m : M A) (k : A -> M B) :
  preserves R m -> (forall a, preserves_on_raise R (k a)) ->
  preserves_on_raise R (bind m k).
Proof using R_trans.
  intros Hm Hk w w' e H. apply bind_Raise in H as [H | (a & w1 & H1 & H)].
  - eapply Hm, H.
  - eapply R_trans; [eapply Hm, H1 | eapply Hk, H].
Qed.

End Preserves.

(** The relations are preorders. *)
Lemma same_fs_refl w : same_fs w w.
Proof. reflexivity. Qed.
Lemma same_fs_trans w1 w2 w3 : same_fs w1 w2 -> same_fs w2 w3 -> same_fs w1 w3.
Proof. unfold same_fs. congruence. Qed.
Lemma same_repo_refl w : same_repo w w.
Proof. reflexivity. Qed.
Lemma same_repo_trans w1 w2 w3 : same_repo w1 w2 -> same_repo w2 w3 -> same_repo w1 w3.
Proof. unfold same_repo. congruence. Qed.
Lemma same_visible_refl w : same_visible w w.
Proof. reflexivity. Qed.
Lemma same_visible_trans w1 w2 w3 :
  same_visible w1 w2 -> same_visible w2 w3 -> same_visible w1 w3.
Proof. unfold same_visible. congruence. Qed.
Lemma adds_refl Q w : adds Q w w.
Proof. exists []. split; [unfold added; by rewrite app_nil_r | constructor]. Qed.
Lemma adds_trans Q w1 w2 w3 : adds Q w1 w2 -> adds Q w2 w3 -> adds Q w1 w3.
Proof.
  intros (e1 & H1 & F1) (e2 & H2 & F2). exists (e1 ++ e2). split.
  - unfold added in *. rewrite H2, H1. by rewrite app_assoc.
  - by apply Forall_app.
Qed.
Lemma eq_trans_world (w1 w2 w3 : World) : w1 = w2 -> w2 = w3 -> w1 = w3.
Proof. congruence. Qed.

(** ** Strings and paths *)

Local Arguments String.append !_ _ : simpl nomatch.

Lemma append_snoc (a : string) c (r : string) :
  (a +:+ String c EmptyString) +:+ r = a +:+ String c r.
Proof. induction a as [|x a IH]; simpl; [done | by rewrite IH]. Qed.

Lemma split_acc_free sep cur s :
  free_of sep s = true -> split_acc sep cur s = [cur +:+ s].
Proof.
  revert cur. induction s as [|c r IH]; intros cur H; simpl in *.
  - f_equal. induction cur as [|x cur IHc]; simpl; [done | by rewrite <- IHc].
  - apply andb_prop in H as [Hc Hr]. apply negb_true_iff in Hc. rewrite Hc.
    rewrite IH by done. by rewrite append_snoc.
Qed.

Lemma hex_digit_not_slash c : hex_digit c = true -> Ascii.eqb c "/" = false.
Proof.
  intros H. destruct (Ascii.eqb_spec c "/") as [->|]; [|done].
  vm_compute in H. discriminate.
Qed.

Lemma all_hex_free s : all_hex s = true -> free_of "/" s = true.
Proof.
  induction s as [|c r IH]; simpl; [done|]. intros H.
  apply andb_prop in H as [Hc Hr]. rewrite (hex_digit_not_slash c Hc). simpl. auto.
Qed.

Lemma joinpath_hex dir want :
  is_hex_hash want -> joinpath dir want = dir ++ [want].
Proof.
  intros [Hne Hhex]. unfold joinpath.
  assert (startswith "/" want = false) as ->.
  { destruct want as [|c r]; [done|].
    assert (Ascii.eqb "/" c = false) as Hs.
    { rewrite Ascii.eqb_sym. apply hex_digit_not_slash.
      cbn [all_hex] in Hhex. by apply andb_prop in Hhex as [? _]. }
    cbn [startswith]. by rewrite Hs. }
  f_equal. unfold components, split.
  rewrite split_acc_free by by apply all_hex_free. simpl.
  rewrite filter_cons, decide_True; [done|].
  split; [done|]. intros ->. vm_compute in Hhex. discriminate.
Qed.

Lemma cut_free sep a b :
  free_of sep a = true -> cut sep (a +:+ String sep b) = Some (a, b).
Proof.
  induction a as [|c a IH]; simpl; intros H.
  - by rewrite Ascii.eqb_refl.
  - apply andb_prop in H as [Hc Ha]. apply negb_true_iff in Hc. rewrite Hc.
    by rewrite IH.
Qed.

Lemma cut_join sep s a b : cut sep s = Some (a, b) -> s = a +:+ String sep b.
Proof.
  revert a. induction s as [|c r IH]; simpl; intros a H; [discriminate|].
  destruct (Ascii.eqb_spec c sep) as [->|Hne].
  - by simplify_eq.
  - destruct (cut sep r) as [[a' b']|] eqn:E; [|discriminate].
    simplify_eq. simpl. f_equal. by apply IH.
Qed.

(** Walking down through directories that are there. *)
Lemma absent_error_dirs (fs : gmap (list string) node) above d rest :
  (forall k, k <> [] -> k `prefix_of` d -> fs !! (above ++ k) = Some Dir) ->
  absent_error fs above (d ++ rest) = absent_error fs (above ++ d) rest.
Proof.
  revert above. induction d as [|c d IH]; intros above Hdirs.
  - by rewrite app_nil_r.
  - cbn [app absent_error]. rewrite (Hdirs [c]).
    + change (above ++ c :: d) with (above ++ [c] ++ d). rewrite app_assoc.
      apply IH. intros k Hk Hpre. rewrite <- app_assoc. apply Hdirs; [done|].
      by apply prefix_cons.
    + done.
    + apply prefix_cons, prefix_nil.
Qed.

Lemma absent_error_cases (fs : gmap (list string) node) above below :
  absent_error fs above below = FileNotFoundError \/
  absent_error fs above below = NotADirectoryError.
Proof.
  revert above. induction below as [|c below' IH]; intros above; cbn [absent_error].
  - by left.
  - destruct (fs !! (above ++ [c])) as [[|data]|]; [apply IH | | by left].
    destruct below'; [by left | by right].
Qed.

(** ** The registry *)

Section RegistryFacts.

Context (P : Platform).

(** C8, as amended.  For a digest [algorithm:want]: when the registry has
    no blob directory for the algorithm, [path_for_blob] returns [None]
    and raises nothing; when it has one, and [want] is a hexadecimal hash,
    it returns the path of [want] inside that directory. *)
Theorem path_for_blob_cases (self : Registry) (algorithm want : string) :
  free_of ":" algorithm = true ->
  match assoc algorithm (blobs self) with
  | None =>
      path_for_blob self (JStr (algorithm +:+ ":" +:+ want)) = Return None
  | Some dir =>
      is_hex_hash want ->
      path_for_blob self (JStr (algorithm +:+ ":" +:+ want)) = Return (Some (dir ++ [want]))
  end.
Proof.
  intros Hfree. unfold path_for_blob, json_split1, split1. simpl.
  change (algorithm +:+ ":" +:+ want) with (algorithm +:+ String ":" want).
  rewrite (cut_free ":" algorithm want Hfree). simpl.
  destruct (assoc algorithm (blobs self)) as [dir|]; [|done].
  intros Hhex. by rewrite joinpath_hex.
Qed.

(** C6.  When the root does not exist, [Registry.__init__] raises from
    [init]: the layout file is opened inside a directory that nothing
    has created.  The file system is left as it was.  The exception is the
    one that opening the layout file gives: [FileNotFoundError] when the
    directories above the root are there, [NotADirectoryError] when a
    regular file is met on the way down. *)
Theorem Registry_new_missing_root_raises (root : path) (w : World) :
  exists_ (w_fs w) root = false ->
  w_fs w !! (root ++ ["oci-layout"]) = None ->
  Registry_new P root w
    = (w, Raise (absent_error (w_fs w) [] (root ++ ["oci-layout"]))) /\
  ((forall k, k <> [] -> k `prefix_of` parent root -> w_fs w !! k = Some Dir) ->
   Registry_new P root w = (w, Raise FileNotFoundError)).
Proof.
  intros Hex Hlayout.
  assert (Registry_new P root w
          = (w, Raise (absent_error (w_fs w) [] (root ++ ["oci-layout"])))) as Hraise.
  { unfold Registry_new, bind, get_fs. rewrite Hex. simpl.
    unfold Registry_init, open_write, fs_step.
    change (joinpath root "oci-layout") with (root ++ ["oci-layout"]).
    unfold write_file.
    assert (is_dir (w_fs w) (root ++ ["oci-layout"]) = false) as ->.
    { unfold is_dir. rewrite Hlayout. by destruct root. }
    unfold parent. rewrite removelast_last.
    assert (is_dir (w_fs w) root = false) as ->.
    { unfold is_dir, exists_ in *. destruct root as [|c rest]; [done|].
      by destruct (w_fs w !! (c :: rest)). }
    done. }
  split; [done|]. intros Hdirs. rewrite Hraise. do 2 f_equal.
  destruct (exists_last (l := root)) as (d & c & Hroot).
  { intros ->. discriminate. }
  subst root. unfold parent in Hdirs. rewrite removelast_last in Hdirs.
  rewrite <- app_assoc. rewrite (absent_error_dirs _ [] d _ Hdirs).
  cbn [app absent_error].
  assert (w_fs w !! (d ++ [c]) = None) as ->; [|done].
  unfold exists_ in Hex. destruct (d ++ [c]) as [|x l]; [discriminate|].
  by destruct (w_fs w !! (x :: l)).
Qed.

(** C7.  [blobs_add_json] never returns a descriptor: [mkstemp] gives a
    pair, and [open] raises on it (or [mkstemp] itself has raised). *)
Theorem blobs_add_json_raises (self : Registry) (js : json) (mtype algorithm : string)
    (w : World) :
  exists e, snd (blobs_add_json P self js mtype algorithm w) = Raise e.
Proof.
  unfold blobs_add_json, bind.
  destruct (mkstemp P (root self) ".temp-" w) as [w1 [e|[fd name]]].
  - by exists e.
  - exists TypeError. reflexivity.
Qed.

(** Where [mkstemp] succeeds the exception is the [TypeError] of [open],
    and the temporary file stays behind. *)
Lemma blobs_add_json_leaks (self : Registry) js mtype algorithm w w1 fd name :
  mkstemp P (root self) ".temp-" w = (w1, Return (fd, name)) ->
  blobs_add_json P self js mtype algorithm w = (w1, Raise TypeError) /\
  w_fs w1 !! name = Some (File "").
Proof.
  intros H. split.
  - unfold blobs_add_json, bind. by rewrite H.
  - unfold mkstemp in H. destruct (write_file _ _ _) as [e|fs'] eqn:E; simplify_eq.
    simpl. unfold write_file in E. repeat case_match; simplify_eq.
    by rewrite lookup_insert_eq.
Qed.

(** [mkdir] with [parents] and [exist_ok] leaves what exists as it is,
    and doing it again changes nothing. *)
Lemma mkdirs_preserves fs above below fs' (q : list string) n :
  mkdirs fs above below = Return fs' -> fs !! q = Some n -> fs' !! q = Some n.
Proof.
  revert fs above. induction below as [|c below' IH]; intros fs above H Hq;
    cbn [mkdirs] in H.
  - by injection H as <-.
  - destruct (fs !! (above ++ [c])) as [[|data]|] eqn:Hp.
    + by apply (IH _ _ H).
    + discriminate.
    + apply (IH _ _ H). rewrite lookup_insert_ne; [done|]. congruence.
Qed.

Lemma mkdirs_idempotent fs above below fs' :
  mkdirs fs above below = Return fs' -> mkdirs fs' above below = Return fs'.
Proof.
  revert fs above. induction below as [|c below' IH]; intros fs above H;
    cbn [mkdirs] in *.
  - done.
  - destruct (fs !! (above ++ [c])) as [[|data]|] eqn:Hp.
    + rewrite (mkdirs_preserves _ _ _ _ _ _ H Hp). by apply (IH _ _ H).
    + discriminate.
    + rewrite (mkdirs_preserves _ _ _ _ (above ++ [c]) Dir H)
        by apply lookup_insert_eq.
      by apply (IH _ _ H).
Qed.

Lemma mkdirs_creates fs above below fs' :
  mkdirs fs above below = Return fs' -> below <> [] ->
  fs' !! (above ++ below) = Some Dir.
Proof.
  revert fs above. induction below as [|c below' IH]; intros fs above H Hne; [done|].
  cbn [mkdirs] in H. destruct below' as [|c' below''].
  - cbn [mkdirs] in H.
    destruct (fs !! (above ++ [c])) as [[|data]|] eqn:Hp; try discriminate.
    + by injection H as <-.
    + injection H as <-. apply lookup_insert_eq.
  - replace (above ++ c :: c' :: below'') with ((above ++ [c]) ++ c' :: below'')
      by by rewrite <- app_assoc.
    destruct (fs !! (above ++ [c])) as [[|data]|] eqn:Hp; try discriminate.
    + by apply (IH _ _ H).
    + by apply (IH _ _ H).
Qed.


(** A digest with an empty hash names the blob directory itself, which
    cannot be read as a blob. *)
Lemma empty_hash_not_readable (registry : Registry) (dir : path) (w w' : World) js :
  blobs registry = [("sha256", dir)] ->
  w_fs w !! dir = Some Dir ->
  blobs_get_json P registry (JStr "sha256:") w <> (w', Return js).
Proof.
  intros Hblobs Hdir H. unfold blobs_get_json, path_for_blob in H. rewrite Hblobs in H.
  cbn in H. rewrite decide_True in H by done.
  rewrite decide_False in H by (intros [? _]; done).
  unfold bind, lift, open_load, bind, get_fs, lift in H.
  rewrite app_nil_r in H. unfold read_file in H. rewrite Hdir in H.
  by destruct dir.
Qed.

(** The second half of C6 holds of the code: a registry that was set up
    once is set up again to the same effect, and its files are left as
    they are. *)
Lemma Registry_new_idempotent (root : path) (w w1 : World) (registry : Registry) :
  Registry_new P root w = (w1, Return registry) ->
  Registry_new P root w1 = (w1, Return registry).
Proof.
  intros H. unfold Registry_new, bind, get_fs in *.
  destruct (exists_ (w_fs w) root) eqn:Hex; cbn [negb] in H.
  2:{ exfalso. unfold Registry_init, open_write, fs_step in H.
      change (joinpath root "oci-layout") with (root ++ ["oci-layout"]) in H.
      unfold write_file, parent in H. rewrite removelast_last in H.
      assert (is_dir (w_fs w) root = false) as Hdir.
      { unfold is_dir, exists_ in *. destruct root as [|c rest]; [done|].
        by destruct (w_fs w !! (c :: rest)). }
      rewrite Hdir in H. by destruct (is_dir (w_fs w) (root ++ ["oci-layout"])). }
  unfold ret in H. cbn [Registry_blob_dirs] in *. unfold bind, fs_step, mkdir_parents in *.
  destruct (mkdirs (w_fs w) [] (joinpath (joinpath root "blobs") "sha256"))
    as [e|fs1] eqn:Hmk; [discriminate|].
  unfold ret in H. injection H as <- <-. cbn [with_fs w_fs].
  assert (exists_ fs1 root = true) as ->.
  { unfold exists_ in *. destruct root as [|c rest]; [done|].
    destruct (w_fs w !! (c :: rest)) as [n|] eqn:Hn; [|discriminate].
    by rewrite (mkdirs_preserves _ _ _ _ _ _ Hmk Hn). }
  cbn [negb]. unfold ret.
  change (w_fs (with_fs w fs1)) with fs1. by rewrite (mkdirs_idempotent _ _ _ _ Hmk).
Qed.

End RegistryFacts.

(** ** Footprints of the steps *)

(** What each primitive step leaves alone. *)
Ltac prim_step :=
  let w := fresh "w" in
  let w' := fresh "w'" in
  let r := fresh "r" in
  let H := fresh "H" in
  intros w w' r H;
  unfold external, emit, repo_step, fs_step, abort_transaction, mkstemp in H;
  repeat case_match; simplify_eq; try reflexivity.

Section Footprints.

Context (P : Platform).

Lemma external_same_fs : preserves same_fs (external P).
Proof. prim_step. Qed.
Lemma emit_same_fs e : preserves same_fs (emit e).
Proof. prim_step. Qed.
Lemma repo_step_same_fs f : preserves same_fs (repo_step f).
Proof. prim_step. Qed.
Lemma abort_same_fs : preserves same_fs abort_transaction.
Proof. prim_step. Qed.

Lemma external_same_repo : preserves same_repo (external P).
Proof. prim_step. Qed.
Lemma emit_same_repo e : preserves same_repo (emit e).
Proof. prim_step. Qed.
Lemma fs_step_same_repo f : preserves same_repo (fs_step f).
Proof. prim_step. Qed.

Lemma external_same_visible : preserves same_visible (external P).
Proof. prim_step. Qed.
Lemma emit_same_visible e : preserves same_visible (emit e).
Proof. prim_step. Qed.
Lemma abort_same_visible : preserves same_visible abort_transaction.
Proof. prim_step. Qed.
Lemma prepare_same_visible : preserves same_visible (repo_step prepare).
Proof. prim_step. unfold prepare in *. by case_match; simplify_eq. Qed.
Lemma stage_same_visible f : preserves same_visible (repo_step (stage f)).
Proof. prim_step. unfold stage in *. by case_match; simplify_eq. Qed.

Lemma adds_nothing Q w w' : w_trace w' = w_trace w -> adds Q w w'.
Proof. intros H. exists []. split; [unfold added; by rewrite app_nil_r | constructor]. Qed.

Lemma external_adds Q : preserves (adds Q) (external P).
Proof. prim_step; by apply adds_nothing. Qed.
Lemma repo_step_adds Q f : preserves (adds Q) (repo_step f).
Proof. prim_step; by apply adds_nothing. Qed.
Lemma fs_step_adds Q f : preserves (adds Q) (fs_step f).
Proof. prim_step; by apply adds_nothing. Qed.
Lemma emit_adds (Q : event -> Prop) e : Q e -> preserves (adds Q) (emit e).
Proof. intros HQ. prim_step. exists [e]. split; [done | by repeat constructor]. Qed.
Lemma abort_adds (Q : event -> Prop) : Q RepoAbort -> preserves (adds Q) abort_transaction.
Proof. intros HQ. prim_step. exists [RepoAbort]. split; [done | by repeat constructor]. Qed.

End Footprints.

Create HintDb footprint.
#[export] Hint Resolve external_same_fs emit_same_fs repo_step_same_fs abort_same_fs
  external_same_repo emit_same_repo fs_step_same_repo
  external_same_visible emit_same_visible abort_same_visible
  prepare_same_visible stage_same_visible
  external_adds repo_step_adds fs_step_adds emit_adds abort_adds : footprint.

Ltac preorder :=
  first [ exact same_fs_refl | exact same_fs_trans
        | exact same_repo_refl | exact same_repo_trans
        | exact same_visible_refl | exact same_visible_trans
        | exact (adds_refl _) | exact (adds_trans _)
        | exact (@eq_refl World) | exact eq_trans_world ].

(** Follows the structure of a computation: binds, branches, pure
    steps, and the steps already known. *)
Ltac footprint :=
  repeat first
    [ solve [eauto with footprint]
    | match goal with
      | |- preserves _ (ret _) => apply preserves_ret; preorder
      | |- preserves _ (raise _) => apply preserves_raise; preorder
      | |- preserves _ (lift _) => apply preserves_lift; preorder
      | |- preserves _ get_fs => apply preserves_get_fs; preorder
      | |- preserves _ get_repo => apply preserves_get_repo; preorder
      | |- preserves _ (bind _ _) => apply preserves_bind; [preorder | | intros ?]
      | |- preserves _ (try_except_reraise _ _) => apply preserves_try; [preorder | | ]
      | |- preserves _ (match ?x with _ => _ end) => destruct x
      | |- preserves _ (let (_, _) := ?x in _) => destruct x
      end ].

Section Footprints2.

Context (P : Platform).

(** Reading a blob changes nothing. *)
Lemma blobs_get_json_pure self digest : preserves eq (blobs_get_json P self digest).
Proof. unfold blobs_get_json, open_load. footprint. Qed.

Lemma import_image_resolve_pure self digest :
  preserves eq (import_image_resolve P self digest).
Proof.
  unfold import_image_resolve. pose proof blobs_get_json_pure. footprint.
Qed.

Lemma iter_commits_pure : preserves eq iter_commits.
Proof. unfold iter_commits. footprint. Qed.

End Footprints2.

#[export] Hint Extern 1 (_ = true) => reflexivity : footprint.
#[export] Hint Extern 1 (_ = false) => reflexivity : footprint.

Ltac on_raise :=
  repeat match goal with
         | |- preserves_on_raise _ (bind _ _) =>
             apply preserves_on_raise_bind; [preorder | footprint | intros ?]
         end.

(** ** import_image: what a failed import leaves behind *)

Section ImportFootprint.

Context (P : Platform).

Section LayerAdds.

Context (Q : event -> Prop).
Context (HL : forall e, layer_event e = true -> Q e).

Lemma run_tar_adds archive : preserves (adds Q) (run_tar P archive).
Proof using HL. unfold run_tar. footprint. Qed.

Lemma write_directory_adds dir mtree :
  preserves (adds Q) (write_directory_to_mtree P dir mtree).
Proof using HL. unfold write_directory_to_mtree. footprint. Qed.

Lemma import_layers_adds registry layers mtree :
  preserves (adds Q) (import_layers P registry layers mtree).
Proof using HL.
  revert mtree. induction layers as [|layer rest IH]; intros mtree; simpl.
  - footprint.
  - unfold import_layer. pose proof run_tar_adds. pose proof write_directory_adds.
    footprint.
Qed.

End LayerAdds.

Lemma layer_event_in_transaction e : layer_event e = true -> in_transaction e = true.
Proof. by destruct e. Qed.

Section Adds.

Context (Q : event -> Prop).
Context (HQ : forall e, in_transaction e = true -> Q e).

Lemma write_mtree_adds mtree : preserves (adds Q) (write_mtree P mtree).
Proof using HQ. unfold write_mtree. footprint. Qed.

Lemma write_commit_adds parent subject body metadata root timestamp :
  preserves (adds Q)
    (write_commit_with_time P parent subject body metadata root timestamp).
Proof using HQ. unfold write_commit_with_time. footprint. Qed.

Lemma set_ref_adds ref rev : preserves (adds Q) (transaction_set_ref P ref rev).
Proof using HQ. unfold transaction_set_ref. footprint. Qed.

Lemma commit_transaction_raise_adds :
  preserves_on_raise (adds Q) (commit_transaction P).
Proof.
  intros w w' e H. unfold commit_transaction, bind, external, repo_step, emit in H.
  repeat case_match; simplify_eq; by apply adds_nothing.
Qed.

Lemma transaction_raise_adds registry manifest parent subject body metadata timestamp ref :
  preserves_on_raise (adds Q)
    (import_image_transaction P registry manifest parent subject body metadata
       timestamp ref).
Proof using HQ.
  unfold import_image_transaction.
  pose proof (import_layers_adds Q (fun e He => HQ e (layer_event_in_transaction e He))).
  pose proof write_mtree_adds.
  pose proof write_commit_adds. pose proof set_ref_adds.
  on_raise. apply commit_transaction_raise_adds.
Qed.

End Adds.

Lemma run_tar_same_fs archive : preserves same_fs (run_tar P archive).
Proof. unfold run_tar. footprint. Qed.

Lemma write_directory_same_fs dir mtree :
  preserves same_fs (write_directory_to_mtree P dir mtree).
Proof. unfold write_directory_to_mtree. footprint. Qed.

Lemma import_layers_same_fs registry layers mtree :
  preserves same_fs (import_layers P registry layers mtree).
Proof.
  revert mtree. induction layers as [|layer rest IH]; intros mtree; simpl.
  - footprint.
  - unfold import_layer, write_directory_to_mtree. pose proof run_tar_same_fs.
    footprint.
Qed.

Lemma import_image_same_fs registry digest :
  preserves same_fs (import_image P registry digest).
Proof.
  unfold import_image, import_image_transaction, prepare_transaction, write_mtree,
    write_commit_with_time, transaction_set_ref, commit_transaction.
  pose proof import_layers_same_fs.
  apply preserves_bind; [preorder | | intros ?].
  - intros w w' r H0. apply import_image_resolve_pure in H0. by subst.
  - footprint.
Qed.

Lemma run_tar_same_visible archive : preserves same_visible (run_tar P archive).
Proof. unfold run_tar. footprint. Qed.

Lemma import_layers_same_visible registry layers mtree :
  preserves same_visible (import_layers P registry layers mtree).
Proof.
  revert mtree. induction layers as [|layer rest IH]; intros mtree; simpl.
  - footprint.
  - unfold import_layer, write_directory_to_mtree. pose proof run_tar_same_visible.
    footprint.
Qed.

Lemma commit_transaction_raise_visible :
  preserves_on_raise same_visible (commit_transaction P).
Proof.
  intros w w' e H. unfold commit_transaction, bind, external, repo_step, emit in H.
  repeat case_match; simplify_eq; reflexivity.
Qed.

Lemma transaction_raise_visible registry manifest parent subject body metadata timestamp ref :
  preserves_on_raise same_visible
    (import_image_transaction P registry manifest parent subject body metadata
       timestamp ref).
Proof.
  unfold import_image_transaction, write_mtree, write_commit_with_time,
    transaction_set_ref, stage_tree, stage_commit, stage_ref.
  pose proof import_layers_same_visible.
  on_raise. apply commit_transaction_raise_visible.
Qed.

(** Opening the transaction: it raises only before the store is touched. *)
Lemma prepare_transaction_cases w w' r :
  txn (w_repo w) = None ->
  prepare_transaction P w = (w', r) ->
  w_fs w' = w_fs w /\
  match r with
  | Raise _ => w_repo w' = w_repo w /\ w_trace w' = w_trace w
  | Return _ =>
      w_repo w' = mkRepo (refs (w_repo w)) (commits (w_repo w)) (trees (w_repo w))
                    (Some empty_txn) /\
      w_trace w' = w_trace w ++ [RepoPrepare]
  end.
Proof.
  intros Htxn H.
  unfold prepare_transaction, bind, external, repo_step, emit, prepare in H.
  rewrite ?Htxn in H. simpl in H. rewrite ?Htxn in H.
  repeat case_match; simplify_eq; simpl in *; simplify_eq; done.
Qed.

Lemma repo_closed (r : Repo) :
  txn r = None -> mkRepo (refs r) (commits r) (trees r) None = r.
Proof. destruct r; simpl; by intros ->. Qed.

(** C1.  When [import_image] raises, the repository is exactly what it
    was before the call: refs, commits and trees are the same and no
    transaction is left open.  Either nothing was done to the store yet, or
    the transaction was opened and the last thing done before the exception
    leaves is the abort; the transaction was not committed in between. *)
Theorem import_image_raise_aborts (registry : Registry) (digest : string)
    (w w' : World) (e : exn) :
  txn (w_repo w) = None ->
  import_image P registry digest w = (w', Raise e) ->
  w_repo w' = w_repo w /\
  w_fs w' = w_fs w /\
  exists evs, added w w' evs /\
    (evs = [] \/
     exists mid, evs = RepoPrepare :: mid ++ [RepoAbort] /\
                 Forall (fun ev => in_transaction ev = true) mid).
Proof.
  intros Htxn H.
  pose proof (import_image_same_fs registry digest _ _ _ H) as Hsame0.
  unfold import_image in H.
  apply bind_Raise in H as [H | (i & w1 & Hres & H)].
  { apply import_image_resolve_pure in H. subst w'.
    repeat split; try done. exists []. split; [|by left].
    unfold added. by rewrite app_nil_r. }
  apply import_image_resolve_pure in Hres. subst w1.
  apply bind_Raise in H as [H | ([] & w2 & Hprep & H)].
  { apply (prepare_transaction_cases _ _ _ Htxn) in H as (Hfs & Hrepo & Htr).
    repeat split; try done. exists []. split; [|by left].
    unfold added. by rewrite app_nil_r. }
  apply (prepare_transaction_cases _ _ _ Htxn) in Hprep as (Hfs & Hrepo & Htr).
  unfold try_except_reraise in H.
  destruct (import_image_transaction _ _ _ _ _ _ _ _ _ w2) as [w3 [e0|u]] eqn:Hbody;
    [|discriminate].
  unfold abort_transaction in H. simplify_eq. simpl.
  pose proof (transaction_raise_visible _ _ _ _ _ _ _ _ _ _ _ Hbody) as Hvis.
  pose proof (transaction_raise_adds (fun ev => in_transaction ev = true)
                (fun _ Hev => Hev) _ _ _ _ _ _ _ _ _ _ _ Hbody) as (mid & Hmid & Hall).
  split; [|split].
  - unfold same_visible, visible in Hvis. rewrite Hrepo in Hvis. simpl in Hvis.
    unfold abort. injection Hvis as -> -> ->. by apply repo_closed.
  - exact Hsame0.
  - exists (RepoPrepare :: mid ++ [RepoAbort]). split.
    + unfold added in *. rewrite Hmid, Htr. by rewrite <- !app_assoc.
    + right. by exists mid.
Qed.

End ImportFootprint.

(** ** import_image: what a successful import does *)

Section ImportSuccess.

Context (P : Platform).

Lemma run_tar_same_repo archive : preserves same_repo (run_tar P archive).
Proof. unfold run_tar. footprint. Qed.

Lemma import_layers_same_repo registry layers mtree :
  preserves same_repo (import_layers P registry layers mtree).
Proof.
  revert mtree. induction layers as [|layer rest IH]; intros mtree; simpl.
  - footprint.
  - unfold import_layer, write_directory_to_mtree. pose proof run_tar_same_repo.
    footprint.
Qed.

Lemma run_tar_Return archive w w' dir :
  run_tar P archive w = (w', Return dir) ->
  exists p data, archive = Some p /\ read_file (w_fs w) p = Return data /\
                 untar P data = Some dir.
Proof.
  unfold run_tar, bind, external, emit, get_fs, raise, ret. intros H.
  repeat case_match; simplify_eq. simpl in *. eauto.
Qed.

Lemma write_directory_Return dir mtree w w' merged :
  write_directory_to_mtree P dir mtree w = (w', Return merged) ->
  merge_directory P dir mtree = Some merged.
Proof.
  unfold write_directory_to_mtree, bind, external, emit, raise, ret. intros H.
  repeat case_match; by simplify_eq.
Qed.

Lemma import_layers_Return registry layers mtree w w' t :
  import_layers P registry layers mtree w = (w', Return t) ->
  exists dirs,
    Forall2 (layer_dir P registry (w_fs w)) layers dirs /\
    merge_all P dirs mtree = Some t.
Proof.
  revert mtree w. induction layers as [|layer rest IH]; intros mtree w H; simpl in H.
  - unfold ret in H. simplify_eq. exists []. split; [constructor | done].
  - inv_pure H as digest Hdigest. inv_pure H as archive Hpath.
    inv_step H as merged w0 Hlayer. unfold import_layer in Hlayer.
    inv_step Hlayer as dir w1 Htar.
    pose proof (run_tar_same_fs P _ _ _ _ Htar) as Hfs1.
    pose proof (write_directory_same_fs P _ _ _ _ _ Hlayer) as Hfs2.
    apply run_tar_Return in Htar as (p & data & -> & Hread & Huntar).
    apply write_directory_Return in Hlayer.
    apply IH in H as (dirs & Hdirs & Hmerge).
    exists (dir :: dirs). split.
    + constructor.
      * exists digest, p, data. done.
      * unfold same_fs in *. by rewrite Hfs2, Hfs1 in Hdirs.
    + simpl. by rewrite Hlayer.
Qed.

Lemma prepare_transaction_Return w w' u :
  prepare_transaction P w = (w', Return u) ->
  txn (w_repo w) = None /\
  w_fs w' = w_fs w /\
  w_repo w' = mkRepo (refs (w_repo w)) (commits (w_repo w)) (trees (w_repo w))
                (Some empty_txn) /\
  w_trace w' = w_trace w ++ [RepoPrepare].
Proof.
  unfold prepare_transaction, bind, external, repo_step, emit, prepare. intros H.
  repeat case_match; simplify_eq; simpl in *; simplify_eq. done.
Qed.

Lemma write_mtree_Return mtree w w' root :
  write_mtree P mtree w = (w', Return root) ->
  root = tree_checksum P mtree /\
  stage_tree root mtree (w_repo w) = Return (w_repo w') /\
  w_trace w' = w_trace w ++ [RepoWriteMtree root].
Proof.
  unfold write_mtree, bind, external, repo_step, emit, ret. intros H.
  repeat case_match; simplify_eq; simpl in *; simplify_eq. done.
Qed.

Lemma write_commit_Return parent subject body metadata root timestamp w w' rev :
  write_commit_with_time P parent subject body metadata root timestamp w = (w', Return rev) ->
  exists p s b,
    as_utf8_nullable parent = Return p /\
    as_utf8_nullable (Some subject) = Return s /\
    as_utf8_nullable (Some body) = Return b /\
    0 <= timestamp < 2 ^ 64 /\
    let c := mkCommit p s b metadata root timestamp in
    rev = commit_checksum P c /\
    stage_commit rev c (w_repo w) = Return (w_repo w') /\
    w_trace w' = w_trace w ++ [RepoWriteCommit rev c].
Proof.
  unfold write_commit_with_time. intros H.
  inv_pure H as p Hp. inv_pure H as s Hs. inv_pure H as b Hb. inv_pure H as ts Hts.
  unfold as_uint64 in Hts. case_decide; [|discriminate]. injection Hts as <-.
  unfold bind, external, repo_step, emit, ret in H.
  repeat case_match; simplify_eq; simpl in *; simplify_eq.
  exists p, s, b. done.
Qed.

Lemma set_ref_Return ref rev w w' u :
  transaction_set_ref P ref rev w = (w', Return u) ->
  exists name,
    as_utf8 ref = Return name /\
    stage_ref name rev (w_repo w) = Return (w_repo w') /\
    w_trace w' = w_trace w ++ [RepoSetRef name rev].
Proof.
  unfold transaction_set_ref. intros H. inv_pure H as name Hname.
  unfold bind, external, repo_step, emit, ret in H.
  repeat case_match; simplify_eq; simpl in *; simplify_eq.
  exists name. done.
Qed.

Lemma commit_transaction_Return w w' u :
  commit_transaction P w = (w', Return u) ->
  publish (w_repo w) = Return (w_repo w') /\
  w_trace w' = w_trace w ++ [RepoCommit].
Proof.
  unfold commit_transaction, bind, external, repo_step, emit. intros H.
  repeat case_match; simplify_eq; simpl in *; simplify_eq. done.
Qed.

(** A successful import: the image resolves, every layer extracts and
    merges, and the repository ends with the new commit published under
    the image's ref. *)
Lemma import_image_Return registry digest w w' u :
  import_image P registry digest w = (w', Return u) ->
  txn (w_repo w) = None /\
  exists i layers dirs mtree c ref layer_evs,
    import_image_resolve P registry digest w = (w, Return i) /\
    rbind (getitem (i_manifest i) "layers") iterate = Return layers /\
    Forall2 (layer_dir P registry (w_fs w)) layers dirs /\
    merge_all P dirs ∅ = Some mtree /\
    commit_of P i mtree c /\
    as_utf8 (i_ref i) = Return ref /\
    w_repo w' = published P (w_repo w) ref c mtree /\
    added w w' (import_trace P layer_evs (i_ref i) ref c) /\
    Forall (fun e => layer_event e = true) layer_evs.
Proof.
  intros H. unfold import_image in H.
  inv_step H as i w0 Hres. pose proof (import_image_resolve_pure P _ _ _ _ _ Hres); subst w0.
  inv_step H as x w0 Hprep.
  apply prepare_transaction_Return in Hprep as (Htxn & Hfs0 & Hrepo0 & Htr0).
  split; [done|].
  unfold try_except_reraise in H.
  destruct (import_image_transaction _ _ _ _ _ _ _ _ _ w0) as [w5 [e0|u']] eqn:Hbody.
  { destruct (abort_transaction w5) as [? [?|?]]; discriminate. }
  injection H as <- _. unfold import_image_transaction in Hbody.
  inv_pure Hbody as layers_json Hlayers. inv_pure Hbody as layers Hiter.
  inv_step Hbody as mtree w1 Himport.
  pose proof (import_layers_same_repo _ _ _ _ _ _ Himport) as Hrepo1.
  destruct (import_layers_adds P (fun e => layer_event e = true)
              (fun e He => He) registry layers ∅ _ _ _ Himport)
    as (layer_evs & Hev & Hall).
  apply import_layers_Return in Himport as (dirs & Hdirs & Hmerge).
  inv_step Hbody as root w2 Hwrite.
  apply write_mtree_Return in Hwrite as (-> & Hst1 & Htr1).
  inv_step Hbody as rev w3 Hcommit.
  apply write_commit_Return in Hcommit
    as (p & sb & b & Hp & Hs & Hb & Hts & -> & Hst2 & Htr2).
  inv_step Hbody as y w4 Hprint. unfold emit in Hprint. injection Hprint as <- _.
  inv_step Hbody as z w4 Hset. apply set_ref_Return in Hset as (name & Hname & Hst3 & Htr3).
  apply commit_transaction_Return in Hbody as (Hpub & Htr4).
  exists i, layers, dirs, mtree,
    (mkCommit p sb b (i_metadata i) (tree_checksum P mtree) (i_timestamp i)), name,
    layer_evs.
  split_and!; try done.
  - by rewrite Hlayers.
  - by rewrite <- Hfs0.
  - exists p, sb, b. done.
  - unfold same_repo in Hrepo1. rewrite Hrepo1, Hrepo0 in Hst1.
    unfold stage_tree, stage_commit, stage_ref, stage, publish in *. simpl in *.
    simplify_eq. rewrite <- Hst1 in Hst2. simpl in Hst2. simplify_eq.
    rewrite <- Hst2 in Hst3. simpl in Hst3. simplify_eq.
    rewrite <- Hst3 in Hpub. simpl in Hpub. simplify_eq.
    rewrite <- Hpub. unfold published. simpl. f_equal.
    + rewrite insert_empty. symmetry. apply insert_union_singleton_l.
    + rewrite insert_empty. symmetry. apply insert_union_singleton_l.
    + rewrite insert_empty. symmetry. apply insert_union_singleton_l.
  - unfold added, import_trace in *. simpl.
    rewrite Htr4, Htr3. simpl. rewrite Htr2, Htr1, Hev, Htr0.
    by rewrite <- !app_assoc.
Qed.

End ImportSuccess.

(** ** The merged tree *)

Lemma latest_spec (dirs : list (gmap string string)) (p e : string) :
  latest dirs p = Some e <->
  exists before d after,
    dirs = before ++ d :: after /\ d !! p = Some e /\
    Forall (fun d' : gmap string string => d' !! p = None) after.
Proof.
  induction dirs as [|d rest IH]; simpl.
  - split; [discriminate|]. intros (before & d & after & H & _). by destruct before.
  - destruct (latest rest p) as [e'|] eqn:E.
    + split.
      * intros ?; simplify_eq.
        destruct (proj1 IH eq_refl) as (before & d0 & after & -> & Hd & Hafter).
        exists (d :: before), d0, after. done.
      * intros (before & d0 & after & Heq & Hd & Hafter).
        apply IH. destruct before as [|b before]; simpl in Heq; simplify_eq.
        -- assert (latest after p = None) as Hnone; [|congruence].
           clear -Hafter. induction Hafter as [|x l Hx _ IHl]; simpl; [done|].
           by rewrite IHl.
        -- exists before, d0, after. done.
    + split.
      * intros Hd. exists [], d, rest. split_and!; [done..|].
        clear -E. induction rest as [|x l IHl]; [constructor|].
        simpl in E. destruct (latest l p) eqn:El; [discriminate|].
        constructor; auto.
      * intros (before & d0 & after & Heq & Hd & Hafter).
        destruct before as [|b before]; simpl in Heq; simplify_eq; [done|].
        assert (None = Some e) as Hl; [|discriminate].
        apply IH. exists before, d0, after. done.
Qed.

(** Two layers with a file at the same path: the second layer's. *)
Lemma latest_two (d1 d2 : gmap string string) p e :
  d2 !! p = Some e -> latest [d1; d2] p = Some e.
Proof. intros H. simpl. by rewrite H. Qed.

Section MergedTree.

Context (P : Platform).
Context (Hoverlay : overlay_contract P).

Lemma merge_all_latest dirs mtree merged :
  merge_all P dirs mtree = Some merged ->
  forall p, merged !! p = match latest dirs p with
                          | Some e => Some e
                          | None => mtree !! p
                          end.
Proof using Hoverlay.
  revert mtree. induction dirs as [|d rest IH]; intros mtree H p; simpl in *.
  - by simplify_eq.
  - destruct (merge_directory P d mtree) as [t1|] eqn:E; [|discriminate].
    rewrite (IH _ H p). destruct (latest rest p); [done|].
    rewrite (Hoverlay _ _ _ E p). by destruct (d !! p).
Qed.

(** C5.  The tree of an imported image is the overlay of its layers in
    manifest order: the directories [dirs] are what the layers of the
    manifest extract to, in that order, and every path of the tree that
    the commit points at has the entry of the latest directory having that
    path (and is absent when none has it). *)
Theorem layers_last_writer_wins (registry : Registry) (digest : string)
    (w w' : World) (u : unit) :
  import_image P registry digest w = (w', Return u) ->
  exists i layers dirs mtree c,
    import_image_resolve P registry digest w = (w, Return i) /\
    rbind (getitem (i_manifest i) "layers") iterate = Return layers /\
    Forall2 (layer_dir P registry (w_fs w)) layers dirs /\
    commit_of P i mtree c /\
    commits (w_repo w') !! commit_checksum P c = Some c /\
    trees (w_repo w') !! c_root c = Some mtree /\
    forall p, mtree !! p = latest dirs p.
Proof using Hoverlay.
  intros H. apply import_image_Return in H
    as (_ & i & layers & dirs & mtree & c & ref & evs & Hres & Hlay & Hdirs & Hmerge
        & Hc & _ & Hrepo & _).
  exists i, layers, dirs, mtree, c. split_and!; try done.
  - rewrite Hrepo. simpl. apply lookup_insert_eq.
  - rewrite Hrepo. simpl. apply lookup_insert_eq.
  - intros p. rewrite (merge_all_latest _ _ _ Hmerge p).
    rewrite lookup_empty. by destruct (latest dirs p).
Qed.

End MergedTree.

(** ** The metadata of the commit *)

Section Metadata.

Context (P : Platform).

Lemma add_label_entries_spec items builder md :
  add_label_entries P items builder = Return md ->
  exists entries,
    md = builder ++ entries /\
    Forall2 (metadata_entry_of P) (List.filter is_metadata_label items) entries.
Proof.
  revert builder.
  induction items as [|[k v] rest IH]; intros builder H; cbn [add_label_entries] in H.
  - simplify_eq. exists []. split; [by rewrite app_nil_r | constructor].
  - cbn [List.filter]. unfold is_metadata_label at 1. cbn [fst].
    destruct (startswith METADATA_PREFIX k) eqn:Hk; cbn [negb] in H.
    + apply rbind_Return in H as (binary & Hdec & H).
      apply IH in H as (entries & -> & Hall).
      eexists (_ :: entries). split; [by rewrite <- app_assoc|].
      constructor; [|done].
      unfold py_b64decode in Hdec. destruct v; try discriminate.
      destruct (is_ascii s) eqn:Hascii; [|discriminate].
      destruct (b64decode P s) as [bytes|] eqn:Hb; [|discriminate].
      injection Hdec as <-. exists s, bytes. done.
    + by apply IH.
Qed.

(** What a successful resolution has read. *)
Lemma import_image_resolve_Return registry digest w w' i :
  import_image_resolve P registry digest w = (w', Return i) ->
  exists manifest config labels algorithm hash diff_ids last_diff algorithm' hash' entries,
    image_config P registry w digest manifest config labels /\
    i_manifest i = manifest /\
    cut ":" digest = Some (algorithm, hash) /\
    (exists rootfs, getitem config "rootfs" = Return rootfs /\
                    getitem rootfs "diff_ids" = Return diff_ids) /\
    getitem_last diff_ids = Return (JStr last_diff) /\
    cut ":" last_diff = Some (algorithm', hash') /\
    add_label_entries P labels [] = Return entries /\
    i_metadata i =
      entries ++ [("xa.alt-id", VString hash); ("xa.diff-id", VString hash')].
Proof.
  intros H. unfold import_image_resolve in H.
  inv_step H as manifest w1 Hm. pose proof (blobs_get_json_pure P _ _ _ _ _ Hm); subst w1.
  inv_pure H as cfgdesc Hcfgdesc. inv_pure H as cfgdigest Hcfgdigest.
  inv_step H as config w1 Hc. pose proof (blobs_get_json_pure P _ _ _ _ _ Hc); subst w1.
  inv_pure H as config_config Hcc. inv_pure H as labels Hlabels.
  inv_pure H as ref Href. inv_pure H as parent Hparent.
  inv_pure H as timestamp_label Htl. inv_pure H as timestamp Hts.
  inv_pure H as subject Hsubject. inv_pure H as body Hbody.
  inv_pure H as items Hitems. inv_pure H as builder Hbuilder.
  inv_pure H as parts1 Hparts1. destruct parts1 as [algorithm hash].
  inv_pure H as rootfs Hrootfs. inv_pure H as diff_ids Hdiff.
  inv_pure H as last_diff_id Hlast. inv_pure H as parts Hparts.
  inv_pure H as parts2 Hparts2. destruct parts2 as [algorithm' hash'].
  unfold ret in H. injection H as <- <-. cbn [i_manifest i_metadata].
  unfold dict_items in Hitems. destruct labels; try discriminate.
  injection Hitems as ->.
  unfold json_split1 in Hparts. destruct last_diff_id as [| | |s| |]; try discriminate.
  injection Hparts as <-.
  unfold unpack2, split1 in Hparts1, Hparts2.
  destruct (cut ":" digest) as [[x y]|] eqn:Hc1; [|discriminate].
  destruct (cut ":" s) as [[x' y']|] eqn:Hc2; [|discriminate].
  injection Hparts1 as -> ->. injection Hparts2 as -> ->.
  exists manifest, config, items, algorithm, hash, diff_ids, s, algorithm', hash', builder.
  split_and!; try done.
  - split_and!; [done | by exists cfgdesc, cfgdigest | by exists config_config].
  - by exists rootfs.
  - by rewrite <- app_assoc.
Qed.

(** C3, as amended.  The metadata of the commit written for an image is:
    for every label of the config whose name starts with
    [org.flatpak.commit-metadata.], in the order of the labels, an entry
    keyed by the rest of the name and holding the payload of the
    base64-decoded value; then the entry [xa.alt-id] with the hash part of
    the image digest; then the entry [xa.diff-id] with the hash part of the
    last diff-id of the config. *)
Theorem commit_metadata_fidelity (registry : Registry) (digest : string)
    (w w' : World) (u : unit) :
  import_image P registry digest w = (w', Return u) ->
  exists manifest config labels algorithm hash diff_ids last_diff algorithm' hash' c entries,
    image_config P registry w digest manifest config labels /\
    cut ":" digest = Some (algorithm, hash) /\
    (exists rootfs, getitem config "rootfs" = Return rootfs /\
                    getitem rootfs "diff_ids" = Return diff_ids) /\
    getitem_last diff_ids = Return (JStr last_diff) /\
    cut ":" last_diff = Some (algorithm', hash') /\
    commits (w_repo w') !! commit_checksum P c = Some c /\
    (exists ref, refs (w_repo w') !! ref = Some (commit_checksum P c)) /\
    c_metadata c =
      entries ++ [("xa.alt-id", VString hash); ("xa.diff-id", VString hash')] /\
    Forall2 (metadata_entry_of P) (List.filter is_metadata_label labels) entries.
Proof.
  intros H. apply import_image_Return in H
    as (_ & i & layers & dirs & mtree & c & ref & evs & Hres & _ & _ & _
        & Hc & _ & Hrepo & _).
  apply import_image_resolve_Return in Hres
    as (manifest & config & labels & algorithm & hash & diff_ids & last_diff
        & algorithm' & hash' & entries & Hcfg & _ & Hcut & Hroot & Hlast & Hcut'
        & Hentries & Hmd).
  apply add_label_entries_spec in Hentries as (entries' & -> & Hall).
  exists manifest, config, labels, algorithm, hash, diff_ids, last_diff, algorithm',
    hash', c, entries'.
  split_and!; try done.
  - rewrite Hrepo. simpl. apply lookup_insert_eq.
  - exists ref. rewrite Hrepo. simpl. apply lookup_insert_eq.
  - destruct Hc as (p & s & b & _ & _ & _ & _ & ->). simpl. by rewrite Hmd.
Qed.

End Metadata.

(** ** Missing labels *)

Lemma bind_raises {A B} (m : M A) (k : A -> M B) w w' e :
  m w = (w', Raise e) -> bind m k w = (w', Raise e).
Proof. unfold bind. by intros ->. Qed.

Section MissingLabel.

Context (P : Platform).

(** The labels are read in the order ref, parent, timestamp, subject,
    body, and the timestamp is converted as soon as it is read. *)
Lemma resolve_missing_label registry digest w manifest config labels key :
  image_config P registry w digest manifest config labels ->
  head (missing_labels labels) = Some key ->
  import_image_resolve P registry digest w
    = (w, Raise (missing_label_error P labels key)).
Proof.
  intros (Hm & (cfgdesc & cfgdigest & Hd1 & Hd2 & Hc) & (cc & Hcc & Hl)) Hkey.
  unfold import_image_resolve.
  rewrite (bind_step _ _ _ _ _ Hm), (bind_lift _ _ _ _ Hd1), (bind_lift _ _ _ _ Hd2).
  rewrite (bind_step _ _ _ _ _ Hc), (bind_lift _ _ _ _ Hcc), (bind_lift _ _ _ _ Hl).
  unfold missing_labels, required_labels in Hkey. cbn [List.filter] in Hkey.
  unfold missing_label_error.
  assert (forall k, getitem (JObj labels) k =
                    match assoc k labels with
                    | Some v => Return v
                    | None => Raise (KeyError k)
                    end) as Hget by reflexivity.
  rewrite !Hget. clear Hget.
  destruct (assoc "org.flatpak.ref" labels) as [ref|] eqn:Href.
  2:{ cbn [head] in Hkey. injection Hkey as <-. by rewrite decide_True. }
  rewrite bind_lift with (a := ref) by done.
  rewrite bind_lift with (a := assoc "org.flatpak.parent-commit" labels) by done.
  destruct (assoc "org.flatpak.timestamp" labels) as [ts|] eqn:Hts.
  2:{ cbn [head] in Hkey. injection Hkey as <-. by rewrite decide_False. }
  rewrite bind_lift with (a := ts) by done.
  assert (key <> "org.flatpak.ref") as Hne.
  { destruct (assoc "org.flatpak.subject" labels), (assoc "org.flatpak.body" labels);
      cbn [head] in Hkey; try discriminate; by injection Hkey as <-. }
  rewrite decide_False by done.
  destruct (py_int P ts) as [e|z] eqn:Hint; [done|].
  rewrite bind_lift with (a := z) by done.
  destruct (assoc "org.flatpak.subject" labels) as [subject|] eqn:Hsubject.
  2:{ cbn [head] in Hkey. by injection Hkey as <-. }
  rewrite bind_lift with (a := subject) by done.
  destruct (assoc "org.flatpak.body" labels) as [body|] eqn:Hbody.
  2:{ cbn [head] in Hkey. by injection Hkey as <-. }
  discriminate.
Qed.

(** C4, as amended.  When the labels of the config lack a required key,
    [import_image] raises and the world, the repository in it, is what it
    was.  The exception is known in every case: it is the [KeyError] of
    the first missing key, in the order ref, timestamp, subject, body,
    when that key is the ref or the timestamp, or when the timestamp
    converts to an integer; otherwise (the subject or the body is the
    first missing key and the timestamp, which is read before them, does
    not convert) it is the error of [int] on the timestamp, [ValueError]
    for a string. *)
Theorem missing_label_fails (registry : Registry) (digest : string) (w : World)
    (manifest config : json) (labels : list (string * json)) (key : string) :
  image_config P registry w digest manifest config labels ->
  head (missing_labels labels) = Some key ->
  import_image P registry digest w = (w, Raise (missing_label_error P labels key)) /\
  (key = "org.flatpak.ref" \/ timestamp_converts P labels ->
   import_image P registry digest w = (w, Raise (KeyError key))) /\
  (forall s, key <> "org.flatpak.ref" ->
             assoc "org.flatpak.timestamp" labels = Some (JStr s) ->
             int_of_str P s = None ->
             import_image P registry digest w = (w, Raise ValueError)).
Proof.
  intros Hcfg Hkey.
  assert (import_image P registry digest w
          = (w, Raise (missing_label_error P labels key))) as Hraise.
  { unfold import_image. apply bind_raises.
    by apply (resolve_missing_label _ _ _ manifest config). }
  split_and!; [done | |].
  - intros Hok. rewrite Hraise. do 2 f_equal. unfold missing_label_error.
    destruct (decide (key = "org.flatpak.ref")) as [|Hne]; [done|].
    destruct Hok as [Hk|Hconv]; [done|].
    destruct (assoc "org.flatpak.timestamp" labels) as [ts|] eqn:Hts; [|done].
    destruct (Hconv ts Hts) as [z Hz]. by rewrite Hz.
  - intros s Hne Hts Hint. rewrite Hraise. do 2 f_equal. unfold missing_label_error.
    rewrite decide_False by done. rewrite Hts. cbn [py_int]. by rewrite Hint.
Qed.

End MissingLabel.

(** ** The driver *)

Lemma count_app f a b : count f (a ++ b) = (count f a + count f b)%nat.
Proof. unfold count. by rewrite List.filter_app, length_app. Qed.

Lemma count_none f evs : Forall (fun e => f e = false) evs -> count f evs = 0%nat.
Proof.
  unfold count. induction 1 as [|e l He _ IH]; simpl; [done|]. by rewrite He.
Qed.

Lemma preserves_pure {A} (R : World -> World -> Prop) (m : M A) :
  (forall w, R w w) -> preserves eq m -> preserves R m.
Proof. intros Hrefl Hm w w' r H. apply Hm in H. by subst. Qed.

Section Driver.

Context (P : Platform).

Section DriverAdds.

Context (Q : event -> Prop).
Context (HQ : forall e, import_event e = true -> Q e).

Lemma in_transaction_import_event e : in_transaction e = true -> import_event e = true.
Proof. by destruct e. Qed.

Lemma import_image_adds registry digest :
  preserves (adds Q) (import_image P registry digest).
Proof using HQ.
  assert (forall e, in_transaction e = true -> Q e) as HT
    by (intros e He; by apply HQ, in_transaction_import_event).
  assert (forall e, layer_event e = true -> Q e) as HL
    by (intros e He; by apply HT, layer_event_in_transaction).
  unfold import_image, import_image_transaction, prepare_transaction, commit_transaction.
  pose proof (import_layers_adds P Q HL). pose proof (write_mtree_adds P Q HT).
  pose proof (write_commit_adds P Q HT). pose proof (set_ref_adds P Q HT).
  apply preserves_bind; [preorder | | intros ?].
  - apply preserves_pure; [apply adds_refl | apply import_image_resolve_pure].
  - footprint.
Qed.

End DriverAdds.

Lemma Registry_new_adds Q root : preserves (adds Q) (Registry_new P root).
Proof.
  unfold Registry_new, Registry_init, open_write. cbn [Registry_blob_dirs]. footprint.
Qed.

Lemma Registry_new_same_repo root : preserves same_repo (Registry_new P root).
Proof.
  unfold Registry_new, Registry_init, open_write. cbn [Registry_blob_dirs]. footprint.
Qed.

Lemma import_images_adds (Q : event -> Prop) registry existing images :
  (forall e, import_event e = true -> Q e) ->
  (forall commit img, In img images -> Q (PrintFound commit img)) ->
  (forall img, In img images -> Q (PrintImporting img)) ->
  preserves (adds Q) (import_images P registry existing images).
Proof.
  intros HQ Hfound Himp.
  induction images as [|img rest IH]; cbn [import_images].
  - footprint.
  - pose proof (import_image_adds Q HQ).
    assert (preserves (adds Q) (import_images P registry existing rest)) as IH'.
    { apply IH; intros; [apply Hfound | apply Himp]; by right. }
    assert (forall commit, Q (PrintFound commit img)) by (intros; apply Hfound; by left).
    assert (Q (PrintImporting img)) by (apply Himp; by left).
    footprint.
Qed.

Lemma run_summary_cases w w' r :
  run_summary P w = (w', r) ->
  w_repo w' = w_repo w /\ w_fs w' = w_fs w /\
  w_trace w' = w_trace w ++ match r with Return _ => [RunSummary] | Raise _ => [] end.
Proof.
  unfold run_summary, bind, external, emit. intros H.
  repeat case_match; simplify_eq; simpl; by rewrite ?app_nil_r.
Qed.

Lemma main_imports_adds root pkgs :
  preserves (adds (fun e => is_summary e = false)) (main_imports P root pkgs).
Proof.
  unfold main_imports, repo_create.
  pose proof (Registry_new_adds (fun e => is_summary e = false)).
  pose proof (import_images_adds (fun e => is_summary e = false)) as Himgs.
  apply preserves_bind; [preorder | footprint | intros ?].
  apply preserves_bind; [preorder | footprint | intros ?].
  apply preserves_bind; [preorder | | intros ?].
  { apply preserves_pure; [apply adds_refl | apply iter_commits_pure]. }
  apply Himgs; [|done..]. intros e He. by destruct e.
Qed.

Lemma main_unfold root pkgs w :
  main P root pkgs w = (do _ <- main_imports P root pkgs; run_summary P) w.
Proof.
  unfold main, main_imports, bind.
  repeat (case_match; simplify_eq; try done).
Qed.

(** C9.  A run of [main] that returns has run the summary command
    exactly once, as the last thing it did; a run that raises has not run
    it at all. *)
Theorem summary_once (root : path) (pkgs : string) (w w' : World) (r : result unit) :
  main P root pkgs w = (w', r) ->
  exists evs, added w w' evs /\
    match r with
    | Return _ =>
        count is_summary evs = 1%nat /\
        exists before, evs = before ++ [RunSummary] /\ count is_summary before = 0%nat
    | Raise _ => count is_summary evs = 0%nat
    end.
Proof.
  intros H. rewrite main_unfold in H. destruct r as [e|u].
  - apply bind_Raise in H as [H | (a & w1 & H1 & H)].
    + apply main_imports_adds in H as (evs & Hevs & Hall).
      exists evs. split; [done | by apply count_none].
    + apply main_imports_adds in H1 as (evs & Hevs & Hall).
      apply run_summary_cases in H as (_ & _ & Htr).
      exists evs. split; [|by apply count_none].
      unfold added in *. rewrite Htr, Hevs. by rewrite app_nil_r.
  - apply bind_Return in H as (a & w1 & H1 & H).
    apply main_imports_adds in H1 as (evs & Hevs & Hall).
    apply run_summary_cases in H as (_ & _ & Htr).
    exists (evs ++ [RunSummary]). split.
    + unfold added in *. rewrite Htr, Hevs. by rewrite app_assoc.
    + split.
      * rewrite count_app, (count_none _ _ Hall). reflexivity.
      * exists evs. split; [done | by apply count_none].
Qed.

End Driver.

(** ** Counting what the driver does *)

Lemma vardict_lookup_app key (a b : vardict) :
  vardict_lookup key (a ++ b) =
  match vardict_lookup key b with
  | Some v => Some v
  | None => vardict_lookup key a
  end.
Proof.
  induction a as [|[k v] a IH]; simpl.
  - by destruct (vardict_lookup key b).
  - rewrite IH. by destruct (vardict_lookup key b).
Qed.

Lemma lookup_alt_id (entries : vardict) h h' :
  lookup_string "xa.alt-id"
    (entries ++ [("xa.alt-id", VString h); ("xa.diff-id", VString h')]) = Some h.
Proof. unfold lookup_string. rewrite vardict_lookup_app. reflexivity. Qed.


Section Counting.

Context (P : Platform).

(** Only a digest of a configured algorithm can be read from the
    registry. *)
Lemma blobs_get_json_digest registry digest w w' js :
  sha256_only registry ->
  blobs_get_json P registry (JStr digest) w = (w', Return js) ->
  exists hash, cut ":" digest = Some ("sha256", hash) /\ digest = "sha256:" +:+ hash.
Proof.
  intros Honly H. unfold blobs_get_json in H.
  inv_step H as p w1 Hp. apply lift_Return in Hp as [-> Hp].
  unfold path_for_blob, json_split1, split1 in Hp. simpl in Hp.
  destruct (cut ":" digest) as [[algorithm want]|] eqn:Hcut; [|discriminate].
  simpl in Hp. destruct (assoc algorithm (blobs registry)) as [dir|] eqn:Hdir.
  - apply Honly in Hdir as ->. exists want. split; [done|].
    by apply cut_join in Hcut.
  - injection Hp as <-. unfold open_load, raise in H. discriminate.
Qed.




End Counting.

(** ** The dedup index *)

Lemma py_dict_fold_lookup (pairs : list (string * string)) (acc : gmap string string) k v :
  fold_left (fun d kv => <[fst kv := snd kv]> d) pairs acc !! k = Some v ->
  In (k, v) pairs \/ acc !! k = Some v.
Proof.
  revert acc. induction pairs as [|[k' v'] rest IH]; intros acc H; simpl in *.
  - by right.
  - apply IH in H as [H|H]; [by left; right|].
    destruct (decide (k' = k)) as [->|Hne].
    + rewrite lookup_insert_eq in H. injection H as ->. left. by left.
    + rewrite lookup_insert_ne in H by done. by right.
Qed.

Lemma py_dict_fold_is_Some (pairs : list (string * string)) (acc : gmap string string) k :
  (exists v, In (k, v) pairs) \/ is_Some (acc !! k) ->
  is_Some (fold_left (fun d kv => <[fst kv := snd kv]> d) pairs acc !! k).
Proof.
  revert acc. induction pairs as [|[k' v'] rest IH]; intros acc H; simpl in *.
  - destruct H as [[v []]|H]; done.
  - apply IH. destruct H as [[v [Heq|Hin]]|H].
    + injection Heq as -> ->. right. rewrite lookup_insert_eq. by eexists.
    + left. by exists v.
    + right. destruct (decide (k' = k)) as [->|Hne].
      * rewrite lookup_insert_eq. by eexists.
      * by rewrite lookup_insert_ne.
Qed.

Lemma py_dict_lookup pairs k v : py_dict pairs !! k = Some v -> In (k, v) pairs.
Proof.
  intros H. apply py_dict_fold_lookup in H as [H|H]; [done|].
  by rewrite lookup_empty in H.
Qed.

Lemma py_dict_is_Some pairs k v : In (k, v) pairs -> is_Some (py_dict pairs !! k).
Proof. intros H. apply py_dict_fold_is_Some. left. by exists v. Qed.

Lemma list_refs_In (r : Repo) ref : In ref (list_refs r) <-> is_Some (refs r !! ref).
Proof.
  unfold list_refs. rewrite <- list_elem_of_In, list_elem_of_fmap. split.
  - intros ([k v] & -> & H). apply elem_of_map_to_list in H. by eexists.
  - intros [v H]. exists (ref, v). split; [done|]. by apply elem_of_map_to_list.
Qed.

Lemma truthy_Some s : truthy (Some s) = true <-> s <> "".
Proof.
  unfold truthy. destruct (String.eqb_spec s ""); simpl; split; intros; done.
Qed.

Lemma iter_commits_over_Return r names pairs :
  iter_commits_over r names = Return pairs ->
  loadable r names /\
  forall key rev, In (key, rev) pairs <-> exists ref, In ref names /\ indexed r ref key rev.
Proof.
  revert pairs. induction names as [|ref rest IH]; intros pairs H; simpl in H.
  - injection H as <-. split; [by intros ? []|]. intros key rev. split; [done|].
    by intros (? & [] & _).
  - apply rbind_Return in H as (rev0 & Hrev & H).
    apply rbind_Return in H as (c & Hc & H).
    apply rbind_Return in H as (more & Hmore & H).
    destruct (IH _ Hmore) as [Hload Hin].
    unfold resolve_rev in Hrev. destruct (refs r !! ref) as [rev1|] eqn:Href; [|discriminate].
    injection Hrev as ->.
    unfold load_commit in Hc. destruct (commits r !! rev0) as [c1|] eqn:Hcommit; [|discriminate].
    injection Hc as ->.
    split.
    { intros ref' [<-|Hin']; [by exists rev0, c | by apply Hload]. }
    intros key rev. unfold variant_truthy in H.
    destruct (lookup_string "xa.alt-id" (c_metadata c)) as [alt|] eqn:Halt.
    + destruct (truthy (Some alt)) eqn:Htr; injection H as <-.
      * apply truthy_Some in Htr. simpl. rewrite Hin. split.
        -- intros [Heq|(ref' & Hin' & Hidx)].
           ++ injection Heq as <- <-. exists ref. split; [by left|].
              exists c, alt. done.
           ++ exists ref'. split; [by right | done].
        -- intros (ref' & [<-|Hin'] & Hidx).
           ++ left. destruct Hidx as (c' & alt' & Hr & Hc' & Ha & _ & ->).
              rewrite Href in Hr. injection Hr as <-.
              rewrite Hcommit in Hc'. injection Hc' as <-.
              rewrite Halt in Ha. by injection Ha as <-.
           ++ right. by exists ref'.
      * rewrite Hin. split.
        -- intros (ref' & Hin' & Hidx). exists ref'. split; [by right | done].
        -- intros (ref' & [<-|Hin'] & Hidx); [|by exists ref'].
           destruct Hidx as (c' & alt' & Hr & Hc' & Ha & Hne & _).
           rewrite Href in Hr. injection Hr as <-.
           rewrite Hcommit in Hc'. injection Hc' as <-.
           rewrite Halt in Ha. injection Ha as <-.
           apply truthy_Some in Hne. congruence.
    + simpl in H. injection H as <-. rewrite Hin. split.
      * intros (ref' & Hin' & Hidx). exists ref'. split; [by right | done].
      * intros (ref' & [<-|Hin'] & Hidx); [|by exists ref'].
        destruct Hidx as (c' & alt' & Hr & Hc' & Ha & _).
        rewrite Href in Hr. injection Hr as <-.
        rewrite Hcommit in Hc'. injection Hc' as <-. congruence.
Qed.

Lemma iter_commits_over_total r names :
  loadable r names -> exists pairs, iter_commits_over r names = Return pairs.
Proof.
  induction names as [|ref rest IH]; intros Hload; simpl.
  - by eexists.
  - destruct (Hload ref (or_introl eq_refl)) as (rev & c & Href & Hc).
    destruct IH as [more Hmore]. { intros ref' Hin. apply Hload. by right. }
    unfold resolve_rev, load_commit. rewrite Href. simpl. rewrite Hc. simpl.
    rewrite Hmore. simpl. destruct (variant_truthy _); by eexists.
Qed.

Section Index.

Context (P : Platform).


End Index.

(** ** Runs of the driver *)

Lemma bind_cases {A B} (m : M A) (k : A -> M B) w w' (r : result B) :
  bind m k w = (w', r) ->
  (exists e, m w = (w', Raise e) /\ r = Raise e) \/
  (exists a w1, m w = (w1, Return a) /\ k a w1 = (w', r)).
Proof.
  unfold bind. destruct (m w) as [w1 [e|a]]; intros H.
  - left. exists e. by simplify_eq.
  - right. eauto.
Qed.


Section Runs.

Context (P : Platform).

Lemma Registry_new_Return root w w' registry :
  Registry_new P root w = (w', Return registry) ->
  sha256_only registry /\ w_repo w' = w_repo w /\ w_trace w' = w_trace w.
Proof.
  intros H.
  pose proof (Registry_new_same_repo P root _ _ _ H) as Hrepo.
  destruct (Registry_new_adds P (fun _ => False) root _ _ _ H) as (evs & Hevs & Hall).
  destruct evs as [|e evs]; [|by inversion Hall].
  unfold added in Hevs. rewrite app_nil_r in Hevs.
  split; [|done].
  unfold Registry_new in H. inv_step H as fs w1 H1. inv_step H as x w2 H2.
  cbn [Registry_blob_dirs] in H. inv_step H as bl w3 H3. inv_step H3 as y w4 H4.
  unfold ret in H, H3. injection H as _ <-. injection H3 as _ <-.
  intros algorithm dir Hassoc. simpl in Hassoc.
  by destruct (decide (algorithm = "sha256")).
Qed.

Lemma repo_create_cases w w' r :
  repo_create P w = (w', r) ->
  w_repo w' = w_repo w /\
  w_trace w' = w_trace w ++ match r with Return _ => [RepoCreate] | Raise _ => [] end.
Proof.
  unfold repo_create, bind, external, emit. intros H.
  repeat case_match; simplify_eq; simpl; by rewrite ?app_nil_r.
Qed.

Lemma repo_create_adds (Q : event -> Prop) :
  Q RepoCreate -> preserves (adds Q) (repo_create P).
Proof. intros HQ. unfold repo_create. footprint. Qed.

Lemma run_summary_adds (Q : event -> Prop) :
  Q RunSummary -> preserves (adds Q) (run_summary P).
Proof. intros HQ. unfold run_summary. footprint. Qed.


End Runs.

Section RoundTrip.

Context (P : Platform).
Context (Hrev : forall c, commit_checksum P c <> "").


End RoundTrip.

(** ** Setting up the registry *)

Section RegistrySetup.

Context (P : Platform).

(** What [mkdir] with [parents=True] changes: the entries it adds are
    directories on the way down to the target. *)
Lemma mkdirs_frame fs above below fs' :
  mkdirs fs above below = Return fs' ->
  forall q, fs' !! q = fs !! q \/
            (fs !! q = None /\ fs' !! q = Some Dir /\
             exists k, k <> [] /\ k `prefix_of` below /\ q = above ++ k).
Proof.
  revert fs above. induction below as [|c below' IH]; intros fs above H q; simpl in H.
  - simplify_eq. by left.
  - destruct (fs !! (above ++ [c])) as [[|data]|] eqn:E; [| discriminate |].
    + destruct (IH _ _ H q) as [Hq | (Hn & Hd & k & Hk & Hpre & ->)]; [by left|right].
      split_and!; try done. exists (c :: k).
      split_and!; [done | by apply prefix_cons | by rewrite <- app_assoc].
    + destruct (IH _ _ H q) as [Hq | (Hn & Hd & k & Hk & Hpre & ->)].
      * destruct (decide (q = above ++ [c])) as [->|Hne].
        -- right. rewrite Hq, lookup_insert_eq. split_and!; try done.
           exists [c]. split_and!; [done | apply prefix_cons, prefix_nil | done].
        -- left. rewrite Hq. by rewrite lookup_insert_ne.
      * right. apply lookup_insert_None in Hn as [Hn Hne].
        split_and!; try done. exists (c :: k).
        split_and!; [done | by apply prefix_cons | by rewrite <- app_assoc].
Qed.

(** After [mkdir] with [parents=True] every directory on the way is
    there. *)
Lemma mkdirs_dirs fs above below fs' :
  mkdirs fs above below = Return fs' ->
  forall k, k <> [] -> k `prefix_of` below -> fs' !! (above ++ k) = Some Dir.
Proof.
  revert fs above. induction below as [|c below' IH]; intros fs above H k Hk Hpre.
  - apply prefix_nil_inv in Hpre. done.
  - destruct k as [|x k']; [done|].
    pose proof (prefix_cons_inv_1 _ _ _ _ Hpre) as ->.
    apply prefix_cons_inv_2 in Hpre. cbn [mkdirs] in H.
    assert (exists fs1, mkdirs fs1 (above ++ [c]) below' = Return fs' /\
                        fs1 !! (above ++ [c]) = Some Dir) as (fs1 & Hmk & Hc).
    { destruct (fs !! (above ++ [c])) as [[|data]|] eqn:E; [| discriminate |].
      - by exists fs.
      - exists (<[above ++ [c] := Dir]> fs). split; [done | apply lookup_insert_eq]. }
    destruct k' as [|y k''].
    + exact (mkdirs_preserves _ _ _ _ _ _ Hmk Hc).
    + change (above ++ c :: y :: k'') with (above ++ [c] ++ y :: k'').
      rewrite app_assoc. by apply (IH _ _ Hmk).
Qed.

(** A constructor that returns has not run [init]. *)
Lemma Registry_new_Return_mkdirs (root : path) (w w' : World) (registry : Registry) :
  Registry_new P root w = (w', Return registry) ->
  exists_ (w_fs w) root = true /\
  registry = mkRegistry root [("sha256", blob_dir_of root)] /\
  exists fs', mkdirs (w_fs w) [] (blob_dir_of root) = Return fs' /\ w' = with_fs w fs'.
Proof.
  intros H. unfold Registry_new, bind, get_fs in H.
  destruct (exists_ (w_fs w) root) eqn:Hex; cbn [negb] in H.
  2:{ exfalso. unfold Registry_init, open_write, fs_step in H.
      change (joinpath root "oci-layout") with (root ++ ["oci-layout"]) in H.
      unfold write_file, parent in H. rewrite removelast_last in H.
      assert (is_dir (w_fs w) root = false) as Hdir.
      { unfold is_dir, exists_ in *. destruct root as [|c rest]; [done|].
        by destruct (w_fs w !! (c :: rest)). }
      rewrite Hdir in H. by destruct (is_dir (w_fs w) (root ++ ["oci-layout"])). }
  unfold ret in H. cbn [Registry_blob_dirs] in H. unfold bind, fs_step, mkdir_parents in H.
  fold (blob_dir_of root) in H.
  destruct (mkdirs (w_fs w) [] (blob_dir_of root)) as [e|fs1] eqn:Hmk; [discriminate|].
  unfold ret in H. injection H as <- <-. split_and!; try done. by exists fs1.
Qed.

(** X1.  Setting up a registry is idempotent: when [Registry.__init__]
    has returned, running it again on the same root returns the same
    registry and changes nothing. *)
Theorem Registry_new_twice (root : path) (w w1 : World) (registry : Registry) :
  Registry_new P root w = (w1, Return registry) ->
  Registry_new P root w1 = (w1, Return registry).
Proof.
  intros H. apply Registry_new_Return_mkdirs in H as (Hex & -> & fs' & Hmk & ->).
  unfold Registry_new, bind, get_fs. cbn [with_fs w_fs].
  assert (exists_ fs' root = true) as ->.
  { unfold exists_ in *. destruct root as [|c rest]; [done|].
    destruct (w_fs w !! (c :: rest)) as [n|] eqn:Hn; [|discriminate].
    by rewrite (mkdirs_preserves _ _ _ _ _ _ Hmk Hn). }
  cbn [negb Registry_blob_dirs]. unfold ret, bind, fs_step, mkdir_parents.
  fold (blob_dir_of root). change (w_fs (with_fs w fs')) with fs'.
  by rewrite (mkdirs_idempotent _ _ _ _ Hmk).
Qed.

(** X2.  [Registry.__init__], when it returns, has added nothing but
    directories on the way to [root/blobs/sha256]: every entry that was
    there is as it was, the blob directory exists, and the registry
    keeps blobs for sha256 under it.  In particular the layout file is
    never written by a constructor that returns.  The repository and
    the output are not touched. *)
Theorem Registry_new_only_adds_directories (root : path) (w w' : World)
    (registry : Registry) :
  Registry_new P root w = (w', Return registry) ->
  registry = mkRegistry root [("sha256", blob_dir_of root)] /\
  w_fs w' !! blob_dir_of root = Some Dir /\
  w_repo w' = w_repo w /\ w_trace w' = w_trace w /\
  forall q, w_fs w' !! q = w_fs w !! q \/
            (w_fs w !! q = None /\ w_fs w' !! q = Some Dir /\
             q `prefix_of` blob_dir_of root).
Proof.
  intros H. apply Registry_new_Return_mkdirs in H as (_ & -> & fs' & Hmk & ->).
  split_and!; try done.
  - cbn [with_fs w_fs]. apply (mkdirs_creates _ [] _ _ Hmk).
    unfold blob_dir_of, joinpath. cbn. by destruct root.
  - intros q. cbn [with_fs w_fs].
    destruct (mkdirs_frame _ _ _ _ Hmk q) as [Hq | (Hn & Hd & k & _ & Hpre & ->)];
      [by left | by right].
Qed.

Lemma Index_new_unfold top blobs_of w :
  Index_new P (mkRegistry top blobs_of) w =
  (do data <- open_load P (Some (top ++ ["index.json"]));
   ret (mkIndex (mkRegistry top blobs_of) data)) w.
Proof. reflexivity. Qed.

(** X3.  A registry that was just set up has no index: nothing in
    [Registry.__init__] writes [index.json], so [Index] raises on it
    unless the file was there before. *)
Theorem Index_new_after_Registry_new (root : path) (w w' : World) (registry : Registry) :
  w_fs w !! (root ++ ["index.json"]) = None ->
  Registry_new P root w = (w', Return registry) ->
  Index_new P registry w' = (w', Raise FileNotFoundError).
Proof.
  intros Hnone H. apply Registry_new_Return_mkdirs in H as (_ & -> & fs' & Hmk & ->).
  rewrite Index_new_unfold.
  unfold open_load, bind, get_fs, lift. cbn [with_fs w_fs].
  assert (fs' !! (root ++ ["index.json"]) = None) as Hq.
  { destruct (mkdirs_frame _ _ _ _ Hmk (root ++ ["index.json"]))
      as [Hq | (_ & _ & k & _ & [rest Hpre] & Hk)]; [by rewrite Hq|].
    exfalso. cbn [app] in Hk. subst k.
    change (blob_dir_of root) with ((root ++ ["blobs"]) ++ ["sha256"]) in Hpre.
    rewrite <- !app_assoc in Hpre. apply app_inv_head in Hpre. discriminate. }
  unfold read_file. rewrite Hq.
  assert (absent_error fs' [] (root ++ ["index.json"]) = FileNotFoundError) as ->.
  { rewrite (absent_error_dirs fs' [] root).
    - cbn [app absent_error]. by rewrite Hq.
    - intros k Hk Hpre. apply (mkdirs_dirs _ _ _ _ Hmk k Hk).
      etrans; [exact Hpre|]. exists ["blobs"; "sha256"].
      change (blob_dir_of root) with ((root ++ ["blobs"]) ++ ["sha256"]).
      by rewrite <- app_assoc. }
  by destruct root.
Qed.

End RegistrySetup.

(** ** Blobs *)

Lemma cut_None sep s : free_of sep s = true -> cut sep s = None.
Proof.
  induction s as [|c r IH]; simpl; intros H; [done|].
  apply andb_prop in H as [Hc Hr]. apply negb_true_iff in Hc. rewrite Hc.
  by rewrite IH.
Qed.

Lemma rename_Return fs src dst fs' :
  rename fs src dst = Return fs' ->
  exists data, fs !! src = Some (File data) /\
               fs' = <[dst := File data]> (delete src fs).
Proof.
  unfold rename. intros H. destruct (fs !! src) as [[|data]|]; try discriminate.
  exists data. split; [done|]. repeat case_match; by simplify_eq.
Qed.

Lemma read_file_Return fs p data :
  read_file fs p = Return data <-> p <> [] /\ fs !! p = Some (File data).
Proof.
  unfold read_file. destruct p as [|c rest].
  - split; [discriminate | by intros [? _]].
  - destruct (fs !! (c :: rest)) as [[|d]|]; split; try discriminate;
      try (by intros [_ ?]); try (intros [_ ?]; by simplify_eq).
    intros ?. by simplify_eq.
Qed.

Section Blobs.

Context (P : Platform).

Lemma path_for_blob_digest self algorithm want :
  free_of ":" algorithm = true ->
  path_for_blob self (JStr (algorithm +:+ ":" +:+ want)) =
  Return (match assoc algorithm (blobs self) with
          | Some dir => Some (joinpath dir want)
          | None => None
          end).
Proof.
  intros Hfree. unfold path_for_blob, json_split1, split1. simpl.
  change (algorithm +:+ ":" +:+ want) with (algorithm +:+ String ":" want).
  rewrite (cut_free ":" algorithm want Hfree). simpl.
  by destruct (assoc algorithm (blobs self)).
Qed.

Lemma path_for_blob_no_colon self digest :
  free_of ":" digest = true -> path_for_blob self (JStr digest) = Raise ValueError.
Proof.
  intros Hfree. unfold path_for_blob, json_split1, split1. simpl.
  by rewrite (cut_None _ _ Hfree).
Qed.

(** X4.  A digest that names an algorithm the registry keeps no blobs for:
    [path_for_blob] gives [None], and every caller trips over it.
    Reading the blob raises the [TypeError] of [open(None)], the
    membership test raises the [AttributeError] of [None.exists()], and
    an import of such a digest raises the [TypeError], with nothing
    touched. *)
Theorem unsupported_algorithm_raises (self : Registry) (algorithm want : string)
    (w : World) :
  free_of ":" algorithm = true ->
  assoc algorithm (blobs self) = None ->
  blobs_get_json P self (JStr (algorithm +:+ ":" +:+ want)) w = (w, Raise TypeError) /\
  Registry_contains self (JStr (algorithm +:+ ":" +:+ want)) w
    = (w, Raise AttributeError) /\
  import_image P self (algorithm +:+ ":" +:+ want) w = (w, Raise TypeError).
Proof.
  intros Hfree Hnone.
  pose proof (path_for_blob_digest self algorithm want Hfree) as Hp.
  rewrite Hnone in Hp.
  assert (blobs_get_json P self (JStr (algorithm +:+ ":" +:+ want)) w
          = (w, Raise TypeError)) as Hget.
  { unfold blobs_get_json. by rewrite (bind_lift _ _ _ _ Hp). }
  split_and!; [done | |].
  - unfold Registry_contains. by rewrite (bind_lift _ _ _ _ Hp).
  - unfold import_image, import_image_resolve.
    apply bind_raises. by apply bind_raises.
Qed.

(** X5.  A digest without a colon cannot be unpacked into algorithm and
    hash: reading the blob, the membership test and the import all raise
    [ValueError], with nothing touched. *)
Theorem digest_without_colon_raises (self : Registry) (digest : string) (w : World) :
  free_of ":" digest = true ->
  blobs_get_json P self (JStr digest) w = (w, Raise ValueError) /\
  Registry_contains self (JStr digest) w = (w, Raise ValueError) /\
  import_image P self digest w = (w, Raise ValueError).
Proof.
  intros Hfree. pose proof (path_for_blob_no_colon self digest Hfree) as Hp.
  assert (blobs_get_json P self (JStr digest) w = (w, Raise ValueError)) as Hget.
  { unfold blobs_get_json, bind, lift. by rewrite Hp. }
  split_and!; [done | |].
  - unfold Registry_contains, bind, lift. by rewrite Hp.
  - unfold import_image, import_image_resolve.
    apply bind_raises. by apply bind_raises.
Qed.

(** The two lookups, once the path of the blob is known. *)
Lemma Registry_contains_at (self : Registry) (digest : json) (p : path) (w : World) :
  path_for_blob self digest = Return (Some p) ->
  Registry_contains self digest w = (w, Return (exists_ (w_fs w) p)).
Proof. intros Hp. unfold Registry_contains. by rewrite (bind_lift _ _ _ _ Hp). Qed.

Lemma blobs_get_json_at (self : Registry) (digest : json) (p : path) (w : World) :
  path_for_blob self digest = Return (Some p) ->
  blobs_get_json P self digest w = (w, rbind (read_file (w_fs w) p) (json_load P)).
Proof.
  intros Hp. unfold blobs_get_json. rewrite (bind_lift _ _ _ _ Hp).
  unfold open_load, bind, get_fs, lift.
  by destruct (read_file (w_fs w) p) as [e|data].
Qed.

(** X6.  Looking a blob up by a well-formed digest of a kept algorithm:
    the entry at [dir/hash] decides, and nothing is changed.  The
    membership test is true exactly when there is an entry.  Reading
    raises [IsADirectoryError] on a directory; on a file it raises
    [UnicodeDecodeError] when the bytes do not decode as text,
    [JSONDecodeError] when the text is not JSON, and returns the document
    otherwise; with no entry it raises [NotADirectoryError] when a
    regular file is in the way and [FileNotFoundError] otherwise, so
    [FileNotFoundError] when the blob directory is there. *)
Theorem blob_lookup_cases (self : Registry) (algorithm want : string) (dir : path)
    (w : World) :
  free_of ":" algorithm = true ->
  is_hex_hash want ->
  assoc algorithm (blobs self) = Some dir ->
  Registry_contains self (JStr (algorithm +:+ ":" +:+ want)) w
    = (w, Return (bool_decide (is_Some (w_fs w !! (dir ++ [want]))))) /\
  blobs_get_json P self (JStr (algorithm +:+ ":" +:+ want)) w
    = (w, match w_fs w !! (dir ++ [want]) with
          | None => Raise (absent_error (w_fs w) [] (dir ++ [want]))
          | Some Dir => Raise IsADirectoryError
          | Some (File data) =>
              match decode_text P data with
              | None => Raise UnicodeDecodeError
              | Some text =>
                  match json_loads P text with
                  | Some js => Return js
                  | None => Raise JSONDecodeError
                  end
              end
          end) /\
  ((forall k, k <> [] -> k `prefix_of` dir -> w_fs w !! k = Some Dir) ->
   w_fs w !! (dir ++ [want]) = None ->
   blobs_get_json P self (JStr (algorithm +:+ ":" +:+ want)) w
     = (w, Raise FileNotFoundError)).
Proof.
  intros Hfree Hhex Hdir.
  pose proof (path_for_blob_digest self algorithm want Hfree) as Hp.
  rewrite Hdir, (joinpath_hex _ _ Hhex) in Hp.
  rewrite (Registry_contains_at _ _ _ _ Hp), (blobs_get_json_at _ _ _ _ Hp).
  assert (dir ++ [want] <> []) as Hne by by destruct dir.
  split_and!.
  - unfold exists_. destruct (dir ++ [want]) as [|c rest]; [done|].
    by destruct (w_fs w !! (c :: rest)).
  - unfold read_file. destruct (dir ++ [want]) as [|c rest]; [done|].
    by destruct (w_fs w !! (c :: rest)) as [[|data]|].
  - intros Hdirs Hnone. unfold read_file. rewrite Hnone.
    rewrite (absent_error_dirs _ [] dir [want] Hdirs). cbn [app absent_error].
    rewrite Hnone. by destruct (dir ++ [want]).
Qed.

(** What a returning [blobs_add_file] has done. *)
Lemma blobs_add_file_Return self p mtype algorithm w w' info :
  blobs_add_file P self (PathLike p) mtype algorithm w = (w', Return info) ->
  exists dir data media,
    assoc algorithm (blobs self) = Some dir /\
    read_file (w_fs w) p = Return data /\
    assoc mtype MEDIA_TYPES = Some media /\
    rename (w_fs w) p (joinpath dir (sha256sum_field P p data)) = Return (w_fs w') /\
    info = JObj [ ("digest", JStr (algorithm +:+ ":" +:+ sha256sum_field P p data));
                  ("size", JNum (Z.of_nat (String.length data)));
                  ("mediaType", JStr media) ] /\
    w_repo w' = w_repo w /\
    w_trace w' = w_trace w ++
      [PrintBlobAdded mtype (Z.of_nat (String.length data)) (sha256sum_field P p data)].
Proof.
  intros H. unfold blobs_add_file in H.
  destruct (assoc algorithm (blobs self)) as [dir|] eqn:Hdir; [|discriminate].
  inv_step H as digest w1 Hsum.
  unfold sha256sum, bind, external, get_fs in Hsum.
  destruct (fault P (w_clock w)); [discriminate|].
  cbn [w_fs] in Hsum.
  destruct (read_file (w_fs w) p) as [e|data] eqn:Hread; [discriminate|].
  unfold ret in Hsum. injection Hsum as <- <-.
  inv_step H as fs w2 Hfs. unfold get_fs in Hfs. injection Hfs as <- <-.
  inv_pure H as data' Hread'. cbn [w_fs] in Hread'. rewrite Hread in Hread'.
  injection Hread' as <-.
  inv_step H as x w3 Hmv. unfold fs_step in Hmv. cbn [w_fs] in Hmv.
  destruct (rename (w_fs w) p (joinpath dir (sha256sum_field P p data)))
    as [e|fs'] eqn:Hren; [discriminate|].
  injection Hmv as <- _.
  destruct (assoc mtype MEDIA_TYPES) as [media|] eqn:Hmedia; [|discriminate].
  inv_step H as y w4 Hpr. unfold emit in Hpr. injection Hpr as <- _.
  unfold ret in H. injection H as <- <-.
  exists dir, data, media. split_and!; done.
Qed.

(** X7.  A file added to the registry is found again under the digest of the
    descriptor, when the first field of what [sha256sum] prints for it
    is a hexadecimal hash: the blob path of that digest holds the file's
    bytes, the membership test is true, reading the blob back is
    [json.load] of those bytes, and the file is gone from where it was.
    The descriptor has the size in bytes and the media type of the
    table. *)
Theorem blobs_add_file_stores (self : Registry) (p : path) (mtype algorithm : string)
    (w w' : World) (info : json) :
  free_of ":" algorithm = true ->
  (forall data, read_file (w_fs w) p = Return data ->
                is_hex_hash (sha256sum_field P p data)) ->
  blobs_add_file P self (PathLike p) mtype algorithm w = (w', Return info) ->
  exists dir data digest media,
    assoc algorithm (blobs self) = Some dir /\
    read_file (w_fs w) p = Return data /\
    getitem info "digest" = Return (JStr digest) /\
    digest = algorithm +:+ ":" +:+ sha256sum_field P p data /\
    getitem info "size" = Return (JNum (Z.of_nat (String.length data))) /\
    assoc mtype MEDIA_TYPES = Some media /\
    getitem info "mediaType" = Return (JStr media) /\
    path_for_blob self (JStr digest)
      = Return (Some (dir ++ [sha256sum_field P p data])) /\
    read_file (w_fs w') (dir ++ [sha256sum_field P p data]) = Return data /\
    Registry_contains self (JStr digest) w' = (w', Return true) /\
    blobs_get_json P self (JStr digest) w' = (w', json_load P data) /\
    (p <> dir ++ [sha256sum_field P p data] -> w_fs w' !! p = None).
Proof.
  intros Hfree Hhex H.
  apply blobs_add_file_Return in H
    as (dir & data & media & Hdir & Hread & Hmedia & Hren & -> & _ & _).
  specialize (Hhex data Hread).
  rewrite (joinpath_hex _ _ Hhex) in Hren.
  apply rename_Return in Hren as (data' & Hsrc & Hfs).
  pose proof Hread as Hread0.
  apply read_file_Return in Hread as [Hp Hsrc']. rewrite Hsrc in Hsrc'.
  injection Hsrc' as ->.
  assert (w_fs w' !! (dir ++ [sha256sum_field P p data]) = Some (File data)) as Hdst.
  { rewrite Hfs. apply lookup_insert_eq. }
  assert (path_for_blob self (JStr (algorithm +:+ ":" +:+ sha256sum_field P p data))
          = Return (Some (dir ++ [sha256sum_field P p data]))) as Hpath.
  { rewrite (path_for_blob_digest self algorithm _ Hfree), Hdir.
    by rewrite (joinpath_hex _ _ Hhex). }
  assert (read_file (w_fs w') (dir ++ [sha256sum_field P p data]) = Return data)
    as Hback.
  { apply read_file_Return. split; [by destruct dir | done]. }
  pose proof (Registry_contains_at _ _ _ w' Hpath) as Hin.
  pose proof (blobs_get_json_at _ _ _ w' Hpath) as Hget.
  rewrite Hback in Hget. cbn [rbind] in Hget.
  assert (exists_ (w_fs w') (dir ++ [sha256sum_field P p data]) = true) as Hex.
  { unfold exists_. rewrite Hdst. by destruct (dir ++ [sha256sum_field P p data]). }
  rewrite Hex in Hin.
  exists dir, data, (algorithm +:+ ":" +:+ sha256sum_field P p data), media.
  split_and!; try done.
  intros Hne. rewrite Hfs, lookup_insert_ne by done. apply lookup_delete_eq.
Qed.

Lemma append_inv_head (a b c : string) : a +:+ b = a +:+ c -> b = c.
Proof. induction a as [|x a IH]; simpl; intros H; [done|]. injection H as H. auto. Qed.

(** X8.  Two files with the same bytes, added one after the other.  The
    script takes the digest from the first field of what [sha256sum]
    prints, which depends on the bytes and, when the command marks the
    line of a name it has to escape, on the name: the second descriptor
    is the first exactly when that field is the same for both files.
    When it is, the store keeps the one blob, and the second call
    changes nothing but that the incoming file is gone. *)
Theorem blobs_add_file_same_bytes (self : Registry) (p1 p2 : path)
    (mtype algorithm : string) (w w1 w2 : World) (info1 info2 : json) (data : string) :
  read_file (w_fs w) p1 = Return data ->
  read_file (w_fs w1) p2 = Return data ->
  blobs_add_file P self (PathLike p1) mtype algorithm w = (w1, Return info1) ->
  blobs_add_file P self (PathLike p2) mtype algorithm w1 = (w2, Return info2) ->
  (info2 = info1 <-> sha256sum_field P p2 data = sha256sum_field P p1 data) /\
  exists dir,
    assoc algorithm (blobs self) = Some dir /\
    w_fs w1 !! joinpath dir (sha256sum_field P p1 data) = Some (File data) /\
    w_fs w2 !! joinpath dir (sha256sum_field P p2 data) = Some (File data) /\
    (sha256sum_field P p2 data = sha256sum_field P p1 data ->
     p2 <> joinpath dir (sha256sum_field P p1 data) ->
     w_fs w2 = delete p2 (w_fs w1)).
Proof.
  intros Hr1 Hr2 H1 H2.
  apply blobs_add_file_Return in H1
    as (dir & d1 & media & Hdir & Hread1 & Hmedia & Hren1 & -> & _ & _).
  apply blobs_add_file_Return in H2
    as (dir' & d2 & media' & Hdir' & Hread2 & Hmedia' & Hren2 & -> & _ & _).
  rewrite Hr1 in Hread1. injection Hread1 as <-.
  rewrite Hr2 in Hread2. injection Hread2 as <-.
  rewrite Hdir in Hdir'. injection Hdir' as <-.
  rewrite Hmedia in Hmedia'. injection Hmedia' as <-.
  split.
  { split.
    - intros Heq. injection Heq as Heq. apply append_inv_head in Heq.
      by injection Heq.
    - by intros ->. }
  exists dir. split; [done|].
  apply rename_Return in Hren1 as (x1 & Hsrc1 & Hfs1).
  apply rename_Return in Hren2 as (x2 & Hsrc2 & Hfs2).
  apply read_file_Return in Hr1 as [_ Hx1]. rewrite Hsrc1 in Hx1. injection Hx1 as ->.
  apply read_file_Return in Hr2 as [_ Hx2]. rewrite Hsrc2 in Hx2. injection Hx2 as ->.
  assert (w_fs w1 !! joinpath dir (sha256sum_field P p1 data) = Some (File data))
    as Hdst.
  { rewrite Hfs1. apply lookup_insert_eq. }
  split_and!; [done | rewrite Hfs2; apply lookup_insert_eq |].
  intros Hsame Hne. rewrite Hfs2, Hsame. apply insert_id.
  by rewrite lookup_delete_ne.
Qed.

(** X9.  A media type that is not in the table is looked up only after the
    file has been renamed: the call raises [KeyError], and the blob is
    in the store all the same, with no descriptor returned for it. *)
Theorem blobs_add_file_unknown_type (self : Registry) (p dir : path)
    (mtype algorithm data : string) (fs' : gmap (list string) node) (w : World) :
  assoc mtype MEDIA_TYPES = None ->
  assoc algorithm (blobs self) = Some dir ->
  fault P (w_clock w) = None ->
  read_file (w_fs w) p = Return data ->
  rename (w_fs w) p (joinpath dir (sha256sum_field P p data)) = Return fs' ->
  exists w',
    blobs_add_file P self (PathLike p) mtype algorithm w = (w', Raise (KeyError mtype)) /\
    w_fs w' = fs' /\
    w_fs w' !! joinpath dir (sha256sum_field P p data) = Some (File data) /\
    w_trace w' = w_trace w.
Proof.
  intros Hmedia Hdir Hfault Hread Hren.
  unfold blobs_add_file. rewrite Hdir.
  unfold sha256sum, bind, external, get_fs, lift, fs_step. rewrite Hfault.
  cbn [w_fs]. rewrite Hread. unfold ret. cbn [w_fs]. rewrite Hread, Hren, Hmedia.
  eexists. split; [reflexivity|]. cbn [with_fs w_fs w_trace].
  split_and!; try done.
  apply rename_Return in Hren as (x & Hsrc & ->).
  apply read_file_Return in Hread as [_ Hx]. rewrite Hsrc in Hx. injection Hx as ->.
  apply lookup_insert_eq.
Qed.

End Blobs.

(** ** import_image: the ref, the commit, the index entry *)

Lemma getitem_assoc labels k v :
  getitem (JObj labels) k = Return v <-> assoc k labels = Some v.
Proof. unfold getitem. destruct (assoc k labels); split; intros; by simplify_eq. Qed.

Lemma lookup_diff_id (entries : vardict) h h' :
  lookup_string "xa.diff-id"
    (entries ++ [("xa.alt-id", VString h); ("xa.diff-id", VString h')]) = Some h'.
Proof. unfold lookup_string. rewrite vardict_lookup_app. reflexivity. Qed.

Section ImportMore.

Context (P : Platform).

(** The labels a successful resolution has read. *)
Lemma import_image_resolve_labels registry digest w w' i :
  import_image_resolve P registry digest w = (w', Return i) ->
  exists manifest config labels ts,
    image_config P registry w digest manifest config labels /\
    i_manifest i = manifest /\
    assoc "org.flatpak.ref" labels = Some (i_ref i) /\
    i_parent i = assoc "org.flatpak.parent-commit" labels /\
    assoc "org.flatpak.timestamp" labels = Some ts /\
    py_int P ts = Return (i_timestamp i) /\
    assoc "org.flatpak.subject" labels = Some (i_subject i) /\
    assoc "org.flatpak.body" labels = Some (i_body i).
Proof.
  intros H. unfold import_image_resolve in H.
  inv_step H as manifest w1 Hm. pose proof (blobs_get_json_pure P _ _ _ _ _ Hm); subst w1.
  inv_pure H as cfgdesc Hcfgdesc. inv_pure H as cfgdigest Hcfgdigest.
  inv_step H as config w1 Hc. pose proof (blobs_get_json_pure P _ _ _ _ _ Hc); subst w1.
  inv_pure H as config_config Hcc. inv_pure H as labels Hlabels.
  inv_pure H as ref Href. inv_pure H as parent Hparent.
  inv_pure H as timestamp_label Htl. inv_pure H as timestamp Hts.
  inv_pure H as subject Hsubject. inv_pure H as body Hbody.
  inv_pure H as items Hitems. inv_pure H as builder Hbuilder.
  inv_pure H as parts1 Hparts1. destruct parts1 as [algorithm hash].
  inv_pure H as rootfs Hrootfs. inv_pure H as diff_ids Hdiff.
  inv_pure H as last_diff_id Hlast. inv_pure H as parts Hparts.
  inv_pure H as parts2 Hparts2. destruct parts2 as [algorithm' hash'].
  unfold ret in H. injection H as <- <-.
  cbn [i_manifest i_ref i_parent i_timestamp i_subject i_body].
  unfold dict_items in Hitems. destruct labels; try discriminate.
  injection Hitems as ->. unfold dict_get in Hparent. injection Hparent as <-.
  apply getitem_assoc in Href, Htl, Hsubject, Hbody.
  exists manifest, config, items, timestamp_label.
  split_and!; try done.
  split_and!; [done | by exists cfgdesc, cfgdigest | by exists config_config].
Qed.

(** The registry gives an image one manifest, one config, one set of
    labels. *)
Lemma image_config_functional registry w digest m c l m' c' l' :
  image_config P registry w digest m c l ->
  image_config P registry w digest m' c' l' ->
  m' = m /\ c' = c /\ l' = l.
Proof.
  intros (Hm & (d1 & d2 & Hd1 & Hd2 & Hc) & (cc & Hcc & Hl))
         (Hm' & (d1' & d2' & Hd1' & Hd2' & Hc') & (cc' & Hcc' & Hl')).
  rewrite Hm in Hm'. injection Hm' as <-.
  rewrite Hd1 in Hd1'. injection Hd1' as <-.
  rewrite Hd2 in Hd2'. injection Hd2' as <-.
  rewrite Hc in Hc'. injection Hc' as <-.
  rewrite Hcc in Hcc'. injection Hcc' as <-.
  rewrite Hl in Hl'. by injection Hl' as <-.
Qed.

(** X10.  A successful import moves one ref: the one that the label
    [org.flatpak.ref] names now points at the commit just written.
    Every other ref is as it was, one commit and one tree are added, no
    transaction is left open, and the registry directory is not
    written to. *)
Theorem import_image_repoints_ref (registry : Registry) (digest : string)
    (w w' : World) (u : unit) :
  import_image P registry digest w = (w', Return u) ->
  exists manifest config labels ref c mtree,
    image_config P registry w digest manifest config labels /\
    assoc "org.flatpak.ref" labels = Some (JStr ref) /\
    refs (w_repo w') = <[ref := commit_checksum P c]> (refs (w_repo w)) /\
    commits (w_repo w') = <[commit_checksum P c := c]> (commits (w_repo w)) /\
    trees (w_repo w') = <[c_root c := mtree]> (trees (w_repo w)) /\
    txn (w_repo w') = None /\
    w_fs w' = w_fs w.
Proof.
  intros H. pose proof (import_image_same_fs P registry digest _ _ _ H) as Hfs.
  apply import_image_Return in H
    as (_ & i & layers & dirs & mtree & c & ref & levs & Hres & _ & _ & _
        & _ & Href & Hrepo & _ & _).
  apply import_image_resolve_labels in Hres
    as (manifest & config & labels & ts & Hcfg & _ & Hr & _).
  unfold as_utf8 in Href. destruct (i_ref i) as [| | |s| |]; try discriminate.
  injection Href as ->.
  exists manifest, config, labels, ref, c, mtree. rewrite Hrepo.
  split_and!; done.
Qed.

(** X11.  The commit of a successful import records what the labels say: its
    parent is the label [org.flatpak.parent-commit] when there is one
    and no parent otherwise, its subject and body are the labels of that
    name, and its timestamp is the integer of the timestamp label, which
    fits 64 bits. *)
Theorem commit_fields_from_labels (registry : Registry) (digest : string)
    (w w' : World) (u : unit) :
  import_image P registry digest w = (w', Return u) ->
  exists manifest config labels ts c,
    image_config P registry w digest manifest config labels /\
    commits (w_repo w') !! commit_checksum P c = Some c /\
    (exists ref, refs (w_repo w') !! ref = Some (commit_checksum P c)) /\
    as_utf8_nullable (assoc "org.flatpak.parent-commit" labels) = Return (c_parent c) /\
    as_utf8_nullable (assoc "org.flatpak.subject" labels) = Return (c_subject c) /\
    as_utf8_nullable (assoc "org.flatpak.body" labels) = Return (c_body c) /\
    assoc "org.flatpak.timestamp" labels = Some ts /\
    py_int P ts = Return (c_timestamp c) /\
    0 <= c_timestamp c < 2 ^ 64.
Proof.
  intros H.
  apply import_image_Return in H
    as (_ & i & layers & dirs & mtree & c & ref & levs & Hres & _ & _ & _
        & Hc & _ & Hrepo & _ & _).
  apply import_image_resolve_labels in Hres
    as (manifest & config & labels & ts & Hcfg & _ & _ & Hparent & Hts & Hint & Hs & Hb).
  destruct Hc as (p & s & b & Hp & Hsub & Hbody & Hrange & ->).
  exists manifest, config, labels, ts,
    (mkCommit p s b (i_metadata i) (tree_checksum P mtree) (i_timestamp i)).
  rewrite Hrepo. unfold published. cbn [refs commits c_parent c_subject c_body c_timestamp].
  split_and!; try done.
  - apply lookup_insert_eq.
  - exists ref. apply lookup_insert_eq.
  - by rewrite <- Hparent.
  - by rewrite Hs.
  - by rewrite Hb.
  - apply Hrange.
  - apply Hrange.
Qed.

(** X12.  After a successful import the image's ref brings exactly one entry
    to the dedup index, as [iter_commits] reads it: the image's digest,
    with the new commit.  This holds whatever the labels are, also when
    a commit-metadata label has an [xa.alt-id] of its own; the alt-id
    added last is the one the lookup sees. *)
Theorem imported_ref_indexes_digest (registry : Registry) (dir : path) (digest : string)
    (w w' : World) (u : unit) :
  blobs registry = [("sha256", dir)] ->
  w_fs w !! dir = Some Dir ->
  import_image P registry digest w = (w', Return u) ->
  exists manifest config labels ref rev,
    image_config P registry w digest manifest config labels /\
    assoc "org.flatpak.ref" labels = Some (JStr ref) /\
    refs (w_repo w') !! ref = Some rev /\
    forall key rev', indexed (w_repo w') ref key rev' <-> key = digest /\ rev' = rev.
Proof.
  intros Hblobs Hdir H.
  assert (sha256_only registry) as Honly.
  { intros a d Ha. rewrite Hblobs in Ha. cbn [assoc] in Ha.
    by destruct (decide (a = "sha256")). }
  apply import_image_Return in H
    as (_ & i & layers & dirs & mtree & c & ref & levs & Hres & _ & _ & _
        & Hc & Href & Hrepo & _ & _).
  pose proof Hres as Hres'.
  apply import_image_resolve_labels in Hres
    as (manifest & config & labels & ts & Hcfg & _ & Hr & _).
  apply import_image_resolve_Return in Hres'
    as (manifest' & config' & labels' & algorithm & hash & diff_ids & last_diff
        & algorithm' & hash' & entries & (Hm & _) & _ & Hcut & _ & _ & _ & _ & Hmd).
  destruct (blobs_get_json_digest P _ _ _ _ _ Honly Hm) as (hash0 & Hcut0 & Hdigest).
  rewrite Hcut0 in Hcut. injection Hcut as <- <-.
  assert (hash0 <> "") as Hne.
  { intros ->. subst digest.
    exact (empty_hash_not_readable P _ _ _ _ _ Hblobs Hdir Hm). }
  unfold as_utf8 in Href. destruct (i_ref i) as [| | |s| |]; try discriminate.
  injection Href as ->.
  destruct Hc as (p & s & b & _ & _ & _ & _ & Hceq).
  assert (lookup_string "xa.alt-id" (c_metadata c) = Some hash0) as Halt.
  { rewrite Hceq. cbn [c_metadata]. rewrite Hmd. apply lookup_alt_id. }
  exists manifest, config, labels, ref, (commit_checksum P c).
  rewrite Hrepo. unfold published. cbn [refs].
  split_and!; [done | done | apply lookup_insert_eq |].
  intros key rev'. unfold indexed. cbn [refs commits]. split.
  - intros (c0 & alt & Hr0 & Hc0 & Ha0 & _ & ->).
    rewrite lookup_insert_eq in Hr0. injection Hr0 as <-.
    rewrite lookup_insert_eq in Hc0. injection Hc0 as <-.
    rewrite Halt in Ha0. injection Ha0 as <-. by rewrite Hdigest.
  - intros [-> ->]. exists c, hash0.
    split_and!; [apply lookup_insert_eq | apply lookup_insert_eq | done | done | done].
Qed.

Lemma missing_labels_nil labels :
  missing_labels labels = [] ->
  forall k, In k required_labels -> is_Some (assoc k labels).
Proof.
  unfold missing_labels. intros H k Hk.
  destruct (assoc k labels) as [v|] eqn:E; [by eexists|].
  assert (In k (List.filter
                  (fun k => match assoc k labels with None => true | Some _ => false end)
                  required_labels)) as Hin.
  { apply List.filter_In. split; [done | by rewrite E]. }
  rewrite H in Hin. destruct Hin.
Qed.

(** X14.  A config whose [diff_ids] list is empty has no last diff id: the
    import raises [IndexError] before the transaction is opened, and
    nothing is touched. *)
Theorem empty_diff_ids_raises (registry : Registry) (digest : string) (w : World)
    (manifest config rootfs : json) (labels : list (string * json)) (entries : vardict) :
  image_config P registry w digest manifest config labels ->
  missing_labels labels = [] ->
  timestamp_converts P labels ->
  add_label_entries P labels [] = Return entries ->
  getitem config "rootfs" = Return rootfs ->
  getitem rootfs "diff_ids" = Return (JArr []) ->
  import_image P registry digest w = (w, Raise IndexError).
Proof.
  intros Hcfg Hmiss Hconv Hentries Hrootfs Hdiff.
  pose proof Hcfg as (Hm & (cfgdesc & cfgdigest & Hd1 & Hd2 & Hc) & (cc & Hcc & Hl)).
  pose proof (missing_labels_nil _ Hmiss) as Hreq.
  destruct (Hreq "org.flatpak.ref") as [ref Href]; [cbn; tauto|].
  destruct (Hreq "org.flatpak.timestamp") as [ts Hts]; [cbn; tauto|].
  destruct (Hreq "org.flatpak.subject") as [subject Hsubject]; [cbn; tauto|].
  destruct (Hreq "org.flatpak.body") as [body Hbody]; [cbn; tauto|].
  destruct (Hconv ts Hts) as [z Hz].
  assert (exists algorithm hash, cut ":" digest = Some (algorithm, hash))
    as (algorithm & hash & Hcut).
  { unfold blobs_get_json in Hm. apply bind_Return in Hm as (p & w1 & Hp & _).
    apply lift_Return in Hp as [_ Hp].
    unfold path_for_blob, json_split1, split1 in Hp. simpl in Hp.
    destruct (cut ":" digest) as [[a h]|]; [by eexists _, _ | discriminate]. }
  unfold import_image. apply bind_raises. unfold import_image_resolve.
  rewrite (bind_step _ _ _ _ _ Hm), (bind_lift _ _ _ _ Hd1), (bind_lift _ _ _ _ Hd2).
  rewrite (bind_step _ _ _ _ _ Hc), (bind_lift _ _ _ _ Hcc), (bind_lift _ _ _ _ Hl).
  apply getitem_assoc in Href, Hts, Hsubject, Hbody.
  rewrite (bind_lift _ _ _ _ Href).
  rewrite bind_lift with (a := assoc "org.flatpak.parent-commit" labels) by done.
  rewrite (bind_lift _ _ _ _ Hts), (bind_lift _ _ _ _ Hz).
  rewrite (bind_lift _ _ _ _ Hsubject), (bind_lift _ _ _ _ Hbody).
  rewrite bind_lift with (a := labels) by done.
  rewrite (bind_lift _ _ _ _ Hentries).
  rewrite bind_lift with (a := (algorithm, hash))
    by (unfold split1; by rewrite Hcut).
  rewrite (bind_lift _ _ _ _ Hrootfs), (bind_lift _ _ _ _ Hdiff).
  reflexivity.
Qed.

(** The loop goes through when every label with the prefix decodes. *)
Lemma add_label_entries_complete items builder entries :
  Forall2 (metadata_entry_of P) (List.filter is_metadata_label items) entries ->
  add_label_entries P items builder = Return (builder ++ entries).
Proof.
  revert builder entries.
  induction items as [|[k v] rest IH]; intros builder entries H;
    cbn [add_label_entries]; cbn [List.filter] in H.
  - apply Forall2_nil_inv_l in H as ->. by rewrite app_nil_r.
  - unfold is_metadata_label at 1 in H. cbn [fst] in H.
    destruct (startswith METADATA_PREFIX k) eqn:Hk; cbn [negb].
    + apply Forall2_cons_inv_l in H
        as (e & es & (s & bytes & Hv & Hascii & Hb & ->) & Hes & ->).
      cbn [fst snd] in *. subst v. unfold py_b64decode. rewrite Hascii, Hb.
      cbn [rbind].
      rewrite (IH _ _ Hes). by rewrite <- app_assoc.
    + by apply IH.
Qed.

(** X15.  The builder loop over the labels returns exactly when every
    label with the prefix [org.flatpak.commit-metadata.] holds base64
    text (a string of ASCII characters that decodes), and then it has
    one entry for each such label, in the order of the labels; what the
    other labels hold does not matter. *)
Theorem metadata_entries_iff (items : list (string * json)) (entries : vardict) :
  add_label_entries P items [] = Return entries <->
  Forall2 (metadata_entry_of P) (List.filter is_metadata_label items) entries.
Proof.
  split.
  - intros H. apply add_label_entries_spec in H as (es & -> & Hes). done.
  - intros H. by rewrite (add_label_entries_complete _ [] _ H).
Qed.

Lemma add_label_entries_raises items builder k v e :
  In (k, v) items -> is_metadata_label (k, v) = true -> py_b64decode P v = Raise e ->
  exists e', add_label_entries P items builder = Raise e'.
Proof.
  intros Hin Hk Hv. revert builder.
  induction items as [|[k0 v0] rest IH]; intros builder; [destruct Hin|].
  cbn [add_label_entries].
  destruct Hin as [Heq|Hin].
  - injection Heq as -> ->. unfold is_metadata_label in Hk. cbn [fst] in Hk.
    rewrite Hk, Hv. cbn [negb rbind]. by eexists.
  - destruct (startswith METADATA_PREFIX k0); cbn [negb]; [|by apply IH].
    destruct (py_b64decode P v0) as [e0|bytes]; cbn [rbind]; [by eexists | by apply IH].
Qed.

(** X16.  One commit-metadata label that does not hold base64 text is enough
    to fail the import: it raises before the transaction is opened and
    nothing is touched. *)
Theorem undecodable_metadata_label_fails (registry : Registry) (digest : string)
    (w : World) (manifest config : json) (labels : list (string * json))
    (k : string) (v : json) (e : exn) :
  image_config P registry w digest manifest config labels ->
  In (k, v) labels ->
  is_metadata_label (k, v) = true ->
  py_b64decode P v = Raise e ->
  exists e', import_image P registry digest w = (w, Raise e').
Proof.
  intros Hcfg Hin Hk Hv.
  destruct (import_image_resolve P registry digest w) as [w1 [e1|i]] eqn:Hres.
  - pose proof (import_image_resolve_pure P _ _ _ _ _ Hres); subst w1.
    exists e1. unfold import_image. by apply bind_raises.
  - exfalso. apply import_image_resolve_Return in Hres
      as (manifest' & config' & labels' & algorithm & hash & diff_ids & last_diff
          & algorithm' & hash' & entries & Hcfg' & _ & _ & _ & _ & _ & Hentries & _).
    destruct (image_config_functional _ _ _ _ _ _ _ _ _ Hcfg Hcfg') as (_ & _ & ->).
    destruct (add_label_entries_raises labels [] k v e Hin Hk Hv) as [e' He'].
    rewrite He' in Hentries. discriminate.
Qed.

End ImportMore.

(** ** import_image: a layer that cannot be extracted *)

Section MissingLayer.

Context (P : Platform).

(** X13.  The archive of the first layer cannot be read (its blob is
    not in the registry): [tar] fails, the import raises
    [CalledProcessError] from inside the transaction, and the
    transaction is aborted.  The store has seen the opening of the
    transaction, the [tar] command and the abort, nothing else; the
    repository and the registry are as they were. *)
Theorem missing_layer_blob_aborts (registry : Registry) (digest : string) (w : World)
    (i : ImageInfo) (layer : json) (rest : list json) (p : path) (e0 : exn) :
  txn (w_repo w) = None ->
  fault P (w_clock w) = None ->
  fault P (S (w_clock w)) = None ->
  import_image_resolve P registry digest w = (w, Return i) ->
  rbind (getitem (i_manifest i) "layers") iterate = Return (layer :: rest) ->
  layer_archive registry layer p ->
  read_file (w_fs w) p = Raise e0 ->
  exists w',
    import_image P registry digest w = (w', Raise CalledProcessError) /\
    w_repo w' = w_repo w /\
    w_fs w' = w_fs w /\
    added w w' [RepoPrepare; RunTar p; RepoAbort].
Proof.
  intros Htxn Hf0 Hf1 Hres Hlayers (d & Hd & Hp) Hread.
  unfold import_image. rewrite (bind_step _ _ _ _ _ Hres).
  unfold prepare_transaction, bind at 1 2 3, external, repo_step, prepare, emit.
  rewrite Hf0. cbn [w_repo w_fs w_clock w_trace with_repo]. rewrite Htxn.
  cbn [w_repo w_fs w_clock w_trace with_repo].
  unfold try_except_reraise, import_image_transaction.
  destruct (getitem (i_manifest i) "layers") as [e|layers_json] eqn:Hl;
    cbn [rbind] in Hlayers; [discriminate|].
  rewrite (bind_lift _ _ _ _ eq_refl), (bind_lift _ _ _ _ Hlayers).
  cbn [import_layers]. unfold bind at 1.
  rewrite (bind_lift _ _ _ _ Hd), (bind_lift _ _ _ _ Hp).
  unfold import_layer, run_tar, bind, external, emit, get_fs, raise.
  cbn [w_repo w_fs w_clock w_trace]. rewrite Hf1.
  cbn [w_repo w_fs w_clock w_trace]. rewrite Hread.
  unfold abort_transaction. cbn [w_repo w_fs w_clock w_trace].
  eexists. split; [reflexivity|]. cbn [w_repo w_fs w_trace].
  split_and!; [| done |].
  - unfold abort. cbn [refs commits trees]. by apply repo_closed.
  - unfold added. by rewrite <- !app_assoc.
Qed.

End MissingLayer.

(** ** The index read from the repository *)

Lemma iter_commits_over_Raise r names e :
  iter_commits_over r names = Raise e ->
  e = GLibError /\
  exists ref, In ref names /\
    (refs r !! ref = None \/
     exists rev, refs r !! ref = Some rev /\ commits r !! rev = None).
Proof.
  induction names as [|ref rest IH]; cbn [iter_commits_over]; intros H; [discriminate|].
  unfold resolve_rev, load_commit in H.
  destruct (refs r !! ref) as [rev|] eqn:Href; cbn [rbind] in H.
  2:{ injection H as <-. split; [done|]. exists ref. split; [by left | by left]. }
  destruct (commits r !! rev) as [c|] eqn:Hc; cbn [rbind] in H.
  2:{ injection H as <-. split; [done|]. exists ref.
      split; [by left | right; by exists rev]. }
  destruct (iter_commits_over r rest) as [e0|more] eqn:Hrest; cbn [rbind] in H.
  - injection H as <-. destruct (IH eq_refl) as (-> & ref' & Hin & Hbad).
    split; [done|]. exists ref'. split; [by right | done].
  - by destruct (variant_truthy _).
Qed.

(** X17.  [dict(iter_commits(repo))], the index [main] builds: its keys are
    exactly the digests [sha256:<alt-id>] of the commits that refs point
    at and that carry a non-empty [xa.alt-id]; a ref whose commit has no
    such entry brings nothing.  A key comes with the commit of one of
    the refs that carry it.  Reading the index changes nothing. *)
Theorem iter_commits_index (w w' : World) (pairs : list (string * string)) :
  iter_commits w = (w', Return pairs) ->
  w' = w /\
  (forall key rev,
     In (key, rev) pairs <-> exists ref, indexed (w_repo w) ref key rev) /\
  (forall key,
     is_Some (py_dict pairs !! key) <-> exists ref rev, indexed (w_repo w) ref key rev) /\
  (forall key rev,
     py_dict pairs !! key = Some rev -> exists ref, indexed (w_repo w) ref key rev).
Proof.
  intros H. pose proof (iter_commits_pure _ _ _ H); subst w'.
  unfold iter_commits, bind, get_repo, lift in H. injection H as H.
  apply iter_commits_over_Return in H as [_ Hpairs].
  assert (forall key rev,
            In (key, rev) pairs <-> exists ref, indexed (w_repo w) ref key rev) as Hin.
  { intros key rev. rewrite Hpairs. split.
    - intros (ref & _ & Hi). by exists ref.
    - intros (ref & Hi). exists ref. split; [|done].
      apply list_refs_In. destruct Hi as (c & alt & Hr & _). by eexists. }
  split_and!; [done | done | |].
  - intros key. split.
    + intros [rev Hrev]. apply py_dict_lookup, Hin in Hrev as [ref Hi]. by exists ref, rev.
    + intros (ref & rev & Hi). apply (py_dict_is_Some _ _ rev). apply Hin. by exists ref.
  - intros key rev Hrev. by apply Hin, py_dict_lookup.
Qed.

(** X18.  [iter_commits] returns exactly when every ref points at a commit
    that can be loaded; one ref whose commit is missing makes it raise
    the library's error.  Either way nothing is changed. *)
Theorem iter_commits_outcome (w : World) :
  ((forall ref rev, refs (w_repo w) !! ref = Some rev ->
                    is_Some (commits (w_repo w) !! rev)) /\
   exists pairs, iter_commits w = (w, Return pairs)) \/
  ((exists ref rev, refs (w_repo w) !! ref = Some rev /\
                    commits (w_repo w) !! rev = None) /\
   iter_commits w = (w, Raise GLibError)).
Proof.
  unfold iter_commits, bind, get_repo, lift.
  destruct (iter_commits_over (w_repo w) (list_refs (w_repo w))) as [e|pairs] eqn:H.
  - right. apply iter_commits_over_Raise in H as (-> & ref & Hin & Hbad).
    split; [|done]. apply list_refs_In in Hin as [rev Hrev].
    destruct Hbad as [Hnone | (rev' & Hr & Hc)]; [congruence|]. by exists ref, rev'.
  - left. split; [|by exists pairs].
    apply iter_commits_over_Return in H as [Hload _].
    intros ref rev Hr. destruct (Hload ref) as (rev' & c & Hr' & Hc).
    { apply list_refs_In. by eexists. }
    rewrite Hr in Hr'. injection Hr' as <-. by eexists.
Qed.

(** ** The order of the steps of an import *)

Section Protocol.

Context (P : Platform).

Lemma run_tar_trace archive w w' dir :
  run_tar P archive w = (w', Return dir) ->
  exists p, archive = Some p /\ w_trace w' = w_trace w ++ [RunTar p].
Proof.
  unfold run_tar, bind, external, emit, get_fs, ret, raise. intros H.
  repeat case_match; simplify_eq. by eexists.
Qed.

Lemma write_directory_trace dir mtree w w' merged :
  write_directory_to_mtree P dir mtree w = (w', Return merged) ->
  w_trace w' = w_trace w ++ [RepoWriteDirectory].
Proof.
  unfold write_directory_to_mtree, bind, external, emit, ret, raise. intros H.
  repeat case_match; by simplify_eq.
Qed.

Lemma import_layers_trace registry layers mtree w w' t :
  import_layers P registry layers mtree w = (w', Return t) ->
  exists archives,
    Forall2 (layer_archive registry) layers archives /\
    added w w' (layers_trace archives).
Proof.
  revert mtree w. induction layers as [|layer rest IH]; intros mtree w H;
    cbn [import_layers] in H.
  - unfold ret in H. injection H as <- _. exists []. split; [constructor|].
    unfold added. by rewrite app_nil_r.
  - inv_pure H as digest Hdigest. inv_pure H as p Hp.
    inv_step H as merged w1 Hlayer. unfold import_layer in Hlayer.
    inv_step Hlayer as dir w0 Htar.
    apply run_tar_trace in Htar as (archive & -> & Ht0).
    apply write_directory_trace in Hlayer as Ht1.
    apply IH in H as (archives & Hall & Hevs).
    exists (archive :: archives). split.
    + constructor; [by exists digest | done].
    + unfold added, layers_trace in *. cbn [flat_map].
      rewrite Hevs, Ht1, Ht0. by rewrite <- !app_assoc.
Qed.

(** X19.  The steps of a successful import, in the order the store sees
    them: the transaction is opened; the layers are taken in the order
    of the manifest, each extracted and then merged; the tree is
    written, then the commit, then the ref is set, and the commit of the
    transaction comes last.  Nothing else is done. *)
Theorem import_image_protocol (registry : Registry) (digest : string)
    (w w' : World) (u : unit) :
  import_image P registry digest w = (w', Return u) ->
  exists manifest layers archives ref c,
    blobs_get_json P registry (JStr digest) w = (w, Return manifest) /\
    rbind (getitem manifest "layers") iterate = Return layers /\
    Forall2 (layer_archive registry) layers archives /\
    added w w'
      ([RepoPrepare] ++ layers_trace archives ++
       [ RepoWriteMtree (c_root c); RepoWriteCommit (commit_checksum P c) c;
         PrintCommitting (commit_checksum P c) (JStr ref);
         RepoSetRef ref (commit_checksum P c); RepoCommit ]).
Proof.
  intros H. unfold import_image in H.
  inv_step H as i w0 Hres. pose proof (import_image_resolve_pure P _ _ _ _ _ Hres); subst w0.
  apply import_image_resolve_Return in Hres
    as (manifest & config & labels & algorithm & hash & diff_ids & last_diff
        & algorithm' & hash' & entries & (Hm & _) & Hi & _).
  inv_step H as x w0 Hprep.
  apply prepare_transaction_Return in Hprep as (_ & _ & _ & Htr0).
  unfold try_except_reraise in H.
  destruct (import_image_transaction _ _ _ _ _ _ _ _ _ w0) as [w5 [e0|u']] eqn:Hbody.
  { destruct (abort_transaction w5) as [? [?|?]]; discriminate. }
  injection H as <- _. unfold import_image_transaction in Hbody.
  inv_pure Hbody as layers_json Hlayers. inv_pure Hbody as layers Hiter.
  inv_step Hbody as mtree w1 Himport.
  apply import_layers_trace in Himport as (archives & Harch & Hev).
  inv_step Hbody as root w2 Hwrite.
  apply write_mtree_Return in Hwrite as (-> & _ & Htr1).
  inv_step Hbody as rev w3 Hcommit.
  apply write_commit_Return in Hcommit
    as (p & sb & b & _ & _ & _ & _ & -> & _ & Htr2).
  inv_step Hbody as y w4 Hprint. unfold emit in Hprint. injection Hprint as <- _.
  inv_step Hbody as z w4 Hset. apply set_ref_Return in Hset as (name & Hname & _ & Htr3).
  apply commit_transaction_Return in Hbody as (_ & Htr4).
  unfold as_utf8 in Hname. destruct (i_ref i) as [| | |s| |]; try discriminate.
  injection Hname as ->.
  exists manifest, layers, archives, name,
    (mkCommit p sb b (i_metadata i) (tree_checksum P mtree) (i_timestamp i)).
  split_and!; try done.
  - rewrite <- Hi, Hlayers. done.
  - unfold added in *. cbn [c_root].
    rewrite Htr4, Htr3. cbn [w_trace]. rewrite Htr2, Htr1, Hev, Htr0.
    by rewrite <- !app_assoc.
Qed.

End Protocol.

(** ** The loop over the images *)

Lemma keeps_refs_refl w : keeps_refs w w.
Proof. intros H. done. Qed.

Lemma keeps_refs_trans w1 w2 w3 : keeps_refs w1 w2 -> keeps_refs w2 w3 -> keeps_refs w1 w3.
Proof.
  intros H12 H23 H1. destruct (H12 H1) as (H2 & Hr & Hc).
  destruct (H23 H2) as (H3 & Hr' & Hc'). split_and!; [done | |]; naive_solver.
Qed.

Lemma same_repo_keeps_refs w w' : same_repo w w' -> keeps_refs w w'.
Proof. unfold same_repo. intros H Ht. rewrite H. done. Qed.

Section Loop.

Context (P : Platform).

(** A failed import gives the repository back as it was. *)
Lemma import_image_Raise_repo registry digest w w' e :
  txn (w_repo w) = None ->
  import_image P registry digest w = (w', Raise e) ->
  w_repo w' = w_repo w.
Proof.
  intros Htxn H. unfold import_image in H.
  apply bind_Raise in H as [H | (i & w1 & Hres & H)].
  { apply import_image_resolve_pure in H. by subst w'. }
  apply import_image_resolve_pure in Hres. subst w1.
  apply bind_Raise in H as [H | ([] & w2 & Hprep & H)].
  { by apply (prepare_transaction_cases _ _ _ _ Htxn) in H as (_ & Hrepo & _). }
  apply (prepare_transaction_cases _ _ _ _ Htxn) in Hprep as (_ & Hrepo & _).
  unfold try_except_reraise in H.
  destruct (import_image_transaction _ _ _ _ _ _ _ _ _ w2) as [w3 [e0|u]] eqn:Hbody;
    [|discriminate].
  unfold abort_transaction in H. simplify_eq. simpl.
  pose proof (transaction_raise_visible _ _ _ _ _ _ _ _ _ _ _ _ Hbody) as Hvis.
  unfold same_visible, visible in Hvis. rewrite Hrepo in Hvis. simpl in Hvis.
  unfold abort. injection Hvis as -> -> ->. by apply repo_closed.
Qed.

Lemma import_image_keeps_refs registry digest :
  preserves keeps_refs (import_image P registry digest).
Proof.
  intros w w' [e|u] H Htxn.
  - rewrite (import_image_Raise_repo _ _ _ _ _ Htxn H). done.
  - apply import_image_Return in H
      as (_ & i & layers & dirs & mtree & c & ref & levs & _ & _ & _ & _
          & _ & _ & Hrepo & _ & _).
    rewrite Hrepo. unfold published. cbn [txn refs commits]. split_and!; [done | |].
    + intros ref' Hr. destruct (decide (ref' = ref)) as [->|Hne].
      * rewrite lookup_insert_eq. by eexists.
      * by rewrite lookup_insert_ne.
    + intros rev Hr. destruct (decide (rev = commit_checksum P c)) as [->|Hne].
      * rewrite lookup_insert_eq. by eexists.
      * by rewrite lookup_insert_ne.
Qed.

Lemma emit_keeps_refs e : preserves keeps_refs (emit e).
Proof. intros w w' r H. apply same_repo_keeps_refs. by apply (emit_same_repo e _ _ _ H). Qed.

Lemma import_images_keeps_refs registry existing images :
  preserves keeps_refs (import_images P registry existing images).
Proof.
  induction images as [|img rest IH]; cbn [import_images].
  - apply preserves_ret. exact keeps_refs_refl.
  - destruct (truthy (existing !! img)).
    + apply preserves_bind; [exact keeps_refs_trans | apply emit_keeps_refs | done].
    + apply preserves_bind; [exact keeps_refs_trans | apply emit_keeps_refs | intros ?].
      apply preserves_bind; [exact keeps_refs_trans | apply import_image_keeps_refs | done].
Qed.

(** The loop over a list of images that the index has, all of them:
    it only prints. *)
Lemma import_images_all_found registry (existing : gmap string string) images w :
  Forall (fun img => truthy (existing !! img) = true) images ->
  import_images P registry existing images w =
  (mkWorld (w_fs w) (w_repo w) (w_clock w)
     (w_trace w ++ map (fun img => PrintFound (default "" (existing !! img)) img) images),
   Return tt).
Proof.
  intros Hall. revert w. induction Hall as [|img rest Himg Hrest IH]; intros w;
    cbn [import_images map].
  - unfold ret. rewrite app_nil_r. by destruct w.
  - rewrite Himg. unfold bind, emit. rewrite IH. cbn [w_fs w_repo w_clock w_trace].
    by rewrite <- app_assoc.
Qed.

(** The loop over two lists, one after the other. *)
Lemma import_images_app registry existing l1 l2 w :
  import_images P registry existing (l1 ++ l2) w =
  (do _ <- import_images P registry existing l1;
   import_images P registry existing l2) w.
Proof.
  revert w. induction l1 as [|img rest IH]; intros w; cbn [app import_images].
  - reflexivity.
  - destruct (truthy (existing !! img)).
    + unfold bind. destruct (emit _ w) as [w1 [e|[]]]; [done|].
      rewrite IH. reflexivity.
    + unfold bind. destruct (emit _ w) as [w1 [e|[]]]; [done|].
      destruct (import_image P registry img w1) as [w2 [e|[]]]; [done|].
      rewrite IH. reflexivity.
Qed.

(** X20.  The first import that fails ends the loop: the images before it
    stay imported, the failed one leaves the repository as they left
    it, and the images after it are not looked at (the outcome is the
    same whatever they are). *)
Theorem import_images_halts_at_failure (registry : Registry)
    (existing : gmap string string) (before after : list string) (img : string)
    (w w1 w2 : World) (e : exn) :
  import_images P registry existing before w = (w1, Return tt) ->
  truthy (existing !! img) = false ->
  import_image P registry img (fst (emit (PrintImporting img) w1)) = (w2, Raise e) ->
  import_images P registry existing (before ++ img :: after) w = (w2, Raise e) /\
  (txn (w_repo w) = None -> w_repo w2 = w_repo w1).
Proof.
  intros Hbefore Himg Hfail. split.
  - rewrite import_images_app. rewrite (bind_step _ _ _ _ _ Hbefore).
    cbn [import_images]. rewrite Himg.
    unfold bind at 1. unfold emit at 1. cbn [fst] in Hfail. unfold emit in Hfail.
    cbn [fst] in Hfail. by apply bind_raises.
  - intros Htxn.
    destruct (import_images_keeps_refs _ _ _ _ _ _ Hbefore Htxn) as (Htxn1 & _).
    unfold emit in Hfail. cbn [fst] in Hfail.
    apply import_image_Raise_repo in Hfail; [exact Hfail | exact Htxn1].
Qed.

(** [main] keeps a relation that each of its steps keeps. *)
Lemma main_preserves (R : World -> World -> Prop) root pkgs w w' r :
  (forall w, R w w) ->
  (forall w1 w2 w3, R w1 w2 -> R w2 w3 -> R w1 w3) ->
  preserves R (repo_create P) ->
  preserves R (Registry_new P root) ->
  preserves R (run_summary P) ->
  (forall registry pairs,
     iter_commits w = (w, Return pairs) ->
     preserves R
       (import_images P registry (py_dict pairs) (nonempty_lines (split "010" pkgs)))) ->
  main P root pkgs w = (w', r) ->
  R w w'.
Proof.
  intros Hrefl Htrans Hcreate Hnew Hsummary Hloop H.
  unfold main in H.
  apply bind_cases in H as [(e & H & _) | (x & wa & Hc & H)].
  { exact (Hcreate _ _ _ H). }
  eapply Htrans; [exact (Hcreate _ _ _ Hc)|].
  apply repo_create_cases in Hc as [Hr1 _].
  apply bind_cases in H as [(e & H & _) | (registry & wb & Hreg & H)].
  { exact (Hnew _ _ _ H). }
  eapply Htrans; [exact (Hnew _ _ _ Hreg)|].
  apply Registry_new_Return in Hreg as (_ & Hr2 & _).
  apply bind_cases in H as [(e & H & _) | (pairs & wc & Hiter & H)].
  { apply iter_commits_pure in H. subst. apply Hrefl. }
  pose proof (iter_commits_pure _ _ _ Hiter); subst wc.
  assert (iter_commits w = (w, Return pairs)) as Hidx.
  { unfold iter_commits, bind, get_repo, lift in *. injection Hiter as Hiter.
    rewrite Hr2, Hr1 in Hiter. by rewrite Hiter. }
  apply bind_cases in H as [(e & H & _) | (y & wd & Himgs & H)].
  { exact (Hloop _ _ Hidx _ _ _ H). }
  eapply Htrans; [exact (Hloop _ _ Hidx _ _ _ Himgs)|].
  exact (Hsummary _ _ _ H).
Qed.

Lemma repo_create_same_repo : preserves same_repo (repo_create P).
Proof. unfold repo_create. footprint. Qed.

Lemma run_summary_same_repo : preserves same_repo (run_summary P).
Proof. unfold run_summary. footprint. Qed.

(** X21.  A run over images that the index has, all of them (or over no
    image at all), leaves the repository as it was, whatever comes of
    the run: no transaction is opened and nothing is written. *)
Theorem main_indexed_only (root : path) (pkgs : string) (w w' : World)
    (r : result unit) (pairs : list (string * string)) :
  iter_commits w = (w, Return pairs) ->
  (forall img, In img (nonempty_lines (split "010" pkgs)) ->
               truthy (py_dict pairs !! img) = true) ->
  main P root pkgs w = (w', r) ->
  w_repo w' = w_repo w /\
  exists evs, added w w' evs /\ Forall (fun e => import_event e = false) evs.
Proof.
  intros Hidx Hall H.
  assert (Forall (fun img => truthy (py_dict pairs !! img) = true)
            (nonempty_lines (split "010" pkgs))) as Hall'.
  { apply Forall_forall. intros img Hin. apply Hall. by apply list_elem_of_In. }
  split.
  - apply (main_preserves same_repo root pkgs w w' r); try done.
    + exact same_repo_trans.
    + exact repo_create_same_repo.
    + apply Registry_new_same_repo.
    + exact run_summary_same_repo.
    + intros registry pairs' Hidx'. rewrite Hidx in Hidx'. injection Hidx' as <-.
      intros w0 w1 r0 H0. rewrite (import_images_all_found _ _ _ _ Hall') in H0.
      by injection H0 as <- _.
  - apply (main_preserves (adds (fun e => import_event e = false)) root pkgs w w' r);
      try done.
    + apply adds_refl.
    + apply adds_trans.
    + by apply repo_create_adds.
    + apply Registry_new_adds.
    + by apply run_summary_adds.
    + intros registry pairs' Hidx'. rewrite Hidx in Hidx'. injection Hidx' as <-.
      intros w0 w1 r0 H0. rewrite (import_images_all_found _ _ _ _ Hall') in H0.
      injection H0 as <- _. eexists. split; [reflexivity|].
      apply Forall_forall. intros e He. apply list_elem_of_In, in_map_iff in He
        as (img & <- & _). done.
Qed.

(** X22.  Whatever comes of a run, the repository has only grown: a ref that
    was there is still there (it may point at a new commit), a commit
    that was there can still be loaded, and no transaction is left
    open. *)
Theorem main_keeps_refs (root : path) (pkgs : string) (w w' : World) (r : result unit) :
  txn (w_repo w) = None ->
  main P root pkgs w = (w', r) ->
  txn (w_repo w') = None /\
  (forall ref, is_Some (refs (w_repo w) !! ref) -> is_Some (refs (w_repo w') !! ref)) /\
  (forall rev, is_Some (commits (w_repo w) !! rev) ->
               is_Some (commits (w_repo w') !! rev)).
Proof.
  intros Htxn H. revert Htxn. change (keeps_refs w w').
  apply (main_preserves keeps_refs root pkgs w w' r); try done.
  - exact keeps_refs_trans.
  - intros w0 w1 r0 H0. by apply same_repo_keeps_refs, (repo_create_same_repo _ _ _ H0).
  - intros w0 w1 r0 H0.
    by apply same_repo_keeps_refs, (Registry_new_same_repo P root _ _ _ H0).
  - intros w0 w1 r0 H0. by apply same_repo_keeps_refs, (run_summary_same_repo _ _ _ H0).
  - intros registry pairs _. apply import_images_keeps_refs.
Qed.

Lemma only_adds_dirs_refl target w : only_adds_dirs target w w.
Proof. intros q. by left. Qed.

Lemma only_adds_dirs_trans target w1 w2 w3 :
  only_adds_dirs target w1 w2 -> only_adds_dirs target w2 w3 ->
  only_adds_dirs target w1 w3.
Proof.
  intros H12 H23 q.
  destruct (H12 q) as [E12 | (N1 & D2 & Hp)], (H23 q) as [E23 | (N2 & D3 & Hp')].
  - left. congruence.
  - right. split_and!; [congruence | done | done].
  - right. split_and!; [done | congruence | done].
  - congruence.
Qed.

Lemma same_fs_only_adds_dirs target w w' : same_fs w w' -> only_adds_dirs target w w'.
Proof. unfold same_fs. intros H q. left. by rewrite H. Qed.

(** Whatever comes of [Registry.__init__], it has at most added
    directories on the way to the blob directory. *)
Lemma Registry_new_only_adds root :
  preserves (only_adds_dirs (blob_dir_of root)) (Registry_new P root).
Proof.
  intros w w' r H. unfold Registry_new, bind, get_fs in H.
  destruct (exists_ (w_fs w) root) eqn:Hex; cbn [negb] in H.
  - unfold ret in H. cbn [Registry_blob_dirs] in H.
    unfold bind, fs_step, mkdir_parents in H. fold (blob_dir_of root) in H.
    destruct (mkdirs (w_fs w) [] (blob_dir_of root)) as [e|fs1] eqn:Hmk.
    + injection H as <- _. apply only_adds_dirs_refl.
    + unfold ret in H. injection H as <- _. intros q. cbn [with_fs w_fs].
      destruct (mkdirs_frame _ _ _ _ Hmk q) as [Hq | (Hn & Hd & k & _ & Hpre & ->)];
        [by left | by right].
  - unfold Registry_init, open_write, fs_step in H.
    destruct (write_file (w_fs w) (joinpath root "oci-layout") _) as [e|fs1] eqn:Hw.
    + injection H as <- _. apply only_adds_dirs_refl.
    + exfalso. change (joinpath root "oci-layout") with (root ++ ["oci-layout"]) in Hw.
      unfold write_file, parent in Hw. rewrite removelast_last in Hw.
      assert (is_dir (w_fs w) root = false) as Hdir.
      { unfold is_dir, exists_ in *. destruct root as [|c rest]; [done|].
        by destruct (w_fs w !! (c :: rest)). }
      rewrite Hdir in Hw. by destruct (is_dir (w_fs w) (root ++ ["oci-layout"])).
Qed.

Lemma import_images_same_fs registry existing images :
  preserves same_fs (import_images P registry existing images).
Proof.
  induction images as [|img rest IH]; cbn [import_images].
  - footprint.
  - pose proof (import_image_same_fs P registry img). footprint.
Qed.

Lemma repo_create_same_fs : preserves same_fs (repo_create P).
Proof. unfold repo_create. footprint. Qed.

Lemma run_summary_same_fs : preserves same_fs (run_summary P).
Proof. unfold run_summary. footprint. Qed.

(** X23.  Whatever comes of a run, the script has left every entry of
    the file system it works on with [open], [rename] and [mkdir] as it
    was: it reads the registry, and the only thing it may create is the
    blob directory [root/blobs/sha256] with the directories above it.
    No file is written, changed or removed.  (The repository is followed
    apart, in [w_repo]; the directory [tar] extracts to is handed over
    as a value and does not show in [w_fs].) *)
Theorem main_keeps_files (root : path) (pkgs : string) (w w' : World) (r : result unit) :
  main P root pkgs w = (w', r) ->
  forall q, w_fs w' !! q = w_fs w !! q \/
            (w_fs w !! q = None /\ w_fs w' !! q = Some Dir /\
             q `prefix_of` blob_dir_of root).
Proof.
  intros H. change (only_adds_dirs (blob_dir_of root) w w').
  apply (main_preserves (only_adds_dirs (blob_dir_of root)) root pkgs w w' r); try done.
  - apply only_adds_dirs_refl.
  - apply only_adds_dirs_trans.
  - intros w0 w1 r0 H0. by apply same_fs_only_adds_dirs, (repo_create_same_fs _ _ _ H0).
  - apply Registry_new_only_adds.
  - intros w0 w1 r0 H0. by apply same_fs_only_adds_dirs, (run_summary_same_fs _ _ _ H0).
  - intros registry pairs _ w0 w1 r0 H0.
    by apply same_fs_only_adds_dirs, (import_images_same_fs _ _ _ _ _ _ H0).
Qed.

Lemma keeps_loadable_refl w : keeps_loadable w w.
Proof. by intros H. Qed.

Lemma keeps_loadable_trans w1 w2 w3 :
  keeps_loadable w1 w2 -> keeps_loadable w2 w3 -> keeps_loadable w1 w3.
Proof. unfold keeps_loadable. tauto. Qed.

Lemma same_repo_keeps_loadable w w' : same_repo w w' -> keeps_loadable w w'.
Proof. unfold same_repo, keeps_loadable. by intros ->. Qed.

Lemma import_image_keeps_loadable registry digest :
  preserves keeps_loadable (import_image P registry digest).
Proof.
  intros w w' [e|u] H [Htxn Hload].
  - rewrite (import_image_Raise_repo _ _ _ _ _ Htxn H). done.
  - apply import_image_Return in H
      as (_ & i & layers & dirs & mtree & c & ref & levs & _ & _ & _ & _
          & _ & _ & Hrepo & _ & _).
    rewrite Hrepo. unfold published. split; [done|]. cbn [refs commits].
    intros ref' rev Hr. destruct (decide (ref' = ref)) as [->|Hne].
    + rewrite lookup_insert_eq in Hr. injection Hr as <-.
      rewrite lookup_insert_eq. by eexists.
    + rewrite lookup_insert_ne in Hr by done. apply Hload in Hr.
      destruct (decide (rev = commit_checksum P c)) as [->|Hne'].
      * rewrite lookup_insert_eq. by eexists.
      * by rewrite lookup_insert_ne.
Qed.

Lemma import_images_keeps_loadable registry existing images :
  preserves keeps_loadable (import_images P registry existing images).
Proof.
  assert (forall e, preserves keeps_loadable (emit e)) as Hemit.
  { intros e w w' r H. by apply same_repo_keeps_loadable, (emit_same_repo e _ _ _ H). }
  induction images as [|img rest IH]; cbn [import_images].
  - apply preserves_ret. exact keeps_loadable_refl.
  - destruct (truthy (existing !! img)).
    + apply preserves_bind; [exact keeps_loadable_trans | apply Hemit | done].
    + apply preserves_bind; [exact keeps_loadable_trans | apply Hemit | intros ?].
      apply preserves_bind;
        [exact keeps_loadable_trans | apply import_image_keeps_loadable | done].
Qed.

(** X24.  A run never leaves a ref without its commit: when the index
    could be read before the run, it can be read after it, whatever
    came of the run, so the next run gets past [iter_commits]. *)
Theorem main_keeps_index_readable (root : path) (pkgs : string) (w w' : World)
    (r : result unit) (pairs : list (string * string)) :
  txn (w_repo w) = None ->
  iter_commits w = (w, Return pairs) ->
  main P root pkgs w = (w', r) ->
  exists pairs', iter_commits w' = (w', Return pairs').
Proof.
  intros Htxn Hidx H.
  assert (refs_loadable (w_repo w)) as Hload.
  { split; [done|]. unfold iter_commits, bind, get_repo, lift in Hidx.
    injection Hidx as Hidx. apply iter_commits_over_Return in Hidx as [Hl _].
    intros ref rev Hr. destruct (Hl ref) as (rev' & c & Hr' & Hc).
    { apply list_refs_In. by eexists. }
    rewrite Hr in Hr'. injection Hr' as <-. by eexists. }
  assert (keeps_loadable w w') as Hkeep.
  { apply (main_preserves keeps_loadable root pkgs w w' r); try done.
    - exact keeps_loadable_refl.
    - exact keeps_loadable_trans.
    - intros w0 w1 r0 H0.
      by apply same_repo_keeps_loadable, (repo_create_same_repo _ _ _ H0).
    - intros w0 w1 r0 H0.
      by apply same_repo_keeps_loadable, (Registry_new_same_repo P root _ _ _ H0).
    - intros w0 w1 r0 H0.
      by apply same_repo_keeps_loadable, (run_summary_same_repo _ _ _ H0).
    - intros registry pairs0 _. apply import_images_keeps_loadable. }
  destruct (Hkeep Hload) as [_ Hload'].
  destruct (iter_commits_over_total (w_repo w') (list_refs (w_repo w'))) as [pairs' Hp].
  { intros ref Hin. apply list_refs_In in Hin as [rev Hr].
    destruct (Hload' _ _ Hr) as [c Hc]. by exists rev, c. }
  exists pairs'. unfold iter_commits, bind, get_repo, lift. by rewrite Hp.
Qed.

End Loop.

(** ** The run, image by image *)

Section Steps.

Context (P : Platform).




















End Steps.

Section Rerun.

Context (P : Platform).
Context (Hrev : forall c, commit_checksum P c <> "").


End Rerun.

(** ** The script run on the small platform *)

Import Demo.

(** A run is known by its result; the world it leaves is kept as it is
    written. *)
Lemma run_result {A} (x : World * result A) (r : result A) :
  snd x = r -> x = (fst x, r).
Proof. destruct x. simpl. by intros ->. Qed.

Lemma pure_result {A} (m : M A) (w : World) (r : result A) :
  preserves eq m -> snd (m w) = r -> m w = (w, r).
Proof.
  intros Hpure Hr. destruct (m w) as [w' r'] eqn:E. simpl in Hr. subst r'.
  by rewrite (Hpure _ _ _ E).
Qed.

(** Evaluates the result of a run. *)
Ltac run :=
  match goal with
  | |- ?x = (_, ?r) =>
      let H := fresh in
      assert (snd x = r) as H by (vm_compute; reflexivity);
      exact (run_result x r H)
  end.

Ltac run_pure :=
  match goal with
  | |- ?m ?w = (?w, ?r) =>
      let H := fresh in
      assert (snd (m w) = r) as H by (vm_compute; reflexivity);
      refine (pure_result m w r _ H);
      first [apply blobs_get_json_pure | apply iter_commits_pure]
  end.

Lemma demo_overlay fault : overlay_contract (platform fault).
Proof.
  intros dir mtree merged H p. simpl in H. injection H as <-.
  rewrite lookup_union. by destruct (dir !! p), (mtree !! p).
Qed.


(** An import interrupted at its fifth external operation, inside the
    transaction: the repository is as it was. *)
Lemma import_image_raise_aborts_witness :
  let out := import_image (platform (fault_at 4)) registry aa world in
  snd out = Raise (Interrupted "signal") /\
  w_repo (fst out) = w_repo world /\
  w_fs (fst out) = w_fs world /\
  exists evs, added world (fst out) evs /\
    (evs = [] \/
     exists mid, evs = RepoPrepare :: mid ++ [RepoAbort] /\
                 Forall (fun ev => in_transaction ev = true) mid).
Proof.
  intros out. split; [vm_compute; reflexivity|].
  apply (import_image_raise_aborts (platform (fault_at 4)) registry aa world (fst out)
           (Interrupted "signal")).
  - reflexivity.
  - run.
Defined.


(** What the second run does. *)
Example rerun_trace :
  let w1 := fst (main P0 registry_root aa world) in
  let w2 := fst (main P0 registry_root aa w1) in
  added w1 w2 [RepoCreate; PrintFound Demo2.rev_aa aa; RunSummary].
Proof. vm_compute; reflexivity. Qed.


(** C3 as stated fails: the commit written for the image has no entry
    keyed [alt-id] or [diff-id]; the keys are [xa.alt-id] and [xa.diff-id]. *)
Lemma commit_metadata_keys_are_prefixed :
  let w' := fst (import_image P0 registry aa world) in
  snd (import_image P0 registry aa world) = Return tt /\
  ~ (exists rev c v,
       refs (w_repo w') !! "app/org.example.App/x86_64/stable" = Some rev /\
       commits (w_repo w') !! rev = Some c /\
       (vardict_lookup "alt-id" (c_metadata c) = Some v \/
        vardict_lookup "diff-id" (c_metadata c) = Some v)).
Proof.
  intros w'. split; [vm_compute; reflexivity|].
  intros (rev & c & v & Href & Hc & Hv).
  assert (refs (w_repo w') !! "app/org.example.App/x86_64/stable"
          = Some "rev-etc/motd=hello;bin/app=v2;-aa") as Href'
    by (vm_compute; reflexivity).
  rewrite Href' in Href. injection Href as <-.
  assert (c_metadata <$> commits (w_repo w') !! "rev-etc/motd=hello;bin/app=v2;-aa"
          = Some [("xa.foo", VOpaque bar); ("xa.alt-id", VString "aa");
                  ("xa.diff-id", VString "d2")]) as Hc'
    by (vm_compute; reflexivity).
  rewrite Hc in Hc'. injection Hc' as Hmd. rewrite Hmd in Hv.
  clear Hc Href' w'. destruct Hv as [Hv|Hv]; vm_compute in Hv; discriminate Hv.
Qed.

Lemma commit_metadata_fidelity_witness :
  let w' := fst (import_image P0 registry aa world) in
  exists manifest config labels algorithm hash diff_ids last_diff algorithm' hash' c entries,
    image_config P0 registry world aa manifest config labels /\
    cut ":" aa = Some (algorithm, hash) /\
    (exists rootfs, getitem config "rootfs" = Return rootfs /\
                    getitem rootfs "diff_ids" = Return diff_ids) /\
    getitem_last diff_ids = Return (JStr last_diff) /\
    cut ":" last_diff = Some (algorithm', hash') /\
    commits (w_repo w') !! commit_checksum P0 c = Some c /\
    (exists ref, refs (w_repo w') !! ref = Some (commit_checksum P0 c)) /\
    c_metadata c =
      entries ++ [("xa.alt-id", VString hash); ("xa.diff-id", VString hash')] /\
    Forall2 (metadata_entry_of P0) (List.filter is_metadata_label labels) entries.
Proof.
  intros w'. apply (commit_metadata_fidelity P0 registry aa world w' tt).
  run.
Defined.

Lemma demo_config_b :
  image_config P0 registry world "sha256:bb"
    (JObj [ ("config", JObj [("digest", JStr "sha256:c1")]); ("layers", JArr []) ])
    (config_of labels_no_subject) labels_no_subject.
Proof.
  split_and!.
  - run_pure.
  - eexists _, _. split_and!; [reflexivity | reflexivity |].
    run_pure.
  - eexists. split; reflexivity.
Qed.

Lemma demo_config_c :
  image_config P0 registry world "sha256:cc"
    (JObj [ ("config", JObj [("digest", JStr "sha256:c2")]); ("layers", JArr []) ])
    (config_of labels_bad_timestamp) labels_bad_timestamp.
Proof.
  split_and!.
  - run_pure.
  - eexists _, _. split_and!; [reflexivity | reflexivity |].
    run_pure.
  - eexists. split; reflexivity.
Qed.

(** C4 as stated fails: these labels lack the subject (and the body),
    and the import raises the [ValueError] of [int], not a [KeyError]. *)
Lemma missing_subject_raises_ValueError :
  (exists manifest,
     image_config P0 registry world "sha256:cc" manifest
       (config_of labels_bad_timestamp) labels_bad_timestamp) /\
  assoc "org.flatpak.subject" labels_bad_timestamp = None /\
  snd (import_image P0 registry "sha256:cc" world) = Raise ValueError /\
  ~ (exists key w', import_image P0 registry "sha256:cc" world = (w', Raise (KeyError key))).
Proof.
  assert (snd (import_image P0 registry "sha256:cc" world) = Raise ValueError) as H
    by (vm_compute; reflexivity).
  split_and!.
  - eexists. apply demo_config_c.
  - reflexivity.
  - exact H.
  - intros (key & w' & H'). rewrite H' in H. discriminate H.
Qed.

(** Labels without a subject: the [KeyError] of the lookup when the
    timestamp converts, the [ValueError] of [int] when it does not. *)
Lemma missing_label_fails_witness :
  import_image P0 registry "sha256:bb" world
    = (world, Raise (KeyError "org.flatpak.subject")) /\
  import_image P0 registry "sha256:cc" world = (world, Raise ValueError).
Proof.
  split.
  - destruct (missing_label_fails P0 registry "sha256:bb" world _ _ _
                "org.flatpak.subject" demo_config_b eq_refl) as (_ & H & _).
    apply H. right.
    intros v Hv. vm_compute in Hv. injection Hv as <-. eexists. vm_compute. reflexivity.
  - destruct (missing_label_fails P0 registry "sha256:cc" world _ _ _
                "org.flatpak.subject" demo_config_c eq_refl) as (_ & _ & H).
    apply (H "soon"); [discriminate | reflexivity | reflexivity].
Defined.

(** Two layers with the same path: the tree has the second layer's entry. *)
Lemma layers_last_writer_wins_witness :
  let w' := fst (import_image P0 registry aa world) in
  exists i layers dirs mtree c,
    import_image_resolve P0 registry aa world = (world, Return i) /\
    rbind (getitem (i_manifest i) "layers") iterate = Return layers /\
    Forall2 (layer_dir P0 registry (w_fs world)) layers dirs /\
    commit_of P0 i mtree c /\
    commits (w_repo w') !! commit_checksum P0 c = Some c /\
    trees (w_repo w') !! c_root c = Some mtree /\
    forall p, mtree !! p = latest dirs p.
Proof.
  intros w'.
  apply (layers_last_writer_wins P0 (demo_overlay no_fault) registry aa world w' tt).
  run.
Defined.

Example demo_latest :
  latest [layer1; layer2] "bin/app" = Some "v2" /\
  latest [layer1; layer2] "etc/motd" = Some "hello".
Proof. split; vm_compute; reflexivity. Qed.

(** The tree that the import of the two layers publishes. *)
Example demo_tree :
  let r := w_repo (fst (import_image P0 registry aa world)) in
  trees r !! "etc/motd=hello;bin/app=v2;"
    = Some (<["bin/app" := "v2"]> (<["etc/motd" := "hello"]> ∅)).
Proof. vm_compute; reflexivity. Qed.

(** A registry root that does not exist, and one below a regular
    file. *)
Lemma Registry_new_missing_root_raises_witness :
  Registry_new P0 ["srv"; "new"] world = (world, Raise FileNotFoundError) /\
  Registry_new P0 (blob_dir ++ ["aa"; "new"]) world = (world, Raise NotADirectoryError).
Proof.
  split.
  - destruct (Registry_new_missing_root_raises P0 ["srv"; "new"] world) as [_ H].
    + vm_compute; reflexivity.
    + vm_compute; reflexivity.
    + apply H. intros k Hk Hpre.
      destruct k as [|c k]; [done|].
      apply prefix_cons_inv_1 in Hpre as Hc. apply prefix_cons_inv_2 in Hpre.
      apply prefix_nil_inv in Hpre. subst c k. vm_compute; reflexivity.
  - destruct (Registry_new_missing_root_raises P0 (blob_dir ++ ["aa"; "new"]) world)
      as [H _].
    + vm_compute; reflexivity.
    + vm_compute; reflexivity.
    + assert (absent_error (w_fs world) [] ((blob_dir ++ ["aa"; "new"]) ++ ["oci-layout"])
              = NotADirectoryError) as E by (vm_compute; reflexivity).
      rewrite <- E. exact H.
Defined.

Example blobs_add_json_demo :
  snd (blobs_add_json P0 registry (JObj [("schemaVersion", JNum 2)]) "manifest" "sha256"
         world) = Raise TypeError.
Proof. vm_compute; reflexivity. Qed.

(** C8 as stated fails: for an algorithm without a blob directory
    [path_for_blob] returns [None]; it raises nothing. *)
Lemma path_for_blob_unsupported_returns_None :
  assoc "md5" (blobs registry) = None /\
  path_for_blob registry (JStr "md5:0f") = Return None /\
  ~ (exists e, path_for_blob registry (JStr "md5:0f") = Raise e).
Proof.
  split_and!; [reflexivity | reflexivity |].
  intros [e H]. vm_compute in H. discriminate H.
Qed.

Lemma path_for_blob_cases_witness :
  path_for_blob registry (JStr "sha256:1a") = Return (Some (blob_dir ++ ["1a"])) /\
  path_for_blob registry (JStr "md5:1a") = Return None.
Proof.
  split.
  - apply (path_for_blob_cases registry "sha256" "1a" eq_refl).
    split; [discriminate | reflexivity].
  - exact (path_for_blob_cases registry "md5" "1a" eq_refl).
Defined.

Lemma summary_once_witness :
  let w' := fst (main P0 registry_root aa world) in
  exists evs, added world w' evs /\
    count is_summary evs = 1%nat /\
    exists before, evs = before ++ [RunSummary] /\ count is_summary before = 0%nat.
Proof.
  intros w'.
  apply (summary_once P0 registry_root aa world w' (Return tt)).
  run.
Defined.

(** A failing import: the summary is not run. *)
Example summary_not_run_demo :
  let out := main P0 registry_root "sha256:bb" world in
  snd out = Raise (KeyError "org.flatpak.subject") /\
  count is_summary (w_trace (fst out)) = 0%nat.
Proof. split; vm_compute; reflexivity. Qed.


(** What that run does: the second occurrence is imported as the first
    was. *)
Example duplicates_trace :
  let pkgs := "sha256:aa" +:+ String "010" (String "010" "sha256:aa") in
  let w' := fst (main P0 registry_root pkgs world) in
  let c :=
    mkCommit None (Some "Export") (Some "Body")
      [("xa.foo", VOpaque bar); ("xa.alt-id", VString "aa"); ("xa.diff-id", VString "d2")]
      "etc/motd=hello;bin/app=v2;" 1700000000 in
  let import :=
    PrintImporting aa ::
    import_trace P0 (layers_trace [blob_dir ++ ["1a"]; blob_dir ++ ["1b"]])
      (JStr "app/org.example.App/x86_64/stable") "app/org.example.App/x86_64/stable" c in
  added world w' ([RepoCreate] ++ import ++ import ++ [RunSummary]).
Proof. vm_compute; reflexivity. Qed.

(** ** More runs on the small platform *)

Lemma demo_hex data : is_hex_hash (sha256sum_field P0 Demo2.one_tar data).
Proof. split; [discriminate | reflexivity]. Qed.

(** A registry set up under [/srv], where no blob directory is yet, and
    set up again. *)
Lemma Registry_new_twice_witness :
  let w1 := fst (Registry_new P0 ["srv"] world) in
  Registry_new P0 ["srv"] w1
    = (w1, Return (mkRegistry ["srv"] [("sha256", ["srv"; "blobs"; "sha256"])])).
Proof.
  intros w1. apply (Registry_new_twice P0 ["srv"] world w1). run.
Defined.

Lemma Registry_new_only_adds_directories_witness :
  let w' := fst (Registry_new P0 ["srv"] world) in
  let registry := mkRegistry ["srv"] [("sha256", ["srv"; "blobs"; "sha256"])] in
  registry = mkRegistry ["srv"] [("sha256", blob_dir_of ["srv"])] /\
  w_fs w' !! blob_dir_of ["srv"] = Some Dir /\
  w_repo w' = w_repo world /\ w_trace w' = w_trace world /\
  forall q, w_fs w' !! q = w_fs world !! q \/
            (w_fs world !! q = None /\ w_fs w' !! q = Some Dir /\
             q `prefix_of` blob_dir_of ["srv"]).
Proof.
  intros w' registry.
  apply (Registry_new_only_adds_directories P0 ["srv"] world w' registry). run.
Defined.

Lemma Index_new_after_Registry_new_witness :
  let w' := fst (Registry_new P0 ["srv"] world) in
  Index_new P0 (mkRegistry ["srv"] [("sha256", ["srv"; "blobs"; "sha256"])]) w'
    = (w', Raise FileNotFoundError).
Proof.
  intros w'. apply (Index_new_after_Registry_new P0 ["srv"] world w').
  - vm_compute; reflexivity.
  - run.
Defined.

Lemma unsupported_algorithm_raises_witness :
  blobs_get_json P0 registry (JStr "md5:0f") world = (world, Raise TypeError) /\
  Registry_contains registry (JStr "md5:0f") world = (world, Raise AttributeError) /\
  import_image P0 registry "md5:0f" world = (world, Raise TypeError).
Proof.
  exact (unsupported_algorithm_raises P0 registry "md5" "0f" world eq_refl eq_refl).
Defined.

Lemma digest_without_colon_raises_witness :
  blobs_get_json P0 registry (JStr "latest") world = (world, Raise ValueError) /\
  Registry_contains registry (JStr "latest") world = (world, Raise ValueError) /\
  import_image P0 registry "latest" world = (world, Raise ValueError).
Proof.
  exact (digest_without_colon_raises P0 registry "latest" world eq_refl).
Defined.

Lemma demo_hex_aa : is_hex_hash "aa".
Proof. split; [discriminate | reflexivity]. Qed.

Lemma demo_hex_0f : is_hex_hash "0f".
Proof. split; [discriminate | reflexivity]. Qed.

Lemma demo_hex_ba : is_hex_hash "ba".
Proof. split; [discriminate | reflexivity]. Qed.

(** The directories down to the blob directory are there. *)
Lemma demo_blob_dir_prefixes k :
  k <> [] -> k `prefix_of` blob_dir -> w_fs Demo2.world !! k = Some Dir.
Proof.
  intros Hk Hpre. unfold blob_dir in Hpre.
  destruct k as [|c1 k]; [done|].
  apply prefix_cons_inv_1 in Hpre as Hc; subst. apply prefix_cons_inv_2 in Hpre.
  destruct k as [|c2 k]; [vm_compute; reflexivity|].
  apply prefix_cons_inv_1 in Hpre as Hc; subst. apply prefix_cons_inv_2 in Hpre.
  destruct k as [|c3 k]; [vm_compute; reflexivity|].
  apply prefix_cons_inv_1 in Hpre as Hc; subst. apply prefix_cons_inv_2 in Hpre.
  destruct k as [|c4 k]; [vm_compute; reflexivity|].
  apply prefix_cons_inv_1 in Hpre as Hc; subst. apply prefix_cons_inv_2 in Hpre.
  apply prefix_nil_inv in Hpre as ->. vm_compute; reflexivity.
Qed.

(** A blob that is there, a hash that no blob has, a blob that is not
    text, and a blob directory that is a regular file. *)
Lemma blob_lookup_cases_witness :
  let w := Demo2.world in
  (Registry_contains registry (JStr "sha256:aa") w = (w, Return true) /\
   blobs_get_json P0 registry (JStr "sha256:aa") w = (w, Return manifest_a)) /\
  (Registry_contains registry (JStr "sha256:0f") w = (w, Return false) /\
   blobs_get_json P0 registry (JStr "sha256:0f") w = (w, Raise FileNotFoundError)) /\
  blobs_get_json P0 registry (JStr "sha256:ba") w = (w, Raise UnicodeDecodeError) /\
  blobs_get_json P0 (mkRegistry registry_root [("sha256", blob_dir ++ ["aa"])])
    (JStr "sha256:0f") w = (w, Raise NotADirectoryError).
Proof.
  intros w. split_and!.
  - destruct (blob_lookup_cases P0 registry "sha256" "aa" blob_dir w eq_refl
                demo_hex_aa eq_refl) as (H & _ & _).
    assert (w_fs w !! (blob_dir ++ ["aa"]) = Some (File "manifest a")) as E
      by (vm_compute; reflexivity).
    rewrite E in H. exact H.
  - destruct (blob_lookup_cases P0 registry "sha256" "aa" blob_dir w eq_refl
                demo_hex_aa eq_refl) as (_ & H & _).
    assert (w_fs w !! (blob_dir ++ ["aa"]) = Some (File "manifest a")) as E
      by (vm_compute; reflexivity).
    rewrite E in H. exact H.
  - destruct (blob_lookup_cases P0 registry "sha256" "0f" blob_dir w eq_refl
                demo_hex_0f eq_refl) as (H & _ & _).
    assert (w_fs w !! (blob_dir ++ ["0f"]) = None) as E by (vm_compute; reflexivity).
    rewrite E in H. exact H.
  - destruct (blob_lookup_cases P0 registry "sha256" "0f" blob_dir w eq_refl
                demo_hex_0f eq_refl) as (_ & _ & H).
    apply H; [|vm_compute; reflexivity].
    intros k Hk Hpre. apply demo_blob_dir_prefixes; [done|]. exact Hpre.
  - destruct (blob_lookup_cases P0 registry "sha256" "ba" blob_dir w eq_refl
                demo_hex_ba eq_refl) as (_ & H & _).
    assert (w_fs w !! (blob_dir ++ ["ba"]) = Some (File Demo2.not_text)) as E
      by (vm_compute; reflexivity).
    rewrite E in H. exact H.
  - destruct (blob_lookup_cases P0 (mkRegistry registry_root [("sha256", blob_dir ++ ["aa"])])
                "sha256" "0f" (blob_dir ++ ["aa"]) w eq_refl demo_hex_0f eq_refl)
      as (_ & H & _).
    assert (w_fs w !! ((blob_dir ++ ["aa"]) ++ ["0f"]) = None) as E
      by (vm_compute; reflexivity).
    rewrite E in H.
    assert (absent_error (w_fs w) [] ((blob_dir ++ ["aa"]) ++ ["0f"]) = NotADirectoryError)
      as E' by (vm_compute; reflexivity).
    rewrite E' in H. exact H.
Defined.

(** An archive waiting in [/srv/incoming] is added as a layer. *)
Lemma blobs_add_file_stores_witness :
  let w' := fst (blobs_add_file P0 registry (PathLike Demo2.one_tar) "layer" "sha256"
                   Demo2.world) in
  exists dir data digest media,
    assoc "sha256" (blobs registry) = Some dir /\
    read_file (w_fs Demo2.world) Demo2.one_tar = Return data /\
    getitem Demo2.layer_info "digest" = Return (JStr digest) /\
    digest = "sha256" +:+ ":" +:+ sha256sum_field P0 Demo2.one_tar data /\
    getitem Demo2.layer_info "size" = Return (JNum (Z.of_nat (String.length data))) /\
    assoc "layer" MEDIA_TYPES = Some media /\
    getitem Demo2.layer_info "mediaType" = Return (JStr media) /\
    path_for_blob registry (JStr digest)
      = Return (Some (dir ++ [sha256sum_field P0 Demo2.one_tar data])) /\
    read_file (w_fs w') (dir ++ [sha256sum_field P0 Demo2.one_tar data]) = Return data /\
    Registry_contains registry (JStr digest) w' = (w', Return true) /\
    blobs_get_json P0 registry (JStr digest) w' = (w', json_load P0 data) /\
    (Demo2.one_tar <> dir ++ [sha256sum_field P0 Demo2.one_tar data] ->
     w_fs w' !! Demo2.one_tar = None).
Proof.
  intros w'.
  apply (blobs_add_file_stores P0 registry Demo2.one_tar "layer" "sha256"
           Demo2.world w' Demo2.layer_info eq_refl (fun data _ => demo_hex data)).
  run.
Defined.

(** Three archives with the same bytes, added one after the other: the
    second gets the descriptor of the first; the name of the third has a
    backslash, [sha256sum] marks its line with one, and the descriptor is
    another. *)
Lemma blobs_add_file_same_bytes_witness :
  let add p := blobs_add_file P0 registry (PathLike p) "layer" "sha256" in
  let w1 := fst (add Demo2.one_tar Demo2.world) in
  let w2 := fst (add Demo2.two_tar w1) in
  let w3 := fst (add Demo2.odd_tar w2) in
  let field p := sha256sum_field P0 p "archive 1" in
  ((Demo2.layer_info = Demo2.layer_info <-> field Demo2.two_tar = field Demo2.one_tar) /\
   exists dir,
     assoc "sha256" (blobs registry) = Some dir /\
     w_fs w1 !! joinpath dir (field Demo2.one_tar) = Some (File "archive 1") /\
     w_fs w2 !! joinpath dir (field Demo2.two_tar) = Some (File "archive 1") /\
     (field Demo2.two_tar = field Demo2.one_tar ->
      Demo2.two_tar <> joinpath dir (field Demo2.one_tar) ->
      w_fs w2 = delete Demo2.two_tar (w_fs w1))) /\
  ((Demo2.odd_layer_info = Demo2.layer_info <->
    field Demo2.odd_tar = field Demo2.two_tar) /\
   exists dir,
     assoc "sha256" (blobs registry) = Some dir /\
     w_fs w2 !! joinpath dir (field Demo2.two_tar) = Some (File "archive 1") /\
     w_fs w3 !! joinpath dir (field Demo2.odd_tar) = Some (File "archive 1") /\
     (field Demo2.odd_tar = field Demo2.two_tar ->
      Demo2.odd_tar <> joinpath dir (field Demo2.two_tar) ->
      w_fs w3 = delete Demo2.odd_tar (w_fs w2))).
Proof.
  intros add w1 w2 w3 field. split.
  - apply (blobs_add_file_same_bytes P0 registry Demo2.one_tar Demo2.two_tar "layer"
             "sha256" Demo2.world w1 w2 Demo2.layer_info Demo2.layer_info "archive 1").
    + vm_compute; reflexivity.
    + vm_compute; reflexivity.
    + run.
    + run.
  - apply (blobs_add_file_same_bytes P0 registry Demo2.two_tar Demo2.odd_tar "layer"
             "sha256" w1 w2 w3 Demo2.layer_info Demo2.odd_layer_info "archive 1").
    + vm_compute; reflexivity.
    + vm_compute; reflexivity.
    + run.
    + run.
Defined.

Example demo_fields :
  sha256sum_field P0 Demo2.one_tar "archive 1" = "00" /\
  sha256sum_field P0 Demo2.two_tar "archive 1" = "00" /\
  sha256sum_field P0 Demo2.odd_tar "archive 1" = String "092" "00".
Proof. split_and!; vm_compute; reflexivity. Qed.

Lemma demo_rename :
  rename (w_fs Demo2.world) Demo2.one_tar (joinpath blob_dir (sha256sum_field P0 Demo2.one_tar "archive 1"))
  = Return (<[blob_dir ++ ["00"] := File "archive 1"]>
              (delete Demo2.one_tar (w_fs Demo2.world))).
Proof.
  unfold rename.
  assert (w_fs Demo2.world !! Demo2.one_tar = Some (File "archive 1")) as ->
    by (vm_compute; reflexivity).
  assert (is_dir (w_fs Demo2.world) (joinpath blob_dir (sha256sum_field P0 Demo2.one_tar "archive 1"))
          = false) as -> by (vm_compute; reflexivity).
  assert (is_dir (w_fs Demo2.world)
            (parent (joinpath blob_dir (sha256sum_field P0 Demo2.one_tar "archive 1"))) = true) as ->
    by (vm_compute; reflexivity).
  reflexivity.
Qed.

(** The archive added under a media type that the table does not have. *)
Lemma blobs_add_file_unknown_type_witness :
  exists w',
    blobs_add_file P0 registry (PathLike Demo2.one_tar) "index" "sha256" Demo2.world
      = (w', Raise (KeyError "index")) /\
    w_fs w' = <[blob_dir ++ ["00"] := File "archive 1"]>
                (delete Demo2.one_tar (w_fs Demo2.world)) /\
    w_fs w' !! joinpath blob_dir (sha256sum_field P0 Demo2.one_tar "archive 1") = Some (File "archive 1") /\
    w_trace w' = w_trace Demo2.world.
Proof.
  apply (blobs_add_file_unknown_type P0 registry Demo2.one_tar blob_dir "index" "sha256"
           "archive 1").
  - reflexivity.
  - reflexivity.
  - reflexivity.
  - vm_compute; reflexivity.
  - exact demo_rename.
Defined.

Lemma import_image_repoints_ref_witness :
  let w' := fst (import_image P0 registry aa world) in
  exists manifest config labels ref c mtree,
    image_config P0 registry world aa manifest config labels /\
    assoc "org.flatpak.ref" labels = Some (JStr ref) /\
    refs (w_repo w') = <[ref := commit_checksum P0 c]> (refs (w_repo world)) /\
    commits (w_repo w') = <[commit_checksum P0 c := c]> (commits (w_repo world)) /\
    trees (w_repo w') = <[c_root c := mtree]> (trees (w_repo world)) /\
    txn (w_repo w') = None /\
    w_fs w' = w_fs world.
Proof.
  intros w'. apply (import_image_repoints_ref P0 registry aa world w' tt). run.
Defined.

Lemma commit_fields_from_labels_witness :
  let w' := fst (import_image P0 registry aa world) in
  exists manifest config labels ts c,
    image_config P0 registry world aa manifest config labels /\
    commits (w_repo w') !! commit_checksum P0 c = Some c /\
    (exists ref, refs (w_repo w') !! ref = Some (commit_checksum P0 c)) /\
    as_utf8_nullable (assoc "org.flatpak.parent-commit" labels) = Return (c_parent c) /\
    as_utf8_nullable (assoc "org.flatpak.subject" labels) = Return (c_subject c) /\
    as_utf8_nullable (assoc "org.flatpak.body" labels) = Return (c_body c) /\
    assoc "org.flatpak.timestamp" labels = Some ts /\
    py_int P0 ts = Return (c_timestamp c) /\
    0 <= c_timestamp c < 2 ^ 64.
Proof.
  intros w'. apply (commit_fields_from_labels P0 registry aa world w' tt). run.
Defined.

Lemma imported_ref_indexes_digest_witness :
  let w' := fst (import_image P0 registry aa world) in
  exists manifest config labels ref rev,
    image_config P0 registry world aa manifest config labels /\
    assoc "org.flatpak.ref" labels = Some (JStr ref) /\
    refs (w_repo w') !! ref = Some rev /\
    forall key rev', indexed (w_repo w') ref key rev' <-> key = aa /\ rev' = rev.
Proof.
  intros w'.
  apply (imported_ref_indexes_digest P0 registry blob_dir aa world w' tt).
  - reflexivity.
  - vm_compute; reflexivity.
  - run.
Defined.

(** An image whose only layer has no blob in the registry. *)
Lemma missing_layer_blob_aborts_witness :
  exists w',
    import_image Demo2.platform registry "sha256:dd" Demo2.world
      = (w', Raise CalledProcessError) /\
    w_repo w' = w_repo Demo2.world /\
    w_fs w' = w_fs Demo2.world /\
    added Demo2.world w' [RepoPrepare; RunTar (blob_dir ++ ["1c"]); RepoAbort].
Proof.
  apply (missing_layer_blob_aborts Demo2.platform registry "sha256:dd" Demo2.world
           (mkImageInfo Demo2.manifest_d (JStr "app/org.example.App/x86_64/stable") None
              1700000000 (JStr "Export") (JStr "Body")
              [ ("xa.foo", VOpaque bar); ("xa.alt-id", VString "dd");
                ("xa.diff-id", VString "d2") ])
           (JObj [("digest", JStr "sha256:1c")]) [] (blob_dir ++ ["1c"])
           FileNotFoundError).
  - reflexivity.
  - reflexivity.
  - reflexivity.
  - refine (pure_result _ _ _ (import_image_resolve_pure _ _ _) _).
    vm_compute; reflexivity.
  - reflexivity.
  - exists (JStr "sha256:1c"). split; reflexivity.
  - vm_compute; reflexivity.
Defined.

Lemma demo_config_e :
  image_config Demo2.platform registry Demo2.world "sha256:ee"
    Demo2.manifest_e Demo2.config_no_diff_ids labels_a.
Proof.
  split_and!.
  - run_pure.
  - eexists _, _. split_and!; [reflexivity | reflexivity |].
    run_pure.
  - eexists. split; reflexivity.
Qed.

Lemma demo_config_f :
  image_config Demo2.platform registry Demo2.world "sha256:ff"
    Demo2.manifest_f (config_of Demo2.labels_bad_metadata) Demo2.labels_bad_metadata.
Proof.
  split_and!.
  - run_pure.
  - eexists _, _. split_and!; [reflexivity | reflexivity |].
    run_pure.
  - eexists. split; reflexivity.
Qed.

(** A config with an empty list of diff ids. *)
Lemma empty_diff_ids_raises_witness :
  import_image Demo2.platform registry "sha256:ee" Demo2.world
    = (Demo2.world, Raise IndexError).
Proof.
  apply (empty_diff_ids_raises Demo2.platform registry "sha256:ee" Demo2.world
           Demo2.manifest_e Demo2.config_no_diff_ids
           (JObj [("diff_ids", JArr [])]) labels_a [("xa.foo", VOpaque bar)]).
  - exact demo_config_e.
  - vm_compute; reflexivity.
  - intros v Hv. vm_compute in Hv. injection Hv as <-. eexists. vm_compute. reflexivity.
  - vm_compute; reflexivity.
  - reflexivity.
  - reflexivity.
Defined.

(** A commit-metadata label that is not base64. *)
Lemma undecodable_metadata_label_fails_witness :
  exists e', import_image Demo2.platform registry "sha256:ff" Demo2.world
             = (Demo2.world, Raise e').
Proof.
  apply (undecodable_metadata_label_fails Demo2.platform registry "sha256:ff" Demo2.world
           Demo2.manifest_f (config_of Demo2.labels_bad_metadata)
           Demo2.labels_bad_metadata
           "org.flatpak.commit-metadata.xa.bad" (JStr "not base64") BinasciiError).
  - exact demo_config_f.
  - do 4 right. left. reflexivity.
  - reflexivity.
  - reflexivity.
Defined.

(** The index of the repository after one import. *)
Lemma iter_commits_index_witness :
  let w1 := fst (import_image P0 registry aa world) in
  let pairs := [(aa, Demo2.rev_aa)] in
  fst (iter_commits w1) = w1 /\
  (forall key rev,
     In (key, rev) pairs <-> exists ref, indexed (w_repo w1) ref key rev) /\
  (forall key,
     is_Some (py_dict pairs !! key) <-> exists ref rev, indexed (w_repo w1) ref key rev) /\
  (forall key rev,
     py_dict pairs !! key = Some rev -> exists ref, indexed (w_repo w1) ref key rev).
Proof.
  intros w1 pairs. apply (iter_commits_index w1 (fst (iter_commits w1)) pairs). run.
Defined.

Lemma import_image_protocol_witness :
  let w' := fst (import_image P0 registry aa world) in
  exists manifest layers archives ref c,
    blobs_get_json P0 registry (JStr aa) world = (world, Return manifest) /\
    rbind (getitem manifest "layers") iterate = Return layers /\
    Forall2 (layer_archive registry) layers archives /\
    added world w'
      ([RepoPrepare] ++ layers_trace archives ++
       [ RepoWriteMtree (c_root c); RepoWriteCommit (commit_checksum P0 c) c;
         PrintCommitting (commit_checksum P0 c) (JStr ref);
         RepoSetRef ref (commit_checksum P0 c); RepoCommit ]).
Proof.
  intros w'. apply (import_image_protocol P0 registry aa world w' tt). run.
Defined.

(** Three images, the second of which lacks a label: the first is
    imported, the third is not looked at. *)
Lemma import_images_halts_at_failure_witness :
  let w1 := fst (import_images P0 registry ∅ [aa] world) in
  let w2 := fst (import_image P0 registry "sha256:bb"
                   (fst (emit (PrintImporting "sha256:bb") w1))) in
  import_images P0 registry ∅ ([aa] ++ "sha256:bb" :: ["sha256:cc"]) world
    = (w2, Raise (KeyError "org.flatpak.subject")) /\
  (txn (w_repo world) = None -> w_repo w2 = w_repo w1).
Proof.
  intros w1 w2.
  apply (import_images_halts_at_failure P0 registry ∅ [aa] ["sha256:cc"] "sha256:bb"
           world w1 w2 (KeyError "org.flatpak.subject")).
  - run.
  - reflexivity.
  - run.
Defined.

(** A second run over the image of the first, listed twice. *)
Lemma main_indexed_only_witness :
  let w1 := fst (main P0 registry_root aa world) in
  let pkgs := "sha256:aa" +:+ String "010" "sha256:aa" in
  let w2 := fst (main P0 registry_root pkgs w1) in
  w_repo w2 = w_repo w1 /\
  exists evs, added w1 w2 evs /\ Forall (fun e => import_event e = false) evs.
Proof.
  intros w1 pkgs w2.
  apply (main_indexed_only P0 registry_root pkgs w1 w2 (Return tt) [(aa, Demo2.rev_aa)]).
  - run_pure.
  - intros img Hin. vm_compute in Hin.
    destruct Hin as [<-|[<-|[]]]; vm_compute; reflexivity.
  - run.
Defined.

(** A run that fails after an earlier run has imported an image. *)
Lemma main_keeps_refs_witness :
  let w1 := fst (main P0 registry_root aa world) in
  let w2 := fst (main P0 registry_root "sha256:bb" w1) in
  txn (w_repo w2) = None /\
  (forall ref, is_Some (refs (w_repo w1) !! ref) -> is_Some (refs (w_repo w2) !! ref)) /\
  (forall rev, is_Some (commits (w_repo w1) !! rev) ->
               is_Some (commits (w_repo w2) !! rev)).
Proof.
  intros w1 w2.
  apply (main_keeps_refs P0 registry_root "sha256:bb" w1 w2
           (Raise (KeyError "org.flatpak.subject"))).
  - vm_compute; reflexivity.
  - run.
Defined.

(** A run with the registry under [/srv], where the blob directory is
    made on the way: a directory that is new, and a blob that was there. *)
Lemma main_keeps_files_witness :
  let w' := fst (main P0 ["srv"] aa world) in
  let kept q :=
    w_fs w' !! q = w_fs world !! q \/
    (w_fs world !! q = None /\ w_fs w' !! q = Some Dir /\
     q `prefix_of` blob_dir_of ["srv"]) in
  kept ["srv"; "blobs"] /\ kept (blob_dir ++ ["aa"]).
Proof.
  intros w' kept.
  assert (main P0 ["srv"] aa world = (w', Raise FileNotFoundError)) as H by run.
  split; apply (main_keeps_files P0 ["srv"] aa world w' _ H).
Defined.

(** The index after a run that has imported an image. *)
Lemma main_keeps_index_readable_witness :
  let w' := fst (main P0 registry_root aa world) in
  exists pairs', iter_commits w' = (w', Return pairs').
Proof.
  intros w'.
  apply (main_keeps_index_readable P0 registry_root aa world w' (Return tt) []).
  - reflexivity.
  - run_pure.
  - run.
Defined.
